(** * Currency conversion tools: query parser, rate gateway, conversion engine

    A shallow embedding of the two conversion modules of the repository:

    - [Tools]  : the function-style module [src/conversion_tools.py]
                 (pattern cascade [CONVERT_PATTERNS], [parse_currency_query],
                 [should_use_conversion], [_fetch_rate], [perform_conversion]);
    - [Utils]  : the class-style module [utils/conversion_tools.py]
                 ([CurrencyTool] with its TTL caches, [get_fiat_rate],
                 [get_btc_rate], [convert], [try_parse]).

    Python [str] values are lists of Unicode code points, Python [float]s are
    the kernel's binary64 floats, dictionaries are finite maps, and the
    outside world (clock, HTTP) is an explicit environment that the effectful
    functions read through a small state-and-error monad. *)

From Stdlib Require Import ZArith NArith List Bool Lia String Ascii.
From Stdlib Require Import Floats.
From stdpp Require Import base option list gmap.

#[local] Set Warnings "-inexact-float".

Local Open Scope N_scope.
Local Open Scope list_scope.

(** ** Python strings *)

(** A character is a Unicode code point; a [str] is a list of them. *)
Abbreviation char := N.
Abbreviation str := (list N).

Module Py.

(** Literals are written as ASCII strings and read byte by byte; every literal
    below that goes through [u] is pure ASCII. *)
Fixpoint u (s : string) : str :=
  match s with
  | EmptyString => []
  | String a r => N_of_ascii a :: u r
  end.

Definition in_range (lo hi c : char) : bool := (lo <=? c) && (c <=? hi).

Definition is_upper_ascii (c : char) : bool := in_range 65 90 c.
Definition is_lower_ascii (c : char) : bool := in_range 97 122 c.
Definition is_ascii_letter (c : char) : bool := is_upper_ascii c || is_lower_ascii c.
Definition is_digit (c : char) : bool := in_range 48 57 c.

(** [str.isspace] for one character, which is also what [\s] matches in a
    Unicode pattern. *)
Definition is_space (c : char) : bool :=
  in_range 9 13 c || in_range 28 32 c || (c =? 133) || (c =? 160)
  || (c =? 5760) || in_range 8192 8202 c || (c =? 8232) || (c =? 8233)
  || (c =? 8239) || (c =? 8287) || (c =? 12288).

(** Case mapping.  It is exact on ASCII, on the caseless currency glyphs and
    on the four non-ASCII letters that an ASCII letter matches under
    [re.IGNORECASE]: U+0130, U+0131, U+017F and U+212A.  Those are the only
    characters that the patterns of the repository can capture; any other
    code point is left unchanged.  U+0130 and U+212A are the only non-ASCII
    characters whose lower-case form contains an ASCII character, and no
    character maps to a currency glyph, so a test for an ASCII keyword or a
    glyph in [text.lower()] has the same outcome here as in Python. *)
Definition lower_char (c : char) : str :=
  if is_upper_ascii c then [c + 32]
  else if c =? 304 then [105; 775]
  else if c =? 8490 then [107]
  else [c].

Definition upper_char (c : char) : str :=
  if is_lower_ascii c then [c - 32]
  else if c =? 305 then [73]
  else if c =? 383 then [83]
  else [c].

Definition lower (s : str) : str := flat_map lower_char s.
Definition upper (s : str) : str := flat_map upper_char s.

(** Alphabetic characters among those on which the case mapping above is
    exact; [str.isalpha] knows every Unicode letter, and the properties that
    apply it to arbitrary strings say which characters they range over. *)
Definition is_alpha_char (c : char) : bool :=
  is_ascii_letter c || (c =? 304) || (c =? 305) || (c =? 383) || (c =? 8490).

(** [s.isalpha()]: non-empty and every character alphabetic. *)
Definition isalpha (s : str) : bool :=
  match s with [] => false | _ => forallb is_alpha_char s end.

Definition mem (c : char) (cs : str) : bool := existsb (N.eqb c) cs.

Fixpoint lstrip_by (p : char -> bool) (s : str) : str :=
  match s with
  | c :: r => if p c then lstrip_by p r else s
  | [] => []
  end.

Definition strip_by (p : char -> bool) (s : str) : str :=
  rev (lstrip_by p (rev (lstrip_by p s))).

(** [s.strip()] and [s.strip(chars)]. *)
Definition strip (s : str) : str := strip_by is_space s.
Definition strip_chars (cs : str) (s : str) : str := strip_by (fun c => mem c cs) s.

(** [s.replace(c, "")] for a one-character [c]. *)
Definition remove_char (c : char) (s : str) : str :=
  List.filter (fun d => negb (d =? c)) s.

Fixpoint str_eqb (a b : str) : bool :=
  match a, b with
  | [], [] => true
  | x :: a', y :: b' => (x =? y) && str_eqb a' b'
  | _, _ => false
  end.

Fixpoint starts_with (t s : str) : bool :=
  match t, s with
  | [], _ => true
  | x :: t', y :: s' => (x =? y) && starts_with t' s'
  | _ :: _, [] => false
  end.

(** [t in s] on strings. *)
Fixpoint contains (t s : str) : bool :=
  starts_with t s ||
  match s with
  | [] => false
  | _ :: s' => contains t s'
  end.

(** Texts whose only whitespace is the plain space U+0020. *)
Definition plain_spaces (text : str) : Prop :=
  forall c, In c text -> is_space c = true -> c = 32.

(** The 52 ASCII letters, and the two case forms of a letter. *)
Definition letters : list N :=
  List.filter is_ascii_letter (List.map N.of_nat (List.seq 0%nat 128%nat)).

Definition lc (c : char) : char := hd 0 (lower_char c).
Definition uc (c : char) : char := hd 0 (upper_char c).

(** Truthiness of an optional string: [None] and [""] are falsy. *)
Definition truthy (o : option str) : bool :=
  match o with
  | Some (_ :: _) => true
  | _ => false
  end.

(** Dictionary literal with string keys, looked up by [key in d] / [d[key]];
    a later duplicate key would win in Python, the tables below have none. *)
Fixpoint dict_get {V} (d : list (str * V)) (key : str) : option V :=
  match d with
  | [] => None
  | (k0, v) :: d' => if str_eqb k0 key then Some v else dict_get d' key
  end.

End Py.

(** ** Regular expressions, as Python's [re] runs them

    A backtracking matcher in continuation-passing style: alternatives are
    tried left to right, repetitions are greedy, [search] returns the match
    found first at the leftmost position where one exists.  [ic] is the
    [re.IGNORECASE] flag. *)

Module Re.

Inductive regex : Type :=
| Eps
| Lit (c : char)                      (* one literal character *)
| Any                                 (* [.]: anything but a newline *)
| Ws                                  (* [\s] *)
| Cls (ranges : list (char * char))   (* [[...]]: a union of ranges lo-hi *)
| Cat (r1 r2 : regex)
| Alt (r1 r2 : regex)
| Rep (lo : nat) (hi : option nat) (r : regex)   (* greedy [{lo,hi}] *)
| Grp (name : string) (r : regex).    (* [(?P<name>...)] *)

(** Named groups that took part in the match, most recent binding first. *)
Definition captures := list (string * str).

Fixpoint group (cs : captures) (name : string) : option str :=
  match cs with
  | [] => None
  | (n, v) :: cs' => if String.eqb n name then Some v else group cs' name
  end.

(** The characters that [c] stands for when case is ignored: itself, its
    ASCII counterpart of the other case, and the non-ASCII letters that Python
    treats as equivalent to i, s and k. *)
Definition variants (c : char) : list char :=
  if Py.is_upper_ascii c then
    c :: (c + 32) ::
      (if c =? 73 then [304; 305] else if c =? 83 then [383]
       else if c =? 75 then [8490] else [])
  else if Py.is_lower_ascii c then
    c :: (c - 32) ::
      (if c =? 105 then [304; 305] else if c =? 115 then [383]
       else if c =? 107 then [8490] else [])
  else if (c =? 304) || (c =? 305) then [c; 105; 73]
  else if c =? 383 then [c; 115; 83]
  else if c =? 8490 then [c; 107; 75]
  else [c].

Definition test (ic : bool) (p : char -> bool) (c : char) : bool :=
  if ic then existsb p (variants c) else p c.

Definition in_class (ranges : list (char * char)) (c : char) : bool :=
  existsb (fun '(lo, hi) => Py.in_range lo hi c) ranges.

Section Matcher.
Context {A : Type}.

Definition cont := str -> captures -> option A.

(** One character against a predicate. *)
Definition one (p : char -> bool) (s : str) (cs : captures) (k : cont)
  : option A :=
  match s with
  | c :: s' => if p c then k s' cs else None
  | [] => None
  end.

(** Greedy repetition of [step]: take one more iteration when the upper
    bound allows and the rest then matches, otherwise stop here when the
    lower bound is met.  Every repeated body in the repository's patterns
    consumes at least one character, so [length s + 1] rounds are enough
    and an iteration that does not advance is cut off. *)
Fixpoint rep_loop (step : str -> captures -> cont -> option A)
    (fuel : nat) (lo : nat) (hi : option nat)
    (s : str) (cs : captures) (k : cont) : option A :=
  match fuel with
  | O => None
  | S fuel' =>
      let more :=
        match hi with
        | Some O => None
        | _ =>
            step s cs (fun s' cs' =>
              if (length s' <? length s)%nat
              then rep_loop step fuel' (Nat.pred lo) (Nat.pred <$> hi) s' cs' k
              else None)
        end in
      match more with
      | Some x => Some x
      | None => if (lo =? 0)%nat then k s cs else None
      end
  end.

Fixpoint run (ic : bool) (r : regex) : str -> captures -> cont -> option A :=
  match r with
  | Eps => fun s cs k => k s cs
  | Lit l => one (test ic (N.eqb l))
  | Any => one (fun c => negb (c =? 10))
  | Ws => one Py.is_space
  | Cls ranges => one (test ic (in_class ranges))
  | Cat r1 r2 => fun s cs k => run ic r1 s cs (fun s' cs' => run ic r2 s' cs' k)
  | Alt r1 r2 => fun s cs k =>
      match run ic r1 s cs k with
      | Some x => Some x
      | None => run ic r2 s cs k
      end
  | Rep lo hi r' => fun s cs k =>
      rep_loop (run ic r') (S (length s)) lo hi s cs k
  | Grp name r' => fun s cs k =>
      run ic r' s cs (fun s' cs' =>
        k s' ((name, take (length s - length s') s) :: cs'))
  end.
End Matcher.

(** [pattern.search(text)]: the groups of the first match, scanning start
    positions from the left (the empty suffix included). *)
Fixpoint search (ic : bool) (r : regex) (s : str) : option captures :=
  match run ic r s [] (fun _ cs => Some cs) with
  | Some cs => Some cs
  | None =>
      match s with
      | [] => None
      | _ :: s' => search ic r s'
      end
  end.

(** [v] matches the literal word [w] when case is ignored. *)
Definition ci_word (w v : str) : Prop :=
  Forall2 (fun l c => test true (N.eqb l) c = true) w v.

(** A lower-case letter other than i, s and k: case ignored, it matches only
    itself and its capital. *)
Definition plain_letter (l : char) : bool :=
  Py.is_lower_ascii l && negb (l =? 105) && negb (l =? 115) && negb (l =? 107).

(** A lower bound on the length of any match of [r]. *)
Fixpoint minlen (r : regex) : nat :=
  match r with
  | Eps => 0
  | Lit _ | Any | Ws | Cls _ => 1
  | Cat r1 r2 => minlen r1 + minlen r2
  | Alt r1 r2 => Nat.min (minlen r1) (minlen r2)
  | Rep lo _ r' => lo * minlen r'
  | Grp _ r' => minlen r'
  end.

(** Pattern-building shorthands. *)
Fixpoint lit (s : str) : regex :=
  match s with
  | [] => Eps
  | [c] => Lit c
  | c :: s' => Cat (Lit c) (lit s')
  end.

Definition word (s : string) : regex := lit (Py.u s).

Fixpoint cat (rs : list regex) : regex :=
  match rs with
  | [] => Eps
  | [r] => r
  | r :: rs' => Cat r (cat rs')
  end.

Fixpoint alt (rs : list regex) : regex :=
  match rs with
  | [] => Eps
  | [r] => r
  | r :: rs' => Alt r (alt rs')
  end.

Definition star := Rep 0 None.
Definition plus := Rep 1 None.
Definition opt := Rep 0 (Some 1%nat).

End Re.

(** ** The outside world and the effects of the code

    The code reads the clock ([time.time()]) and sends HTTP requests.  The
    environment fixes what the n-th clock reading is and what the n-th request
    returns; the state counts the readings, records the requests sent (most
    recent first) and holds the two caches of the one [CurrencyTool] instance.
    An exception leaves the state as it was when it was raised. *)

Module World.

Inductive request : Type :=
| GetFiatLatest (base : str)          (* GET exchangerate.host/latest?base= *)
| GetSimplePrice (ids vs : str)       (* GET coingecko simple/price *)
| GetPair (key src dst : str).        (* GET exchangerate-api /key/pair/src/dst *)

(** A request either fails (transport error, [raise_for_status], a body that
    is not JSON) or yields the decoded body. *)
Inductive reply (A : Type) : Type :=
| Failed
| Json (body : A).
Arguments Failed {A}.
Arguments Json {A} body.

(** The fields that the code reads from each kind of body; [None] is an
    absent key.  [fb_success] is the truth value of ["success"]. *)
Record fiat_body := FiatBody {
  fb_success : option bool;
  fb_rates : option (gmap (list N) float) }.

Record pair_body := PairBody {
  pb_result : option str;
  pb_conversion_rate : option float }.

Record env := Env {
  clock : nat -> float;
  fiat_latest : nat -> str -> reply fiat_body;
  simple_price : nat -> str -> str -> reply (gmap (list N) (gmap (list N) float));
  exr_pair : nat -> str -> str -> str -> reply pair_body }.

Inductive message : Type :=
| MissingApiKey
| ExchangeRateApiError
| NoBtcPrice (dst : str)
| UnsupportedPair (src : str) (dst : str)
| HostError
| CoinGeckoUnexpected
| UnsupportedTarget (target : str)
| UnknownSource (code : str)
| UnknownTarget (code : str)
| NanToInteger.

Inductive exn : Type :=
| HTTPError
| KeyError
| ZeroDivisionError
| OverflowError
| RuntimeError (m : message)
| ValueError (m : message).

Record fiat_entry := FiatEntry { fe_t : float; fe_rates : gmap (list N) float }.
Record crypto_entry := CryptoEntry { ce_t : float; ce_price : float }.

(** A cache slot: a key of [_fiat_cache] or a key of [_crypto_cache]. *)
Inductive slot : Type :=
| FiatSlot (base : str)
| CryptoSlot (key : str).

Record state := State {
  ticks : nat;                              (* clock readings made so far *)
  sent : list request;                      (* requests sent, newest first *)
  looked_up : list slot;                    (* cache slots read, newest first *)
  _fiat_cache : gmap (list N) fiat_entry;
  _crypto_cache : gmap (list N) crypto_entry }.

Definition M (A : Type) : Type := state -> (exn + A) * state.

Definition ret {A} (a : A) : M A := fun s => (inr a, s).
Definition raise {A} (e : exn) : M A := fun s => (inl e, s).
Definition bind {A B} (c : M A) (k : A -> M B) : M B :=
  fun s =>
    match c s with
    | (inr a, s') => k a s'
    | (inl e, s') => (inl e, s')
    end.

#[export] Instance M_ret : MRet M := @ret.
#[export] Instance M_bind : MBind M := fun A B k c => bind c k.

Definition initial : state := State 0 [] [] ∅ ∅.

Section Effects.
Variable E : env.

(** [time.time()] *)
Definition _now : M float :=
  fun s => (inr (clock E (ticks s)),
            State (S (ticks s)) (sent s) (looked_up s) (_fiat_cache s) (_crypto_cache s)).

Definition send {A} (r : request) (answer : nat -> reply A) : M A :=
  fun s =>
    let s' := State (ticks s) (r :: sent s) (looked_up s) (_fiat_cache s) (_crypto_cache s) in
    match answer (length (sent s)) with
    | Failed => (inl HTTPError, s')
    | Json b => (inr b, s')
    end.

Definition get_fiat_latest (base : str) : M fiat_body :=
  send (GetFiatLatest base) (fun n => fiat_latest E n base).

Definition get_simple_price (ids vs : str)
  : M (gmap (list N) (gmap (list N) float)) :=
  send (GetSimplePrice ids vs) (fun n => simple_price E n ids vs).

Definition get_pair (key src dst : str) : M pair_body :=
  send (GetPair key src dst) (fun n => exr_pair E n key src dst).

Definition fiat_cache_get (base : str) : M (option fiat_entry) :=
  fun s => (inr (_fiat_cache s !! base),
            State (ticks s) (sent s) (FiatSlot base :: looked_up s)
                  (_fiat_cache s) (_crypto_cache s)).

Definition fiat_cache_set (base : str) (e : fiat_entry) : M unit :=
  fun s => (inr tt,
            State (ticks s) (sent s) (looked_up s)
                  (<[base := e]> (_fiat_cache s)) (_crypto_cache s)).

Definition crypto_cache_get (key : str) : M (option crypto_entry) :=
  fun s => (inr (_crypto_cache s !! key),
            State (ticks s) (sent s) (CryptoSlot key :: looked_up s)
                  (_fiat_cache s) (_crypto_cache s)).

Definition crypto_cache_set (key : str) (e : crypto_entry) : M unit :=
  fun s => (inr tt,
            State (ticks s) (sent s) (looked_up s)
                  (_fiat_cache s) (<[key := e]> (_crypto_cache s))).

End Effects.

(** [data[k1][k2]] when both keys are present. *)
Definition get2 (data : gmap (list N) (gmap (list N) float)) (k1 k2 : str)
  : option float :=
  match data !! k1 with
  | Some inner => inner !! k2
  | None => None
  end.

(** The exceptions that come from a provider: a failed request or a body of
    the wrong shape.  The others are raised by the conversion logic itself. *)
Definition provider_failure {A} (r : exn + A) : bool :=
  match r with
  | inl HTTPError | inl KeyError | inl (RuntimeError _) => true
  | _ => false
  end.

(** The slots read and the requests sent while the state went from [s] to
    [s'] (both logs only grow at the front). *)
Definition slots_since (s s' : state) : list slot :=
  take (length (looked_up s') - length (looked_up s)) (looked_up s').

Definition sent_since (s s' : state) : list request :=
  take (length (sent s') - length (sent s)) (sent s').

(** The cache slot that a request fills. *)
Definition slot_of_request (r : request) : option slot :=
  match r with
  | GetFiatLatest base => Some (FiatSlot base)
  | GetSimplePrice ids vs => Some (CryptoSlot (ids ++ [124] ++ vs))
  | GetPair _ _ _ => None
  end.

(** Python's [x / y] on floats. *)
Definition py_div (x y : float) : exn + float :=
  if PrimFloat.eqb y 0 then inl ZeroDivisionError else inr (x / y)%float.

End World.

(** ** Numbers

    Python floats are binary64.  [float(s)] on a decimal numeral is the
    correctly rounded value of the numeral. *)

Module Num.

Local Open Scope Z_scope.

(** The float nearest to [n / d] (ties to even), for [n >= 0]. *)
Definition float_of_ratio (neg : bool) (n : Z) (d : positive) : float :=
  match n with
  | Zpos _ =>
      let '(q, e, l) := SFdiv_core_binary prec emax n 0 (Zpos d) 0 in
      SF2Prim (binary_round_aux prec emax neg q e l)
  | _ => if neg then neg_zero else zero
  end.

Definition digit_val (c : char) : Z := Z.of_N c - 48.

(** Reads [digits] or [digits.digits]: the digits as one integer and the
    number of digits after the point. *)
Fixpoint scan_decimal (s : str) (seen_dot : bool) (mant : Z) (scale : nat)
  : Z * nat :=
  match s with
  | [] => (mant, scale)
  | c :: s' =>
      if N.eqb c 46 then scan_decimal s' true mant scale
      else scan_decimal s' seen_dot (10 * mant + digit_val c)
             (if seen_dot then S scale else scale)
  end.

Definition float_of_decimal (s : str) : float :=
  let '(m, k) := scan_decimal s false 0 0 in
  float_of_ratio false m (Z.to_pos (10 ^ Z.of_nat k)).

(** [float(s)] on the strings the patterns can hand to it: digits with
    points among them.  Python accepts such a string when it has a digit and
    at most one point, and raises [ValueError] otherwise ([None] here). *)
Definition py_float (s : str) : option float :=
  if forallb (fun c => Py.is_digit c || N.eqb c 46) s
     && existsb Py.is_digit s
     && (length (List.filter (N.eqb 46) s) <=? 1)%nat
  then Some (float_of_decimal s)
  else None.

(** [math.floor(y)]: the exact integer part of a finite [y = m * 2^e]; an
    infinity or a NaN cannot be converted. *)
Definition py_floor (y : float) : World.exn + Z :=
  match Prim2SF y with
  | S754_zero _ => inr 0
  | S754_finite s m e =>
      inr ((if s then Zneg m else Zpos m) * 2 ^ Z.max e 0 / 2 ^ Z.max (- e) 0)
  | S754_infinity _ => inl World.OverflowError
  | S754_nan => inl (World.ValueError World.NanToInteger)
  end.

Definition round_half_even (n : Z) (d : positive) : Z :=
  let q := n / Zpos d in
  match 2 * (n mod Zpos d) ?= Zpos d with
  | Lt => q
  | Gt => q + 1
  | Eq => if Z.even q then q else q + 1
  end.

(** The integer [N] such that [f"{x:.{d}f}"] prints [N / 10^d] for
    [|x| = m * 2^e]: the exact value rounded to [d] decimals, ties to even. *)
Definition fixed_digits (m : positive) (e : Z) (d : Z) : Z :=
  round_half_even (Zpos m * 2 ^ Z.max e 0 * 10 ^ d) (Z.to_pos (2 ^ Z.max (- e) 0)).

(** [float(f"{x:.{d}f}")]: a finite [x] is printed with [d] decimals and read
    back; infinities and NaN print as ["inf"], ["-inf"], ["nan"] and read back
    as themselves. *)
Definition float_of_fixed (x : float) (d : Z) : float :=
  match Prim2SF x with
  | S754_zero s => if s then neg_zero else zero
  | S754_finite s m e => float_of_ratio s (fixed_digits m e d) (Z.to_pos (10 ^ d))
  | _ => x
  end.

End Num.

(** ** The function-style module [src/conversion_tools.py] *)

Module Tools.

Import Re World.

(** The glyphs ["$€฿£¥₹₩₫"]. *)
Definition GLYPHS : str := [36; 8364; 3647; 163; 165; 8377; 8361; 8363].

Definition ALIASES : list (str * str) :=
  [ (Py.u "dollar", Py.u "USD"); (Py.u "usd", Py.u "USD"); ([36], Py.u "USD");
    (Py.u "euro", Py.u "EUR"); (Py.u "eur", Py.u "EUR"); ([8364], Py.u "EUR");
    (Py.u "baht", Py.u "THB"); (Py.u "thb", Py.u "THB"); ([3647], Py.u "THB");
    (Py.u "pound", Py.u "GBP"); (Py.u "gbp", Py.u "GBP"); ([163], Py.u "GBP");
    (Py.u "yen", Py.u "JPY"); (Py.u "jpy", Py.u "JPY"); ([165], Py.u "JPY");
    (Py.u "yuan", Py.u "CNY"); (Py.u "cny", Py.u "CNY");
    (Py.u "rupee", Py.u "INR"); (Py.u "inr", Py.u "INR"); ([8377], Py.u "INR");
    (Py.u "won", Py.u "KRW"); (Py.u "krw", Py.u "KRW"); ([8361], Py.u "KRW");
    (Py.u "dong", Py.u "VND"); (Py.u "vnd", Py.u "VND"); ([8363], Py.u "VND");
    (Py.u "ringgit", Py.u "MYR"); (Py.u "myr", Py.u "MYR");
    (Py.u "peso", Py.u "PHP"); (Py.u "php", Py.u "PHP");
    (Py.u "franc", Py.u "CHF"); (Py.u "chf", Py.u "CHF");
    (Py.u "canadian dollar", Py.u "CAD"); (Py.u "cad", Py.u "CAD");
    (Py.u "australian dollar", Py.u "AUD"); (Py.u "aud", Py.u "AUD");
    (Py.u "singapore dollar", Py.u "SGD"); (Py.u "sgd", Py.u "SGD");
    (Py.u "bitcoin", Py.u "BTC"); (Py.u "btc", Py.u "BTC") ].

Definition FIAT : list str :=
  map Py.u
    [ "USD"; "EUR"; "THB"; "GBP"; "JPY"; "CNY"; "INR"; "KRW"; "VND"; "MYR"; "PHP";
      "CHF"; "CAD"; "AUD"; "SGD"; "HKD"; "IDR"; "NZD"; "SEK"; "NOK"; "DKK" ]%string.

Definition in_FIAT (c : str) : bool := existsb (Py.str_eqb c) FIAT.

Definition DIGIT : regex := Cls [(48, 57)].

(** [[A-Za-z$€฿£¥₹₩₫ ]] *)
Definition CUR : regex :=
  Cls [ (65, 90); (97, 122); (36, 36); (8364, 8364); (3647, 3647); (163, 163);
        (165, 165); (8377, 8377); (8361, 8361); (8363, 8363); (32, 32) ].

(** [(?P<amt>[0-9]+(?:[.,][0-9]+)?)] *)
Definition NUM_RE : regex :=
  Grp "amt" (Cat (plus DIGIT) (opt (Cat (Cls [(46, 46); (44, 44)]) (plus DIGIT)))).

(** [(?P<src>[..]{1,20})\s*(?:to|in|→|=|->|⇒)\s*(?P<dst>[..]{1,20})] *)
Definition CURR_RE : regex :=
  cat [ Grp "src" (Rep 1 (Some 20%nat) CUR); star Ws;
        alt [ word "to"; word "in"; Lit 8594; Lit 61; word "->"; Lit 8658 ];
        star Ws; Grp "dst" (Rep 1 (Some 20%nat) CUR) ].

Definition TO_IN : regex := alt [ word "to"; word "in" ].
Definition BTC_WORD : regex := alt [ word "btc"; word "bitcoin" ].

(** All seven patterns are compiled with [re.I].  The unnamed group
    [(exchange\s+)?] of the sixth binds no name and is not recorded. *)
Definition CONVERT_PATTERNS : list regex :=
  [ cat [ alt [ word "convert"; word "exchange" ]; plus Ws; NUM_RE; plus Ws;
          Grp "src" (plus CUR); plus Ws; TO_IN; plus Ws; Grp "dst" (plus CUR) ];
    cat [ NUM_RE; plus Ws; Grp "src" (plus CUR); plus Ws; TO_IN; plus Ws;
          Grp "dst" (plus CUR) ];
    cat [ word "rate"; plus Ws; word "for"; plus Ws; CURR_RE ];
    cat [ word "exchange"; plus Ws; word "rate"; plus Ws; CURR_RE ];
    cat [ Grp "src" BTC_WORD; plus Ws; word "price";
          opt (cat [ plus Ws; word "in"; plus Ws;
                     Grp "dst" (plus (Cls [(65, 90); (97, 122)])) ]) ];
    cat [ word "what"; opt (alt [ cat [ Lit 39; Lit 115 ]; cat [ plus Ws; word "is" ] ]);
          plus Ws; word "the"; plus Ws; opt (cat [ word "current"; plus Ws ]);
          opt (cat [ word "exchange"; plus Ws ]);
          word "rate"; plus Ws; word "for"; plus Ws; Grp "src" BTC_WORD ];
    cat [ Grp "src" (plus CUR); plus Ws; TO_IN; plus Ws; Grp "dst" (plus CUR) ] ].

Definition _norm_code (raw : str) : option str :=
  let s := Py.lower (Py.strip raw) in
  let s := Py.remove_char 46 s in
  match Py.dict_get ALIASES s with
  | Some c => Some c
  | None =>
      let s := Py.strip_chars GLYPHS s in
      match Py.dict_get ALIASES s with
      | Some c => Some c
      | None =>
          if (length s =? 3)%nat && Py.isalpha s then Some (Py.upper s) else None
      end
  end.

Definition _parse_amount (text : str) : option float :=
  match search true NUM_RE (Py.remove_char 44 text) with
  | None => None
  | Some m =>
      match group m "amt" with
      | Some a => Num.py_float a
      | None => None
      end
  end.

Definition triggers : list str :=
  map Py.u
    [ "convert "; "exchange "; "exchange rate"; "rate for"; "price of";
      " usd"; " eur"; " thb"; " jpy"; " cny"; " inr"; " gbp"; " btc"; " bitcoin";
      " to thb"; " to usd"; " to eur"; " to btc" ]%string
  ++ map (fun c => [c]) GLYPHS.

Definition should_use_conversion (text : str) : bool :=
  let tl := Py.lower text in
  existsb (fun t => Py.contains t tl) triggers.

(** The dictionary [{"amount": amt, "src": src, "dst": dst}]. *)
Record intent := Intent { amount : option float; src : str; dst : option str }.

(** The body of the [for] loop for a pattern that matched with groups [m]:
    [Some] when it returns, [None] when it falls through to the next pattern. *)
Definition on_match (text : str) (m : captures) : option intent :=
  let amt := _parse_amount text in
  let src_raw := group m "src" in
  let dst_raw := group m "dst" in
  let src := if Py.truthy src_raw then src_raw ≫= _norm_code else None in
  let dst := if Py.truthy dst_raw then dst_raw ≫= _norm_code else None in
  let dst :=
    if (match src with Some c => Py.str_eqb c (Py.u "BTC") | None => false end)
       && negb (Py.truthy dst)
    then Some (Py.u "USD") else dst in
  let amt :=
    if (Py.truthy src && Py.truthy dst)
       && (match amt with None => true | Some _ => false end)
    then Some 1%float else amt in
  match src with
  | Some c =>
      if Py.truthy src && (Py.truthy dst || Py.str_eqb c (Py.u "BTC"))
      then Some (Intent amt c dst)
      else None
  | None => None
  end.

Fixpoint cascade (ps : list regex) (text : str) : option intent :=
  match ps with
  | [] => None
  | p :: ps' =>
      match search true p text with
      | None => cascade ps' text
      | Some m =>
          match on_match text m with
          | Some r => Some r
          | None => cascade ps' text
          end
      end
  end.

(** The resolution trace that the function also appends to is a log of
    formatted lines that no result depends on; it is left out. *)
Definition parse_currency_query (text : str) : option intent :=
  cascade CONVERT_PATTERNS text.

(** *** Rates and conversion *)

(** [EXCHANGERATE_API_KEY = os.getenv("EXCHANGERATE_API_KEY", "").strip()],
    evaluated when the module is loaded; [environ] is the process
    environment.  Nothing else runs at load time that could raise. *)
Definition load_EXCHANGERATE_API_KEY (environ : str -> option str) : exn + str :=
  inr (Py.strip (default [] (environ (Py.u "EXCHANGERATE_API_KEY")))).

Section Rates.
Variable E : env.
Variable EXCHANGERATE_API_KEY : str.
Variable log10 : float -> float.

Definition _fetch_fiat_rate (src dst : str) : M (float * str) :=
  match EXCHANGERATE_API_KEY with
  | [] => raise (RuntimeError MissingApiKey)
  | _ =>
      if Py.str_eqb src dst then ret (1%float, Py.u "EXR (pair, same-currency)")
      else
        data ← get_pair E EXCHANGERATE_API_KEY src dst;
        if match pb_result data with
           | Some r => Py.str_eqb r (Py.u "success")
           | None => false
           end
        then
          match pb_conversion_rate data with
          | Some rate => ret (rate, Py.u "ExchangeRate-API")
          | None => raise KeyError
          end
        else raise (RuntimeError ExchangeRateApiError)
  end.

Definition _fetch_btc_to_fiat (dst : str) : M (float * str) :=
  data ← get_simple_price E (Py.u "bitcoin") (Py.lower dst);
  match get2 data (Py.u "bitcoin") (Py.lower dst) with
  | None => raise (RuntimeError (NoBtcPrice dst))
  | Some val => ret (val, Py.u "CoinGecko")
  end.

Definition _fetch_rate (src dst : str) : M (float * str) :=
  if Py.str_eqb src (Py.u "BTC") && (Py.truthy (Some dst) && in_FIAT dst)
  then _fetch_btc_to_fiat dst
  else if in_FIAT src && in_FIAT dst
  then _fetch_fiat_rate src dst
  else raise (RuntimeError (UnsupportedPair src dst)).

(** The nested helper of [perform_conversion].  [math.log10] is the C
    library's and is taken as the parameter [log10]; [math.floor] and the
    formatting are exact. *)
Definition _smart_round (x : float) : exn + float :=
  if PrimFloat.eqb x 0 then inr 0%float
  else
    match Num.py_floor (log10 (abs x)) with
    | inl e => inl e
    | inr fl =>
        let mags := Z.max (-6) (Z.min 6 fl) in
        let sig := (6 - mags)%Z in
        inr (Num.float_of_fixed x (Z.max 2 (Z.min 6 sig)))
    end.

(** The result dictionary, without its two formatted strings: the timestamp
    is kept as the clock reading it is printed from, and
    ["normalized_query"] is left out. *)
Record conversion := Conversion {
  c_amount : float;
  c_src : str;
  c_dst : str;
  c_rate : float;
  c_converted_amount : float;
  c_source : str;
  c_timestamp : float }.

Definition perform_conversion (amount : option float) (src : str) (dst : option str)
  : M conversion :=
  let dst :=
    match dst with
    | Some (c :: d) => c :: d
    | _ => if Py.str_eqb src (Py.u "BTC") then Py.u "USD" else Py.u "THB"
    end in
  '(rate, source) ← _fetch_rate src dst;
  let amount := default 1%float amount in
  let converted := (rate * amount)%float in
  ts ← _now E;
  match _smart_round converted with
  | inl e => raise e
  | inr rounded => mret (Conversion amount src dst rate rounded source ts)
  end.

End Rates.

End Tools.

(** ** The class-style module [utils/conversion_tools.py] *)

Module Utils.

Import Re World.

Definition _SYMBOL_TO_CODE : list (str * str) :=
  [ ([36], Py.u "USD"); ([8364], Py.u "EUR"); ([163], Py.u "GBP");
    ([165], Py.u "JPY"); ([3647], Py.u "THB") ].

Definition _ALIAS_TO_CODE : list (str * str) :=
  [ (Py.u "usd", Py.u "USD"); (Py.u "usdt", Py.u "USDT");
    (Py.u "eur", Py.u "EUR"); (Py.u "gbp", Py.u "GBP"); (Py.u "jpy", Py.u "JPY");
    (Py.u "thb", Py.u "THB"); (Py.u "aud", Py.u "AUD"); (Py.u "cad", Py.u "CAD");
    (Py.u "chf", Py.u "CHF"); (Py.u "cny", Py.u "CNY"); (Py.u "hkd", Py.u "HKD");
    (Py.u "sgd", Py.u "SGD"); (Py.u "inr", Py.u "INR"); (Py.u "krw", Py.u "KRW");
    (Py.u "vnd", Py.u "VND"); (Py.u "idr", Py.u "IDR"); (Py.u "myr", Py.u "MYR");
    (Py.u "php", Py.u "PHP"); (Py.u "twd", Py.u "TWD"); (Py.u "nzd", Py.u "NZD");
    (Py.u "sek", Py.u "SEK"); (Py.u "nok", Py.u "NOK"); (Py.u "dkk", Py.u "DKK");
    (Py.u "mxn", Py.u "MXN"); (Py.u "zar", Py.u "ZAR"); (Py.u "try", Py.u "TRY");
    (Py.u "btc", Py.u "BTC"); (Py.u "bitcoin", Py.u "BTC") ].

(** [_CG_IDS["BTC"]] *)
Definition cg_id : str := Py.u "bitcoin".

(** [_safe_float]: commas are dropped before [float]. *)
Definition _safe_float (x : str) : option float :=
  Num.py_float (Py.remove_char 44 x).

(** The fields that [__init__] sets and nothing changes afterwards; the two
    caches live in the state.  [ttl] is compared with a difference of clock
    readings, so it is kept as the float of [ttl_seconds]. *)
Record CurrencyTool := Tool { default_target : str; ttl : float }.

(** [CurrencyTool(default_target, ttl_seconds)], defaults ["THB"] and [300]. *)
Definition __init__ (default_target : str) (ttl_seconds : float) : CurrencyTool :=
  Tool (Py.upper default_target) ttl_seconds.

Definition default_tool : CurrencyTool := __init__ (Py.u "THB") 300%float.

Definition normalize_code (token : option str) : option str :=
  match token with
  | None | Some [] => None
  | Some tok =>
      let token := Py.strip tok in
      match Py.dict_get _SYMBOL_TO_CODE token with
      | Some c => Some c
      | None =>
          match Py.dict_get _ALIAS_TO_CODE (Py.lower token) with
          | Some c => Some c
          | None =>
              if (length token =? 3)%nat && Py.isalpha token
              then Some (Py.upper token)
              else None
          end
      end
  end.

Section Methods.
Variable E : env.
Variable self : CurrencyTool.

(** [_now() - cached["t"] < self.ttl] *)
Definition fresh (now t : float) : bool := PrimFloat.ltb (now - t)%float (ttl self).

(** Slot [sl] holds an entry in [s] that passes the TTL test at the [n]-th
    clock reading. *)
Definition slot_fresh (s : state) (sl : slot) (n : nat) : bool :=
  match sl with
  | FiatSlot base =>
      match _fiat_cache s !! base with
      | Some c => fresh (clock E n) (fe_t c)
      | None => false
      end
  | CryptoSlot key =>
      match _crypto_cache s !! key with
      | Some c => fresh (clock E n) (ce_t c)
      | None => false
      end
  end.

(** The part of [_fetch_fiat_rates] after the cache test. *)
Definition refetch_fiat (base : str) : M (gmap (list N) float) :=
  data ← get_fiat_latest E base;
  if negb (default true (fb_success data)) && negb (bool_decide (is_Some (fb_rates data)))
  then raise (RuntimeError HostError)
  else
    match fb_rates data with
    | None => raise KeyError
    | Some rates =>
        t ← _now E;
        fiat_cache_set base (FiatEntry t rates);;
        mret rates
    end.

Definition _fetch_fiat_rates (base : str) : M (gmap (list N) float) :=
  let base := Py.upper base in
  cached ← fiat_cache_get base;
  match cached with
  | Some c =>
      now ← _now E;
      if fresh now (fe_t c) then mret (fe_rates c) else refetch_fiat base
  | None => refetch_fiat base
  end.

Definition get_fiat_rate (base target : str) : M float :=
  let base := Py.upper base in
  let target := Py.upper target in
  if Py.str_eqb base target then mret 1%float
  else
    rates ← _fetch_fiat_rates base;
    match rates !! target with
    | Some r => mret r
    | None =>
        match rates !! Py.u "USD" with
        | Some usd_rate =>
            rates_usd ← _fetch_fiat_rates (Py.u "USD");
            match rates_usd !! target with
            | None => raise (ValueError (UnsupportedTarget target))
            | Some r => mret (usd_rate * r)%float
            end
        | None => raise (ValueError (UnsupportedTarget target))
        end
    end.

(** The part of [get_btc_rate] after the cache test. *)
Definition refetch_btc (cg_vs key : str) : M float :=
  data ← get_simple_price E cg_id cg_vs;
  match get2 data cg_id cg_vs with
  | None => raise (RuntimeError CoinGeckoUnexpected)
  | Some price =>
      t ← _now E;
      crypto_cache_set key (CryptoEntry t price);;
      mret price
  end.

Definition get_btc_rate (vs_code : str) : M float :=
  let vs_code := Py.upper vs_code in
  let cg_vs := Py.lower vs_code in
  let key := cg_id ++ [124] ++ cg_vs in
  cached ← crypto_cache_get key;
  match cached with
  | Some c =>
      now ← _now E;
      if fresh now (ce_t c) then mret (ce_price c) else refetch_btc cg_vs key
  | None => refetch_btc cg_vs key
  end.

(** [(converted_amount, rate, source)] *)
Definition convert (amount : float) (from_code to_code : str)
  : M (float * float * str) :=
  match normalize_code (Some from_code) with
  | None => raise (ValueError (UnknownSource from_code))
  | Some f =>
      match normalize_code (Some to_code) with
      | None => raise (ValueError (UnknownTarget to_code))
      | Some t =>
          let f_btc := Py.str_eqb f (Py.u "BTC") in
          let t_btc := Py.str_eqb t (Py.u "BTC") in
          if f_btc && negb t_btc then
            rate ← get_btc_rate t;
            mret ((amount * rate)%float, rate, Py.u "CoinGecko")
          else if t_btc && negb f_btc then
            price ← get_btc_rate f;
            match py_div 1 price with
            | inl e => raise e
            | inr rate => mret ((amount * rate)%float, rate, Py.u "CoinGecko")
            end
          else if f_btc && t_btc then
            mret (amount, 1%float, Py.u "CoinGecko")
          else
            rate ← get_fiat_rate f t;
            mret ((amount * rate)%float, rate, Py.u "exchangerate.host")
      end
  end.

(** [[A-Za-z]{3}|[$€£¥฿]] *)
Definition CODE3 : regex :=
  Alt (Rep 3 (Some 3%nat) (Cls [(65, 90); (97, 122)]))
      (Cls [(36, 36); (8364, 8364); (163, 163); (165, 165); (3647, 3647)]).

(** [[0-9][0-9,\.]*] *)
Definition AMOUNT : regex :=
  Cat (Cls [(48, 57)]) (star (Cls [(48, 57); (44, 44); (46, 46)])).

(** The Thai words of the patterns, by code point: "แปลง", "แลก", "เป็น",
    "อัตรา", "ราคา" and "เท่าไหร่". *)
Definition TH_convert : str := [3649; 3611; 3621; 3591].
Definition TH_exchange : str := [3649; 3621; 3585].
Definition TH_to : str := [3648; 3611; 3655; 3609].
Definition TH_rate : str := [3629; 3633; 3605; 3619; 3634].
Definition TH_price : str := [3619; 3634; 3588; 3634].
Definition TH_how_much : str := [3648; 3607; 3656; 3634; 3652; 3627; 3619; 3656].

(** Both class attributes are compiled with [re.IGNORECASE | re.VERBOSE]:
    the layout and the comment inside the pattern text are not part of it. *)
Definition _CONVERT_RE : regex :=
  cat [ Grp "verb" (alt [ word "convert"; lit TH_convert; lit TH_exchange;
                          word "exchange" ]);
        star Ws; Grp "amount" AMOUNT; star Ws; Grp "src" CODE3;
        opt (cat [ star Ws; alt [ word "to"; lit TH_to; word "->"; word "in" ];
                   star Ws; Grp "dst" CODE3 ]) ].

Definition _RATE_RE : regex :=
  cat [ alt [ word "rate"; lit TH_rate; lit TH_price;
              cat [ word "exchange"; star Ws; word "rate" ]; lit TH_how_much ];
        star Any;
        Grp "src" (alt [ word "btc"; word "bitcoin";
                         Rep 3 (Some 3%nat) (Cls [(65, 90); (97, 122)]);
                         Cls [(36, 36); (8364, 8364); (163, 163); (165, 165);
                              (3647, 3647)] ]);
        opt (cat [ star Ws; alt [ word "to"; lit TH_to; word "in" ]; star Ws;
                   Grp "dst" CODE3 ]) ].

(** The pattern of the last [re.search] of [try_parse]. *)
Definition SIMPLE_RE : regex :=
  cat [ Grp "amount" AMOUNT; star Ws; Grp "src" CODE3; star Ws;
        alt [ word "to"; word "->"; lit TH_to ]; star Ws; Grp "dst" CODE3 ].

(** The dictionaries that [try_parse] returns, by their ["type"]. *)
Inductive payload : Type :=
| PConvert (amount : float) (from : str) (to : str)
| PRate (from : str) (to : option str).

Definition try_simple (text : str) : option payload :=
  match search true SIMPLE_RE text with
  | Some m =>
      match _safe_float (default [] (group m "amount")),
            normalize_code (group m "src"), normalize_code (group m "dst") with
      | Some amt, Some src, Some dst =>
          if Py.truthy (Some src) && Py.truthy (Some dst)
          then Some (PConvert amt src dst) else None
      | _, _, _ => None
      end
  | None => None
  end.

Definition try_rate (text : str) : option payload :=
  match search true _RATE_RE text with
  | Some m2 =>
      let src := normalize_code (group m2 "src") in
      let dst_raw := group m2 "dst" in
      let dst := if Py.truthy dst_raw then normalize_code dst_raw
                 else Some (default_target self) in
      match src with
      | Some (c :: s) => Some (PRate (c :: s) dst)
      | _ => try_simple text
      end
  | None => try_simple text
  end.

Definition try_parse (text : str) : option payload :=
  match search true _CONVERT_RE text with
  | Some m =>
      let amt := _safe_float (default [] (group m "amount")) in
      let src := normalize_code (group m "src") in
      let dst_raw := group m "dst" in
      let dst := if Py.truthy dst_raw then normalize_code dst_raw else None in
      match amt, src with
      | Some a, Some (c :: s) =>
          Some (PConvert a (c :: s)
                  (if Py.truthy dst then default [] dst else default_target self))
      | _, _ => try_rate text
      end
  | None => try_rate text
  end.

End Methods.

End Utils.

(** ** Sample provider and states

    Concrete inputs on which the statements below are evaluated. *)

Module Fixtures.

Import World.

Definition table (l : list (str * float)) : gmap (list N) float := list_to_map l.

(** Three fiat tables; no other base is served. *)
Definition fiat_tables (base : str) : reply fiat_body :=
  if Py.str_eqb base (Py.u "EUR") then
    Json (FiatBody (Some true) (Some (table [(Py.u "USD", 2%float)])))
  else if Py.str_eqb base (Py.u "USD") then
    Json (FiatBody (Some true)
            (Some (table [(Py.u "USD", 1%float); (Py.u "EUR", 0.75%float);
                          (Py.u "THB", 32%float)])))
  else if Py.str_eqb base (Py.u "THB") then
    Json (FiatBody (Some true)
            (Some (table [(Py.u "THB", 1%float); (Py.u "EUR", 0.25%float)])))
  else Failed.

Definition btc_prices : gmap (list N) (gmap (list N) float) :=
  {[ Py.u "bitcoin" := table [(Py.u "usd", 50000%float); (Py.u "thb", 1600000%float)] ]}.

(** The clock stands at 1000 seconds; every pair request succeeds at 0.5. *)
Definition provider : env :=
  Env (fun _ => 1000%float)
      (fun _ base => fiat_tables base)
      (fun _ _ _ => Json btc_prices)
      (fun _ _ _ _ => Json (PairBody (Some (Py.u "success")) (Some 0.5%float))).

(** Both caches hold an entry fetched at time 0, older than the default TTL
    of 300 seconds when the clock reads 1000. *)
Definition stale : state :=
  State 0 [] []
        {[ Py.u "EUR" := FiatEntry 0%float (table [(Py.u "USD", 4%float)]) ]}
        {[ Py.u "bitcoin|usd" := CryptoEntry 0%float 40000%float ]}.

(** A stand-in for [math.log10] with the right integer part on the two
    sample arguments of the rounding examples, 0.00012345 and 1234.5678. *)
Definition log10_sample (x : float) : float :=
  if (x <? 1)%float then (-3.90625)%float else 3.09375%float.

End Fixtures.

(** ** The resolution trace of the function-style module

    [_RESOLUTION_TRACE] is a module-level list that [_t] appends to.  Each
    line is kept as the data it is formatted from.  The functions below are
    the ones of [Tools] with their calls of [_t] and
    [reset_resolution_trace] in place. *)

Module Traced.

Import World Tools.

Inductive line : Type :=
| ParsingQuery (text : str)                                (* "Parsing query: ..." *)
| Detected (src : str) (dst : option str) (amt : option float)
| NoPatternMatched                                         (* "No currency pattern matched." *)
| Get (r : request)                                        (* "GET url [params]" *)
| Performing (amount : option float) (src : str) (dst : option str)
| DefaultDst (dst : str)                                   (* "No dst provided; default dst=..." *)
| Result (res : conversion).                               (* "Result: {...}" *)

Record tstate := TState { world : state; _RESOLUTION_TRACE : list line }.

Definition T (A : Type) : Type := tstate -> (exn + A) * tstate.

Definition tret {A} (a : A) : T A := fun st => (inr a, st).
Definition traise {A} (e : exn) : T A := fun st => (inl e, st).
Definition tbind {A B} (c : T A) (k : A -> T B) : T B :=
  fun st =>
    match c st with
    | (inr a, st') => k a st'
    | (inl e, st') => (inl e, st')
    end.

#[export] Instance T_ret : MRet T := @tret.
#[export] Instance T_bind : MBind T := fun A B k c => tbind c k.

(** An effect on the world leaves the trace alone. *)
Definition lift {A} (c : M A) : T A :=
  fun st => let '(r, w) := c (world st) in (r, TState w (_RESOLUTION_TRACE st)).

Definition reset_resolution_trace : T unit :=
  fun st => (inr tt, TState (world st) []).

Definition _t (msg : line) : T unit :=
  fun st => (inr tt, TState (world st) (_RESOLUTION_TRACE st ++ [msg])).

(** The lines, which the source joins with newlines. *)
Definition get_resolution_trace : T (list line) :=
  fun st => (inr (_RESOLUTION_TRACE st), st).

Definition parse_currency_query (text : str) : T (option intent) :=
  reset_resolution_trace;;
  _t (ParsingQuery text);;
  match cascade CONVERT_PATTERNS text with
  | Some r => _t (Detected (src r) (dst r) (amount r));; mret (Some r)
  | None => _t NoPatternMatched;; mret None
  end.

Section Rates.
Variable E : env.
Variable EXCHANGERATE_API_KEY : str.
Variable log10 : float -> float.

Definition _fetch_fiat_rate (src dst : str) : T (float * str) :=
  match EXCHANGERATE_API_KEY with
  | [] => traise (RuntimeError MissingApiKey)
  | _ =>
      if Py.str_eqb src dst then mret (1%float, Py.u "EXR (pair, same-currency)")
      else
        _t (Get (GetPair EXCHANGERATE_API_KEY src dst));;
        data ← lift (get_pair E EXCHANGERATE_API_KEY src dst);
        if match pb_result data with
           | Some r => Py.str_eqb r (Py.u "success")
           | None => false
           end
        then
          match pb_conversion_rate data with
          | Some rate => mret (rate, Py.u "ExchangeRate-API")
          | None => traise KeyError
          end
        else traise (RuntimeError ExchangeRateApiError)
  end.

Definition _fetch_btc_to_fiat (dst : str) : T (float * str) :=
  _t (Get (GetSimplePrice (Py.u "bitcoin") (Py.lower dst)));;
  data ← lift (get_simple_price E (Py.u "bitcoin") (Py.lower dst));
  match get2 data (Py.u "bitcoin") (Py.lower dst) with
  | None => traise (RuntimeError (NoBtcPrice dst))
  | Some val => mret (val, Py.u "CoinGecko")
  end.

Definition _fetch_rate (src dst : str) : T (float * str) :=
  if Py.str_eqb src (Py.u "BTC") && (Py.truthy (Some dst) && in_FIAT dst)
  then _fetch_btc_to_fiat dst
  else if in_FIAT src && in_FIAT dst
  then _fetch_fiat_rate src dst
  else traise (RuntimeError (UnsupportedPair src dst)).

Definition perform_conversion (amount : option float) (src : str) (dst : option str)
  : T conversion :=
  _t (Performing amount src dst);;
  dst ← match dst with
        | Some (c :: d) => mret (c :: d)
        | _ =>
            let dst := if Py.str_eqb src (Py.u "BTC") then Py.u "USD" else Py.u "THB" in
            _t (DefaultDst dst);; mret dst
        end;
  '(rate, source) ← _fetch_rate src dst;
  let amount := default 1%float amount in
  let converted := (rate * amount)%float in
  ts ← lift (_now E);
  match _smart_round log10 converted with
  | inl e => traise e
  | inr rounded =>
      let res := Conversion amount src dst rate rounded source ts in
      _t (Result res);; mret res
  end.

End Rates.

(** The requests that a run of lines announces, oldest first. *)
Fixpoint announced (ls : list line) : list request :=
  match ls with
  | [] => []
  | Get r :: ls' => r :: announced ls'
  | _ :: ls' => announced ls'
  end.

(** The lines that a call added, and the requests it sent. *)
Definition added (st st' : tstate) (new : list line) : Prop :=
  _RESOLUTION_TRACE st' = _RESOLUTION_TRACE st ++ new
  /\ announced new = rev (sent_since (world st) (world st')).

End Traced.

(** ** What a pattern matches

    The matcher of [Re] is compared with the strings that a pattern denotes. *)

Module ReSem.

Import Re.

(** The strings that a pattern matches, read off its syntax. *)
Fixpoint lang (ic : bool) (r : regex) (w : str) : Prop :=
  match r with
  | Eps => w = []
  | Lit l => exists c, w = [c] /\ test ic (N.eqb l) c = true
  | Any => exists c, w = [c] /\ (c =? 10) = false
  | Ws => exists c, w = [c] /\ Py.is_space c = true
  | Cls ranges => exists c, w = [c] /\ test ic (in_class ranges) c = true
  | Cat r1 r2 => exists w1 w2, w = w1 ++ w2 /\ lang ic r1 w1 /\ lang ic r2 w2
  | Alt r1 r2 => lang ic r1 w \/ lang ic r2 w
  | Rep lo hi r' =>
      exists ws, w = concat ws /\ Forall (lang ic r') ws /\ (lo <= length ws)%nat /\
        match hi with Some h => (length ws <= h)%nat | None => True end
  | Grp _ r' => lang ic r' w
  end.

(** [Q name v] holds of every string [v] that a group called [name] of the
    pattern can capture. *)
Fixpoint groups_ok (ic : bool) (Q : string -> str -> Prop) (r : regex) : Prop :=
  match r with
  | Cat r1 r2 | Alt r1 r2 => groups_ok ic Q r1 /\ groups_ok ic Q r2
  | Rep _ _ r' => groups_ok ic Q r'
  | Grp name r' => groups_ok ic Q r' /\ forall v, lang ic r' v -> Q name v
  | _ => True
  end.

(** The new captures of a match that consumed [w]: each satisfies [Q] and is
    a piece of [w]. *)
Definition caps_ok (Q : string -> str -> Prop) (w : str) (cs : captures) : Prop :=
  Forall (fun p => Q p.1 p.2 /\ exists a b, w = a ++ p.2 ++ b) cs.

End ReSem.

(** ** Vocabulary of the properties *)

Module Chars.

Import Re ReSem.

(** ASCII, and the characters on which the case mapping and [isalpha] of
    [Py] are exact: ASCII, the currency glyphs and the four letters that
    ASCII letters match when case is ignored. *)
Definition ascii (c : char) : bool := c <? 128.

Definition exact (c : char) : bool :=
  ascii c || Py.mem c Tools.GLYPHS
  || (c =? 304) || (c =? 305) || (c =? 383) || (c =? 8490).

(** ASCII or a currency glyph. *)
Definition plain (c : char) : bool := ascii c || Py.mem c Tools.GLYPHS.

(** Every range of the class lies in ASCII or is one exact character. *)
Definition exact_ranges (R : list (char * char)) : bool :=
  forallb (fun '(lo, hi) => (hi <? 128) || ((lo =? hi) && exact lo)) R.

(** Every character that the pattern can consume is exact. *)
Fixpoint exact_atoms (r : regex) : bool :=
  match r with
  | Eps => true
  | Lit l => exact l
  | Any | Ws => false
  | Cls R => exact_ranges R
  | Cat r1 r2 | Alt r1 r2 => exact_atoms r1 && exact_atoms r2
  | Rep _ _ r' | Grp _ r' => exact_atoms r'
  end.

(** Every named group of the pattern consumes exact characters only. *)
Fixpoint exact_groups (r : regex) : bool :=
  match r with
  | Cat r1 r2 | Alt r1 r2 => exact_groups r1 && exact_groups r2
  | Rep _ _ r' => exact_groups r'
  | Grp _ r' => exact_atoms r' && exact_groups r'
  | _ => true
  end.

(** Every match of the pattern has a piece matched by a [leaf] atom. *)
Fixpoint must (leaf : regex -> bool) (r : regex) : bool :=
  match r with
  | Eps => false
  | Cat r1 r2 => must leaf r1 || must leaf r2
  | Alt r1 r2 => must leaf r1 && must leaf r2
  | Rep lo _ r' => (0 <? lo)%nat && must leaf r'
  | Grp _ r' => must leaf r'
  | _ => leaf r
  end.

Definition ws_atom (r : regex) : bool :=
  match r with Ws => true | _ => false end.

Definition digit_atom (r : regex) : bool :=
  match r with
  | Cls [(lo, hi)] => (lo =? 48) && (hi =? 57)
  | _ => false
  end.

(** A class below the letters: every range ends before "A". *)
Definition low_class (R : list (char * char)) : bool :=
  forallb (fun '(lo, hi) => hi <? 65) R.

(** A pattern without groups satisfies any property of groups. *)
Fixpoint no_groups (r : regex) : bool :=
  match r with
  | Cat r1 r2 | Alt r1 r2 => no_groups r1 && no_groups r2
  | Rep _ _ r' => no_groups r'
  | Grp _ _ => false
  | _ => true
  end.

(** A character that [.] matches. *)
Definition any_char (c : char) : bool := negb (c =? 10).

End Chars.

Module Canon.

(** A currency code in canonical form: three upper-case ASCII letters. *)
Definition code3 (c : str) : bool :=
  (length c =? 3)%nat && forallb Py.is_upper_ascii c.

Definition opt_is (o : option str) (c : str) : bool :=
  match o with Some d => Py.str_eqb d c | None => false end.

(** A character that [str.lower] can produce. *)
Definition lowered (d : char) : bool :=
  negb (Py.is_upper_ascii d) && negb (d =? 304) && negb (d =? 8490).

(** The lower-case letters of the exact characters: a to z, U+0131, U+017F. *)
Definition lower_letters : list char :=
  List.map N.of_nat (List.seq 97 26) ++ [305; 383].

Definition upper_letters : list char := List.map N.of_nat (List.seq 65 26).

Definition all3 (L : list char) (f : str -> bool) : bool :=
  forallb (fun x => forallb (fun y => forallb (fun z => f [x; y; z]) L) L) L.

(** A code that the function-style normaliser maps to itself. *)
Definition canonical (c : str) : bool := code3 c && opt_is (Tools._norm_code c) c.

Definition opt_eqb (a b : option str) : bool :=
  match a, b with
  | Some x, Some y => Py.str_eqb x y
  | None, None => true
  | _, _ => false
  end.

Definition ascii_lower_letters : list char := List.map N.of_nat (List.seq 97 26).

(** The two English names that only the function-style module knows among
    the three-letter words. *)
Definition name3 (s : str) : bool :=
  Py.str_eqb s (Py.u "yen") || Py.str_eqb s (Py.u "won").

(** Both normalisers on a lower-case three-letter word. *)
Definition agree (s : str) : bool :=
  name3 s
  || opt_eqb (Tools._norm_code s) (Utils.normalize_code (Some s)).

End Canon.

Module CanonU.

Import Canon Utils.

(** [normalize_code] after its test for an empty token. *)
Definition normalize_stripped (token : str) : option str :=
  match Py.dict_get _SYMBOL_TO_CODE token with
  | Some c => Some c
  | None =>
      match Py.dict_get _ALIAS_TO_CODE (Py.lower token) with
      | Some c => Some c
      | None =>
          if (length token =? 3)%nat && Py.isalpha token
          then Some (Py.upper token)
          else None
      end
  end.

(** Upper-case letters and four-letter USDT. *)
Definition code_shape (c : str) : bool :=
  forallb Py.is_upper_ascii c && ((length c =? 3)%nat || Py.str_eqb c (Py.u "USDT")).

(** A code that the class-style normaliser maps to itself. *)
Definition canonical (c : str) : bool :=
  code_shape c && opt_is (normalize_code (Some c)) c.

End CanonU.

Module Route.

Import Tools.

(** The destination that [perform_conversion] works with. *)
Definition effective_dst (src : str) (dst : option str) : str :=
  match dst with
  | Some (c :: d) => c :: d
  | _ => if Py.str_eqb src (Py.u "BTC") then Py.u "USD" else Py.u "THB"
  end.

(** The pairs that [_fetch_rate] routes to a provider. *)
Definition supported (src dst : str) : bool :=
  (Py.str_eqb src (Py.u "BTC") && in_FIAT dst) || (in_FIAT src && in_FIAT dst).

End Route.

Module CacheSpec.

Import World Utils.

(** The key of the crypto cache for a quote currency. *)
Definition crypto_key (vs : str) : str := cg_id ++ [124] ++ Py.lower (Py.upper vs).

(** Cache keys are normalised: a fiat key is an upper-cased code, a crypto
    key is ["bitcoin|"] followed by a lower-cased code. *)
Definition keys_ok (s : state) : Prop :=
  (forall k e, _fiat_cache s !! k = Some e -> Py.upper k = k)
  /\ (forall k e, _crypto_cache s !! k = Some e -> exists vs, k = crypto_key vs).

(** No entry is dropped from [s] to [s']. *)
Definition keeps (s s' : state) : Prop :=
  (forall k, is_Some (_fiat_cache s !! k) -> is_Some (_fiat_cache s' !! k))
  /\ (forall k, is_Some (_crypto_cache s !! k) -> is_Some (_crypto_cache s' !! k)).

(** From [s] to [s'] at most [n] requests were sent, each for a slot that was
    looked up in between; the caches kept their entries and normalised keys. *)
Definition step_ok (n : nat) (s s' : state) : Prop :=
  (exists new, sent s' = new ++ sent s /\ (length new <= n)%nat
     /\ Forall (fun q => exists sl, slot_of_request q = Some sl
                          /\ In sl (slots_since s s')) new)
  /\ (exists l, looked_up s' = l ++ looked_up s)
  /\ keeps s s' /\ (keys_ok s -> keys_ok s').

End CacheSpec.

Module Parts.

Import Re World Tools.

(** The body of [NUM_RE]. *)
Definition NUM_BODY : regex :=
  Cat (plus DIGIT) (opt (Cat (Cls [(46, 46); (44, 44)]) (plus DIGIT))).

(** The continuation that ends a match. *)
Definition final : @cont captures := fun _ cs => Some cs.

Import Utils.

(** The parts of [_RATE_RE]. *)
Definition LETTERS : regex := Cls [(65, 90); (97, 122)].
Definition GLYPH : regex :=
  Cls [(36, 36); (8364, 8364); (163, 163); (165, 165); (3647, 3647)].
Definition RATE_KW : regex :=
  alt [ word "rate"; lit TH_rate; lit TH_price;
        cat [ word "exchange"; star Ws; word "rate" ]; lit TH_how_much ].
Definition RATE_SRC : regex :=
  alt [ word "btc"; word "bitcoin"; Rep 3 (Some 3%nat) LETTERS; GLYPH ].
Definition RATE_DST : regex :=
  cat [ star Ws; alt [ word "to"; lit TH_to; word "in" ]; star Ws; Grp "dst" CODE3 ].
Definition RATE_TAIL : regex := Cat (Grp "src" RATE_SRC) (opt RATE_DST).

(** The continuation of [.*] in [_RATE_RE]. *)
Definition tail_k : @cont captures := fun s cs => run true RATE_TAIL s cs final.

End Parts.

(** * Properties *)

(** ** Floats: multiplying by one *)

Module FloatFacts.

Local Open Scope Z_scope.

Lemma digits2_shift52 (m : positive) :
  Z.pos (digits2_pos (4503599627370496 * m)) = Z.pos (digits2_pos m) + 52.
Proof.
  let t := eval cbv beta iota delta [Pos.mul] in (4503599627370496 * m)%positive in
  change (4503599627370496 * m)%positive with t.
  cbn [digits2_pos]. lia.
Qed.

(** A canonical mantissa shifted left by 52 bits rounds back to itself. *)
Lemma round_exact_shift52 (s : bool) (m : positive) (e : Z) :
  bounded prec emax m e = true ->
  binary_round_aux prec emax s (Z.pos (m * 4503599627370496)) (e + -52) loc_Exact
  = S754_finite s m e.
Proof.
  intros B. unfold bounded, canonical_mantissa in B.
  apply andb_prop in B as [C L]. apply Z.eqb_eq in C.
  rewrite Pos.mul_comm.
  unfold binary_round_aux, shr_fexp.
  unfold Zdigits2 at 1. rewrite digits2_shift52.
  replace (Z.pos (digits2_pos m) + 52 + (e + -52)) with (Z.pos (digits2_pos m) + e) by lia.
  rewrite C.
  replace (e - (e + -52)) with 52 by lia.
  cbn [shr shr_record_of_loc].
  assert (H : SpecFloat.iter_pos shr_1 52
                {| shr_m := Z.pos (4503599627370496 * m); shr_r := false; shr_s := false |}
              = {| shr_m := Z.pos m; shr_r := false; shr_s := false |}) by reflexivity.
  rewrite H. cbn [shr_m loc_of_shr_record round_nearest_even Zdigits2].
  replace (e + -52 + 52) with e by lia.
  rewrite C, Z.sub_diag. cbn [shr shr_record_of_loc shr_m].
  rewrite L. reflexivity.
Qed.

Lemma SFmul_1_r (x : spec_float) :
  valid_binary x = true -> SF64mul x (Prim2SF 1) = x.
Proof.
  intros V. change (Prim2SF 1) with (S754_finite false 4503599627370496 (-52)).
  destruct x as [s | s | | s m e]; cbn [SF64mul SFmul];
    rewrite ?xorb_false_r; try reflexivity.
  apply round_exact_shift52. exact V.
Qed.

Lemma SFmul_1_l (x : spec_float) :
  valid_binary x = true -> SF64mul (Prim2SF 1) x = x.
Proof.
  intros V. change (Prim2SF 1) with (S754_finite false 4503599627370496 (-52)).
  destruct x as [s | s | | s m e]; cbn [SF64mul SFmul xorb]; try reflexivity.
  rewrite Pos.mul_comm, Z.add_comm.
  apply round_exact_shift52. exact V.
Qed.

(** [x * 1.0] is [x] for every float, NaN and the infinities included. *)
Lemma mul_1_r (x : float) : (x * 1)%float = x.
Proof. apply Prim2SF_inj. rewrite mul_spec. apply SFmul_1_r, Prim2SF_valid. Qed.

Lemma mul_1_l (x : float) : (1 * x)%float = x.
Proof. apply Prim2SF_inj. rewrite mul_spec. apply SFmul_1_l, Prim2SF_valid. Qed.

End FloatFacts.

(** ** The matcher *)

Module ReFacts.

Import Re.

Section MinLen.
Context {A : Type}.

Definition bounded_by (n : nat) (step : str -> captures -> @cont A -> option A) : Prop :=
  forall s cs k x, step s cs k = Some x ->
    exists s' cs', k s' cs' = Some x /\ (length s' + n <= length s)%nat.

Lemma one_bounded p : bounded_by 1 (one p).
Proof.
  intros [|c s] cs k x H; cbn in H; [discriminate|].
  destruct (p c); [|discriminate].
  exists s, cs. split; [exact H|cbn; lia].
Qed.

Lemma rep_loop_bounded n step :
  bounded_by n step ->
  forall fuel lo hi s cs k x,
    rep_loop step fuel lo hi s cs k = Some x ->
    exists s' cs', k s' cs' = Some x /\ (length s' + lo * n <= length s)%nat.
Proof.
  intros Hstep fuel. induction fuel as [|fuel IH]; intros lo hi s cs k x H.
  - discriminate.
  - cbn [rep_loop] in H.
    set (kk := fun (s' : str) (cs' : captures) =>
                 if (length s' <? length s)%nat
                 then rep_loop step fuel (Nat.pred lo) (Nat.pred <$> hi) s' cs' k
                 else None) in H.
    assert (Hmore : step s cs kk = Some x ->
              exists s' cs', k s' cs' = Some x /\ (length s' + lo * n <= length s)%nat).
    { intros Hs. apply Hstep in Hs as (s1 & cs1 & Hk & Hlen). unfold kk in Hk.
      destruct (length s1 <? length s)%nat; [|discriminate].
      apply IH in Hk as (s2 & cs2 & Hk2 & Hlen2).
      exists s2, cs2. split; [exact Hk2|].
      destruct lo as [|lo]; cbn [Nat.pred] in Hlen2; nia. }
    assert (Hstop : (if (lo =? 0)%nat then k s cs else None) = Some x ->
              exists s' cs', k s' cs' = Some x /\ (length s' + lo * n <= length s)%nat).
    { destruct (Nat.eqb_spec lo 0) as [->|]; [|discriminate].
      intros Hk. exists s, cs. split; [exact Hk|lia]. }
    destruct hi as [[|hi]|].
    + apply Hstop, H.
    + destruct (step s cs kk) eqn:Hs; [inversion H; subst; auto|auto].
    + destruct (step s cs kk) eqn:Hs; [inversion H; subst; auto|auto].
Qed.

(** A match consumes at least [minlen r] characters. *)
Lemma run_bounded ic r : bounded_by (minlen r) (run ic r).
Proof.
  induction r as [ | l | | | rs | r1 IH1 r2 IH2 | r1 IH1 r2 IH2 | lo hi r IH | name r IH ];
    cbn [run minlen].
  - intros s cs k x H. exists s, cs. split; [exact H|lia].
  - apply one_bounded.
  - apply one_bounded.
  - apply one_bounded.
  - apply one_bounded.
  - intros s cs k x H.
    apply IH1 in H as (s1 & cs1 & H & L1).
    apply IH2 in H as (s2 & cs2 & H & L2).
    exists s2, cs2. split; [exact H|lia].
  - intros s cs k x H.
    destruct (run ic r1 s cs k) eqn:H1.
    + inversion H; subst. apply IH1 in H1 as (s1 & cs1 & H1 & L1).
      exists s1, cs1. split; [exact H1|lia].
    + apply IH2 in H as (s2 & cs2 & H & L2).
      exists s2, cs2. split; [exact H|lia].
  - intros s cs k x H. eapply rep_loop_bounded in H; [exact H|exact IH].
  - intros s cs k x H.
    apply IH in H as (s1 & cs1 & H & L1). eauto.
Qed.

End MinLen.

(** A text shorter than every match of the pattern is not matched. *)
Lemma search_short ic r s :
  (length s < minlen r)%nat -> search ic r s = None.
Proof.
  induction s as [|c s IH]; intros L; cbn [search].
  - destruct (run ic r [] [] (fun _ cs => Some cs)) eqn:H; [|reflexivity].
    apply run_bounded in H as (s' & cs' & _ & L'). cbn in *. lia.
  - destruct (run ic r (c :: s) [] (fun _ cs => Some cs)) eqn:H.
    + apply run_bounded in H as (s' & cs' & _ & L'). cbn in *. lia.
    + apply IH. cbn in L. lia.
Qed.

(** *** What a match says about the text *)

Lemma run_one_inv {A} p s cs (k : @cont A) x :
  one p s cs k = Some x -> exists c s', s = c :: s' /\ p c = true /\ k s' cs = Some x.
Proof.
  destruct s as [|c s']; cbn; [discriminate|].
  destruct (p c) eqn:Hp; [|discriminate]. eauto.
Qed.

Lemma run_lit_inv {A} w s cs (k : @cont A) x :
  run true (lit w) s cs k = Some x ->
  exists v s', s = v ++ s' /\ ci_word w v /\ k s' cs = Some x.
Proof.
  revert s cs k x. induction w as [|l w IH]; intros s cs k x H.
  - exists [], s. split; [reflexivity|]. split; [constructor|exact H].
  - destruct w as [|l' w].
    + cbn [lit run] in H. apply run_one_inv in H as (c & s' & -> & Hc & Hk).
      exists [c], s'. split; [reflexivity|]. split; [|exact Hk].
      repeat constructor. exact Hc.
    + change (lit (l :: l' :: w)) with (Cat (Lit l) (lit (l' :: w))) in H.
      cbn [run] in H. apply run_one_inv in H as (c & s' & -> & Hc & Hk).
      apply IH in Hk as (v & s'' & -> & Hv & Hk).
      exists (c :: v), s''. split; [reflexivity|]. split; [|exact Hk].
      constructor; assumption.
Qed.

Lemma run_plus_ws_inv {A} s cs (k : @cont A) x :
  run true (plus Ws) s cs k = Some x ->
  exists c s', s = c :: s' /\ Py.is_space c = true.
Proof.
  cbn [run plus]. cbn [rep_loop].
  destruct (one Py.is_space s cs _) eqn:H1; [|discriminate].
  intros _. apply run_one_inv in H1 as (c & s' & -> & Hc & _). eauto.
Qed.

Lemma search_inv r s m :
  search true r s = Some m ->
  exists pre suf, s = pre ++ suf /\ run true r suf [] (fun _ cs => Some cs) = Some m.
Proof.
  induction s as [|c s IH]; cbn [search].
  - destruct (run true r [] [] _) eqn:H; [|discriminate].
    intros [= <-]. exists [], []. auto.
  - destruct (run true r (c :: s) [] _) eqn:H.
    + intros [= <-]. exists [], (c :: s). auto.
    + intros Hs. apply IH in Hs as (pre & suf & -> & Hr).
      exists (c :: pre), suf. auto.
Qed.

(** A lower-case letter other than i, s and k is matched, case ignored, only
    by itself and its capital, and both lower to it. *)
Lemma ci_plain_lower l c :
  Py.is_lower_ascii l = true -> l <> 105 -> l <> 115 -> l <> 107 ->
  test true (N.eqb l) c = true -> Py.lower_char c = [l].
Proof.
  intros Hl Hi Hs Hk. unfold test, variants, Py.lower_char.
  unfold Py.is_lower_ascii, Py.is_upper_ascii, Py.in_range in *.
  rewrite andb_true_iff, !N.leb_le in Hl.
  destruct ((65 <=? c) && (c <=? 90)) eqn:Hu.
  - rewrite andb_true_iff, !N.leb_le in Hu.
    cbn [existsb]. rewrite !orb_true_iff, !N.eqb_eq.
    intros [->|[->|H]]; [lia|reflexivity|].
    exfalso. destruct (c =? 73); [|destruct (c =? 83); [|destruct (c =? 75)]];
      cbn [existsb] in H; rewrite ?orb_true_iff, ?N.eqb_eq in H;
      intuition (try discriminate; lia).
  - destruct ((97 <=? c) && (c <=? 122)) eqn:Hlo.
    + rewrite andb_true_iff, !N.leb_le in Hlo.
      cbn [existsb]. rewrite !orb_true_iff, !N.eqb_eq.
      destruct (N.eqb_spec c 304); [lia|]. destruct (N.eqb_spec c 8490); [lia|].
      intros [->|[->|H]]; [reflexivity|lia|].
      exfalso. destruct (c =? 105); [|destruct (c =? 115); [|destruct (c =? 107)]];
        cbn [existsb] in H; rewrite ?orb_true_iff, ?N.eqb_eq in H;
        intuition (try discriminate; lia).
    + destruct (N.eqb_spec c 304) as [->|].
      { cbn. rewrite !orb_true_iff, !N.eqb_eq. intuition lia. }
      destruct (N.eqb_spec c 305) as [->|].
      { cbn. rewrite !orb_true_iff, !N.eqb_eq. intuition lia. }
      cbn [orb].
      destruct (N.eqb_spec c 383) as [->|].
      { cbn. rewrite !orb_true_iff, !N.eqb_eq. intuition lia. }
      destruct (N.eqb_spec c 8490) as [->|].
      { cbn. rewrite !orb_true_iff, !N.eqb_eq. intuition lia. }
      cbn [existsb]. rewrite orb_false_r, N.eqb_eq. intros ->.
      exfalso. apply andb_false_iff in Hlo. rewrite !N.leb_gt in Hlo. lia.
Qed.

Lemma ci_word_lower w v :
  forallb plain_letter w = true -> ci_word w v -> Py.lower v = w.
Proof.
  intros Hw Hv. induction Hv as [|l c w v Hc Hv IH]; [reflexivity|].
  cbn [forallb] in Hw. apply andb_true_iff in Hw as [Hl Hw].
  unfold plain_letter in Hl. rewrite !andb_true_iff, !negb_true_iff, !N.eqb_neq in Hl.
  destruct Hl as (((Hl & ?) & ?) & ?).
  unfold Py.lower in *. cbn [flat_map].
  rewrite (ci_plain_lower l c) by assumption. rewrite IH by assumption. reflexivity.
Qed.

End ReFacts.

(** ** Strings *)

Module PyFacts.

Lemma str_eqb_eq (a b : str) : Py.str_eqb a b = true <-> a = b.
Proof.
  revert b. induction a as [|x a IH]; intros [|y b]; cbn; try (split; congruence).
  rewrite andb_true_iff, N.eqb_eq, IH. split; [intros [-> ->]; reflexivity|].
  intros H; inversion H; auto.
Qed.

Lemma str_eqb_refl (a : str) : Py.str_eqb a a = true.
Proof. apply str_eqb_eq. reflexivity. Qed.

Lemma str_eqb_neq (x y : str) : x <> y -> Py.str_eqb x y = false.
Proof.
  intros H. destruct (Py.str_eqb x y) eqn:Hb; [|reflexivity].
  exfalso. apply H. clear H. revert y Hb.
  induction x as [|a x IH]; intros [|b y]; cbn; try discriminate; [reflexivity|].
  rewrite andb_true_iff, N.eqb_eq. intros [-> Hb]. f_equal. auto.
Qed.

Lemma remove_char_keep c x s :
  negb (x =? c) = true -> Py.remove_char c (x :: s) = x :: Py.remove_char c s.
Proof. intros H. unfold Py.remove_char. cbn [List.filter]. rewrite H. reflexivity. Qed.

Lemma starts_with_app t s : Py.starts_with t (t ++ s) = true.
Proof. induction t as [|x t IH]; cbn; [reflexivity|]. rewrite N.eqb_refl. exact IH. Qed.

Lemma contains_app t a b : Py.contains t (a ++ t ++ b) = true.
Proof.
  induction a as [|x a IH].
  - cbn [app]. destruct (t ++ b) eqn:E; cbn [Py.contains]; rewrite <- E;
      rewrite starts_with_app; reflexivity.
  - cbn [app Py.contains]. rewrite IH. apply orb_true_r.
Qed.

Lemma upper_char_idem c : flat_map Py.upper_char (Py.upper_char c) = Py.upper_char c.
Proof.
  unfold Py.upper_char at 2 3.
  destruct (Py.is_lower_ascii c) eqn:Hl.
  - assert (Hr : 97 <= c <= 122).
    { unfold Py.is_lower_ascii, Py.in_range in Hl.
      rewrite andb_true_iff, !N.leb_le in Hl. exact Hl. }
    assert (Hu : Py.is_lower_ascii (c - 32) = false).
    { unfold Py.is_lower_ascii, Py.in_range.
      apply andb_false_iff. left. apply N.leb_gt. lia. }
    cbn [flat_map]. unfold Py.upper_char. rewrite Hu.
    destruct (N.eqb_spec (c - 32) 305); [lia|].
    destruct (N.eqb_spec (c - 32) 383); [lia|]. reflexivity.
  - destruct (N.eqb_spec c 305) as [->|]; [reflexivity|].
    destruct (N.eqb_spec c 383) as [->|]; [reflexivity|].
    cbn [flat_map]. unfold Py.upper_char. rewrite Hl.
    destruct (N.eqb_spec c 305); [contradiction|].
    destruct (N.eqb_spec c 383); [contradiction|]. reflexivity.
Qed.

(** [s.upper().upper() == s.upper()] *)
Lemma upper_idem s : Py.upper (Py.upper s) = Py.upper s.
Proof.
  unfold Py.upper. induction s as [|c s IH]; [reflexivity|].
  cbn [flat_map]. rewrite flat_map_app, IH, upper_char_idem. reflexivity.
Qed.

Lemma since_app {A} (new old : list A) :
  take (length (new ++ old) - length old) (new ++ old) = new.
Proof.
  rewrite length_app. replace (length new + length old - length old)%nat
    with (length new) by lia.
  apply take_app_length.
Qed.

End PyFacts.

(** ** ASCII letters as symbolic input *)

Module Letters.

Import Re Py.

(** A property of all 52 letters holds of any character that passes
    [is_ascii_letter]. *)
Lemma letters_ind (P : N -> Prop) :
  List.Forall P letters -> forall c, Py.is_ascii_letter c = true -> P c.
Proof.
  intros HF c Hc. rewrite List.Forall_forall in HF. apply HF.
  unfold letters. apply List.filter_In. split; [|exact Hc].
  assert (c < 128).
  { unfold Py.is_ascii_letter, Py.is_upper_ascii, Py.is_lower_ascii, Py.in_range in Hc.
    rewrite orb_true_iff, !andb_true_iff, !N.leb_le in Hc. lia. }
  rewrite <- (N2Nat.id c). apply List.in_map. apply List.in_seq. lia.
Qed.

Ltac by_letters :=
  let c := fresh in
  let H := fresh in
  intros c H; pattern c; revert c H; apply letters_ind;
  let l := eval vm_compute in letters in
  change letters with l;
  repeat constructor.

Lemma lower_char_letter : forall c, Py.is_ascii_letter c = true ->
  Py.lower_char c = [lc c].
Proof. by_letters. Qed.

Lemma upper_char_letter : forall c, Py.is_ascii_letter c = true ->
  Py.upper_char c = [uc c].
Proof. by_letters. Qed.

Lemma upper_char_lc : forall c, Py.is_ascii_letter c = true ->
  Py.upper_char (lc c) = [uc c].
Proof. by_letters. Qed.

Lemma lc_facts : forall c, Py.is_ascii_letter c = true ->
  Py.is_alpha_char (lc c) = true /\ negb (lc c =? 46) = true /\
  Py.mem (lc c) [36; 8364; 3647; 163; 165; 8377; 8361; 8363] = false /\
  Py.is_space (lc c) = false.
Proof. by_letters. Qed.

Lemma letter_not_comma : forall c, Py.is_ascii_letter c = true ->
  negb (c =? 44) = true.
Proof. by_letters. Qed.

Lemma letter_space : forall c, Py.is_ascii_letter c = true -> Py.is_space c = false.
Proof. by_letters. Qed.

Lemma letter_cur : forall c, Py.is_ascii_letter c = true ->
  test true (in_class [ (65, 90); (97, 122); (36, 36); (8364, 8364); (3647, 3647);
                        (163, 163); (165, 165); (8377, 8377); (8361, 8361);
                        (8363, 8363); (32, 32) ]) c = true.
Proof. by_letters. Qed.

Lemma letter_digit : forall c, Py.is_ascii_letter c = true ->
  test true (in_class [(48, 57)]) c = false.
Proof. by_letters. Qed.

Lemma letter_alpha : forall c, Py.is_ascii_letter c = true ->
  test true (in_class [(65, 90); (97, 122)]) c = true.
Proof. by_letters. Qed.

(** Symbolic execution of the matcher on a text whose spine is known and
    whose unknown characters are letters: normalise, find the test that the
    computation is waiting for, settle it (by evaluation on a known character,
    by the lemmas above on a letter, by cases on a literal against a letter),
    and repeat. *)
Ltac head_test t k :=
  lazymatch t with
  | (if ?b then _ else _) => head_test b k
  | (match ?y with Some _ => _ | None => _ end) => head_test y k
  | test _ _ _ => k t
  | Py.is_space _ => k t
  end.

Ltac resolve t :=
  lazymatch t with
  | test ?ic (in_class ?R) ?c =>
      tryif is_var c then
        first [ rewrite (letter_cur c) by assumption
              | rewrite (letter_digit c) by assumption
              | rewrite (letter_alpha c) by assumption ]
      else (let b := eval vm_compute in t in change t with b)
  | test ?ic (N.eqb ?l) ?c =>
      tryif is_var c then destruct t
      else (let b := eval vm_compute in t in change t with b)
  | Py.is_space ?c =>
      tryif is_var c then rewrite (letter_space c) by assumption
      else (let b := eval vm_compute in t in change t with b)
  end.

Ltac norm :=
  cbn [search run one rep_loop Datatypes.length Nat.ltb Nat.leb Nat.eqb Nat.pred
       Nat.sub fmap option_fmap option_map firstn take].

Ltac sym_step :=
  match goal with
  | |- ?L = _ => head_test L resolve
  end; norm.

Ltac sym_exec := norm; repeat sym_step.

End Letters.

(** ** The parser of the function-style module *)

Module ToolsFacts.

Import Re World Tools ReFacts Letters PyFacts Py.

#[local] Arguments test : simpl never.
#[local] Arguments Py.is_space : simpl never.

(** What [cascade] returns was returned by the loop body on the groups of
    some pattern of the list. *)
Lemma cascade_inv ps text r :
  cascade ps text = Some r ->
  exists p m, In p ps /\ search true p text = Some m /\ on_match text m = Some r.
Proof.
  induction ps as [|p ps IH]; cbn [cascade]; [discriminate|].
  destruct (search true p text) as [m|] eqn:Hs.
  - destruct (on_match text m) as [r'|] eqn:Hm.
    + intros H; inversion H; subst. exists p, m. cbn. auto.
    + intros H. apply IH in H as (p' & m' & ? & ? & ?). exists p', m'. cbn. auto.
  - intros H. apply IH in H as (p' & m' & ? & ? & ?). exists p', m'. cbn. auto.
Qed.

(** The loop body: a bitcoin source with no destination group gets USD. *)
Lemma on_match_btc_default text m r :
  on_match text m = Some r ->
  src r = Py.u "BTC" -> group m "dst" = None -> dst r = Some (Py.u "USD").
Proof.
  unfold on_match. intros H Hsrc Hdst. rewrite Hdst in H. cbn [Py.truthy] in H.
  destruct (if Py.truthy (group m "src") then group m "src" ≫= _norm_code else None)
    as [c|] eqn:Hc; [|discriminate].
  destruct c as [|c0 c]; cbn [Py.truthy andb negb] in H; [discriminate|].
  destruct (Py.str_eqb (c0 :: c) (Py.u "BTC")) eqn:Hb; cbn in H; [|discriminate].
  inversion H; subst. reflexivity.
Qed.

(** *** Three-letter words around "to" *)

Section WordPair.
Variables a b c d e f : char.
Hypothesis Ha : Py.is_ascii_letter a = true.
Hypothesis Hb : Py.is_ascii_letter b = true.
Hypothesis Hc : Py.is_ascii_letter c = true.
Hypothesis Hd : Py.is_ascii_letter d = true.
Hypothesis He : Py.is_ascii_letter e = true.
Hypothesis Hf : Py.is_ascii_letter f = true.

(** The text [abc to def]. *)
Let text : str := [a; b; c; 32; 116; 111; 32; d; e; f].

Lemma pair_too_short p :
  (10 < minlen p)%nat -> search true p text = None.
Proof. intros L. apply search_short. exact L. Qed.

Lemma pair_no_amount_pattern :
  search true (nth 1 CONVERT_PATTERNS Eps) text = None.
Proof.
  let p := eval vm_compute in (nth 1 CONVERT_PATTERNS Eps) in
  change (nth 1 CONVERT_PATTERNS Eps) with p.
  unfold text. sym_exec; reflexivity.
Qed.

Lemma pair_no_btc_price :
  search true (nth 4 CONVERT_PATTERNS Eps) text = None.
Proof.
  let p := eval vm_compute in (nth 4 CONVERT_PATTERNS Eps) in
  change (nth 4 CONVERT_PATTERNS Eps) with p.
  unfold text. sym_exec; reflexivity.
Qed.

Lemma pair_generic_match :
  search true (nth 6 CONVERT_PATTERNS Eps) text
  = Some [("dst"%string, [d; e; f]); ("src"%string, [a; b; c])].
Proof.
  let p := eval vm_compute in (nth 6 CONVERT_PATTERNS Eps) in
  change (nth 6 CONVERT_PATTERNS Eps) with p.
  unfold text. sym_exec; reflexivity.
Qed.

Lemma pair_no_amount : _parse_amount text = None.
Proof.
  unfold _parse_amount.
  assert (Hrm : Py.remove_char 44 text = text).
  { unfold text.
    repeat rewrite remove_char_keep
      by first [ apply letter_not_comma; assumption | reflexivity ].
    reflexivity. }
  rewrite Hrm.
  assert (Hs : search true NUM_RE text = None).
  { let p := eval vm_compute in NUM_RE in change NUM_RE with p.
    unfold text. sym_exec; reflexivity. }
  rewrite Hs. reflexivity.
Qed.

End WordPair.

(** A three-letter word that is no alias is taken for an ISO code. *)
Lemma norm_code_guess a b c :
  Py.is_ascii_letter a = true -> Py.is_ascii_letter b = true ->
  Py.is_ascii_letter c = true ->
  Py.dict_get ALIASES (Py.lower [a; b; c]) = None ->
  _norm_code [a; b; c] = Some (Py.upper [a; b; c]).
Proof.
  intros Ha Hb Hc Hal.
  destruct (lc_facts a Ha) as (Aa & Da & Ga & Sa).
  destruct (lc_facts b Hb) as (Ab & Db & Gb & Sb).
  destruct (lc_facts c Hc) as (Ac & Dc & Gc & Sc).
  assert (Hstrip : Py.strip [a; b; c] = [a; b; c]).
  { unfold Py.strip, Py.strip_by. cbn [Py.lstrip_by].
    rewrite (letter_space a Ha). cbn [rev app Py.lstrip_by].
    rewrite (letter_space c Hc). reflexivity. }
  assert (Hlow : Py.lower [a; b; c] = [lc a; lc b; lc c]).
  { unfold Py.lower. cbn [flat_map].
    rewrite (lower_char_letter a Ha), (lower_char_letter b Hb), (lower_char_letter c Hc).
    reflexivity. }
  assert (Hup : Py.upper [lc a; lc b; lc c] = Py.upper [a; b; c]).
  { unfold Py.upper. cbn [flat_map].
    rewrite (upper_char_lc a Ha), (upper_char_lc b Hb), (upper_char_lc c Hc).
    rewrite (upper_char_letter a Ha), (upper_char_letter b Hb), (upper_char_letter c Hc).
    reflexivity. }
  unfold _norm_code. rewrite Hstrip. rewrite Hlow in *.
  assert (Hdot : Py.remove_char 46 [lc a; lc b; lc c] = [lc a; lc b; lc c]).
  { rewrite !remove_char_keep by assumption. reflexivity. }
  rewrite Hdot, Hal.
  assert (Hgl : Py.strip_chars GLYPHS [lc a; lc b; lc c] = [lc a; lc b; lc c]).
  { unfold Py.strip_chars, Py.strip_by, GLYPHS. cbn [Py.lstrip_by].
    rewrite Ga. cbn [rev app Py.lstrip_by]. rewrite Gc. reflexivity. }
  rewrite Hgl, Hal. cbn [length Nat.eqb andb Py.isalpha forallb].
  rewrite Aa, Ab, Ac. cbn [andb]. rewrite Hup. reflexivity.
Qed.

Lemma upper_word a b c :
  Py.is_ascii_letter a = true -> Py.is_ascii_letter b = true ->
  Py.is_ascii_letter c = true ->
  Py.upper [a; b; c] = [uc a; uc b; uc c].
Proof.
  intros Ha Hb Hc. unfold Py.upper. cbn [flat_map].
  rewrite (upper_char_letter a Ha), (upper_char_letter b Hb), (upper_char_letter c Hc).
  reflexivity.
Qed.

(** C10: a text "W1 to W2", where W1 and W2 are words of exactly three ASCII
    letters whose lower-case forms are not in the alias table, parses to the
    intent with amount 1.0, source [W1.upper()] and destination [W2.upper()];
    no earlier pattern of the cascade matches such a text and the generic
    fallback pattern does. *)
Theorem word_pair_is_parsed_as_currency_pair (W1 W2 : str) :
  length W1 = 3%nat -> length W2 = 3%nat ->
  forallb Py.is_ascii_letter W1 = true ->
  forallb Py.is_ascii_letter W2 = true ->
  Py.dict_get ALIASES (Py.lower W1) = None ->
  Py.dict_get ALIASES (Py.lower W2) = None ->
  parse_currency_query (W1 ++ Py.u " to " ++ W2)
  = Some (Intent (Some 1%float) (Py.upper W1) (Some (Py.upper W2))).
Proof.
  intros L1 L2 A1 A2 N1 N2.
  destruct W1 as [|a [|b [|c [|? ?]]]]; try discriminate L1.
  destruct W2 as [|d [|e [|f [|? ?]]]]; try discriminate L2.
  cbn [forallb] in A1, A2.
  rewrite !andb_true_iff in A1, A2.
  destruct A1 as (Ha & Hb & Hc & _), A2 as (Hd & He & Hf & _).
  change ([a; b; c] ++ Py.u " to " ++ [d; e; f])
    with [a; b; c; 32; 116; 111; 32; d; e; f].
  unfold parse_currency_query.
  change CONVERT_PATTERNS with
    [ nth 0 CONVERT_PATTERNS Eps; nth 1 CONVERT_PATTERNS Eps;
      nth 2 CONVERT_PATTERNS Eps; nth 3 CONVERT_PATTERNS Eps;
      nth 4 CONVERT_PATTERNS Eps; nth 5 CONVERT_PATTERNS Eps;
      nth 6 CONVERT_PATTERNS Eps ].
  cbn [cascade].
  rewrite (pair_too_short a b c d e f (nth 0 CONVERT_PATTERNS Eps))
    by (vm_compute; lia).
  rewrite (pair_no_amount_pattern a b c d e f) by assumption.
  rewrite (pair_too_short a b c d e f (nth 2 CONVERT_PATTERNS Eps))
    by (vm_compute; lia).
  rewrite (pair_too_short a b c d e f (nth 3 CONVERT_PATTERNS Eps))
    by (vm_compute; lia).
  rewrite (pair_no_btc_price a b c d e f) by assumption.
  rewrite (pair_too_short a b c d e f (nth 5 CONVERT_PATTERNS Eps))
    by (vm_compute; lia).
  rewrite (pair_generic_match a b c d e f) by assumption.
  unfold on_match.
  rewrite (pair_no_amount a b c d e f) by assumption.
  cbn [group String.eqb Ascii.eqb Bool.eqb Py.truthy mbind option_bind].
  rewrite (norm_code_guess a b c), (norm_code_guess d e f) by assumption.
  rewrite (upper_word a b c), (upper_word d e f) by assumption.
  cbn [Py.truthy negb andb orb]. rewrite andb_false_r. reflexivity.
Qed.

(** The statement at "fly to bkk". *)
Lemma word_pair_witness :
  parse_currency_query (Py.u "fly" ++ Py.u " to " ++ Py.u "bkk")
  = Some (Intent (Some 1%float) (Py.upper (Py.u "fly")) (Some (Py.upper (Py.u "bkk")))).
Proof.
  apply (word_pair_is_parsed_as_currency_pair (Py.u "fly") (Py.u "bkk"));
    reflexivity.
Defined.

(** A word of three letters need not be one of three ASCII letters.  U+0130
    is alphabetic and the letter class of the patterns matches it when case
    is ignored, but its lower-case form is two code points long: the fallback
    pattern captures the word, [_norm_code] finds four characters and makes
    no guess, and no intent is returned. *)
Lemma alphabetic_word_pair_is_not_parsed :
  let W1 := [304; 97; 98] in
  let W2 := Py.u "xyz" in
  length W1 = 3%nat /\ length W2 = 3%nat
  /\ Py.isalpha W1 = true /\ Py.isalpha W2 = true
  /\ Py.dict_get ALIASES (Py.lower W1) = None
  /\ Py.dict_get ALIASES (Py.lower W2) = None
  /\ search true (nth 6 CONVERT_PATTERNS Eps) (W1 ++ Py.u " to " ++ W2)
     = Some [("dst"%string, W2); ("src"%string, W1)]
  /\ Py.lower W1 = [105; 775; 97; 98]
  /\ _norm_code W1 = None
  /\ parse_currency_query (W1 ++ Py.u " to " ++ W2) = None.
Proof. cbv zeta. repeat split; vm_compute; reflexivity. Qed.

(** *** The pre-filter *)

Lemma verb_then_space_run {A} r verb pre suf cs (k : @cont A) x :
  forallb plain_letter verb = true ->
  plain_spaces (pre ++ suf) ->
  run true (Cat (lit verb) (Cat (plus Ws) r)) suf cs k = Some x ->
  contains (verb ++ [32]) (lower (pre ++ suf)) = true.
Proof.
  intros Hv Hp Hr. cbn [run] in Hr.
  apply run_lit_inv in Hr as (v & s' & -> & Hci & Hk).
  apply run_plus_ws_inv in Hk as (c & s'' & -> & Hc).
  assert (c = 32) as ->.
  { apply Hp; [|exact Hc]. rewrite !in_app_iff. right. right. left. reflexivity. }
  unfold lower. rewrite !flat_map_app. cbn [flat_map].
  change (lower_char 32) with [32].
  fold (lower v). rewrite (ci_word_lower verb v Hv Hci).
  rewrite (app_assoc verb [32]).
  apply contains_app.
Qed.

(** A pattern that starts with a verb and white space: a text it matches
    has, lower-cased, the verb followed by a space. *)
Lemma verb_then_space r verb text m :
  forallb plain_letter verb = true ->
  plain_spaces text ->
  search true (Cat (lit verb) (Cat (plus Ws) r)) text = Some m ->
  contains (verb ++ [32]) (lower text) = true.
Proof.
  intros Hv Hp Hs.
  apply search_inv in Hs as (pre & suf & -> & Hr).
  eapply verb_then_space_run; eauto.
Qed.

Lemma verbs_then_space r verb1 verb2 text m :
  forallb plain_letter verb1 = true ->
  forallb plain_letter verb2 = true ->
  plain_spaces text ->
  search true (Cat (Alt (lit verb1) (lit verb2)) (Cat (plus Ws) r)) text = Some m ->
  contains (verb1 ++ [32]) (lower text) = true
  \/ contains (verb2 ++ [32]) (lower text) = true.
Proof.
  intros Hv1 Hv2 Hp Hs.
  apply search_inv in Hs as (pre & suf & -> & Hr).
  set (k := fun (_ : str) (cs : captures) => Some cs) in Hr.
  change (run true (Cat (Alt (lit verb1) (lit verb2)) (Cat (plus Ws) r)) suf [] k)
    with (match run true (Cat (lit verb1) (Cat (plus Ws) r)) suf [] k with
          | Some x => Some x
          | None => run true (Cat (lit verb2) (Cat (plus Ws) r)) suf [] k
          end) in Hr.
  destruct (run true (Cat (lit verb1) (Cat (plus Ws) r)) suf [] k) eqn:H1.
  - left. eapply (verb_then_space_run r verb1 pre suf); eauto.
  - right. eapply (verb_then_space_run r verb2 pre suf); eauto.
Qed.

Lemma trigger_fires t text :
  In t triggers -> contains t (lower text) = true -> should_use_conversion text = true.
Proof.
  intros Hin Hc. unfold should_use_conversion. apply existsb_exists. eauto.
Qed.

(** C6: the pre-filter looks for its trigger substrings only, so it is
    implied by the phrasings that carry one.  For every text whose white
    space is plain spaces and that the first pattern of the cascade
    (convert/exchange AMOUNT SRC to/in DST) or the fourth (exchange rate SRC
    to/in DST) matches, [should_use_conversion] is true. *)
Theorem prefilter_accepts_keyword_phrasings (text : str) :
  plain_spaces text ->
  search true (nth 0 CONVERT_PATTERNS Eps) text <> None
  \/ search true (nth 3 CONVERT_PATTERNS Eps) text <> None ->
  should_use_conversion text = true.
Proof.
  intros Hp [H|H].
  - destruct (search true (nth 0 CONVERT_PATTERNS Eps) text) as [m|] eqn:Hs;
      [clear H|contradiction].
    apply (verbs_then_space
             (cat [ NUM_RE; plus Ws; Grp "src" (plus CUR); plus Ws; TO_IN; plus Ws;
                    Grp "dst" (plus CUR) ])
             (u "convert") (u "exchange") text m) in Hs;
      [|reflexivity|reflexivity|exact Hp].
    destruct Hs as [Hs|Hs].
    + apply (trigger_fires (u "convert ")); [|exact Hs].
      unfold triggers. apply in_or_app. left. cbn. auto.
    + apply (trigger_fires (u "exchange ")); [|exact Hs].
      unfold triggers. apply in_or_app. left. cbn. auto.
  - destruct (search true (nth 3 CONVERT_PATTERNS Eps) text) as [m|] eqn:Hs;
      [clear H|contradiction].
    apply (verb_then_space (cat [ word "rate"; plus Ws; CURR_RE ])
             (u "exchange") text m) in Hs; [|reflexivity|exact Hp].
    apply (trigger_fires (u "exchange ")); [|exact Hs].
    unfold triggers. apply in_or_app. left. cbn. auto.
Qed.

(** The statement at "convert 100 USD to EUR". *)
Lemma prefilter_witness : should_use_conversion (u "convert 100 USD to EUR") = true.
Proof.
  apply (prefilter_accepts_keyword_phrasings (u "convert 100 USD to EUR")).
  - intros c Hin Hs. cbn in Hin.
    repeat (destruct Hin as [<-|Hin]; [first [reflexivity|vm_compute in Hs; discriminate]|]).
    contradiction.
  - left. vm_compute. discriminate.
Defined.

(** The cascade accepts "fly to bkk" through its generic fallback pattern;
    the text carries none of the trigger substrings and the pre-filter
    rejects it. *)
Lemma prefilter_rejects_accepted_text :
  parse_currency_query (u "fly to bkk")
  = Some (Intent (Some 1%float) (u "FLY") (Some (u "BKK")))
  /\ should_use_conversion (u "fly to bkk") = false.
Proof. split; vm_compute; reflexivity. Qed.

(** *** Literal queries *)

(** C5: "convert 100 USD to EUR" parses to amount 100, USD, EUR; "btc price"
    parses to amount 1.0, BTC, USD; "what is the exchange rate for bitcoin"
    parses to amount 1.0, BTC with destination USD (the bitcoin default, not
    a configured fiat default); "hello, how are you?" parses to nothing. *)
Theorem parser_literal_cases :
  parse_currency_query (u "convert 100 USD to EUR")
  = Some (Intent (Some 100%float) (u "USD") (Some (u "EUR")))
  /\ parse_currency_query (u "btc price")
     = Some (Intent (Some 1%float) (u "BTC") (Some (u "USD")))
  /\ parse_currency_query (u "what is the exchange rate for bitcoin")
     = Some (Intent (Some 1%float) (u "BTC") (Some (u "USD")))
  /\ parse_currency_query (u "hello, how are you?") = None.
Proof. repeat split; vm_compute; reflexivity. Qed.

(** The destination of the bitcoin rate query is not the configured default
    target (THB). *)
Lemma bitcoin_rate_query_destination_is_not_default :
  parse_currency_query (u "what is the exchange rate for bitcoin")
  <> Some (Intent (Some 1%float) (u "BTC")
             (Some (Utils.default_target Utils.default_tool))).
Proof. vm_compute. intros H. inversion H. Qed.

(** *** Rates and conversion *)

Lemma fiat_not_btc X : in_FIAT X = true -> Py.str_eqb X (Py.u "BTC") = false.
Proof.
  intros H. destruct (Py.str_eqb X (Py.u "BTC")) eqn:Hb; [|reflexivity].
  apply str_eqb_eq in Hb. subst X. vm_compute in H. discriminate.
Qed.

Lemma fiat_nonempty X : in_FIAT X = true -> exists c r, X = c :: r.
Proof.
  destruct X as [|c r]; [intros H; vm_compute in H; discriminate|eauto].
Qed.

Section Rates.
Variable E : env.
Variable key : str.
Variable log10 : float -> float.

(** Without a key the fiat path raises before anything else happens. *)
Lemma fetch_fiat_rate_no_key src dst s :
  _fetch_fiat_rate E [] src dst s = (inl (RuntimeError MissingApiKey), s).
Proof. reflexivity. Qed.

Lemma fetch_rate_fiat src dst :
  in_FIAT src = true -> in_FIAT dst = true ->
  _fetch_rate E key src dst = _fetch_fiat_rate E key src dst.
Proof.
  intros Hs Hd. unfold _fetch_rate.
  rewrite (fiat_not_btc src Hs), Hs, Hd. reflexivity.
Qed.

(** [perform_conversion] with its binds unfolded, for a given destination. *)
Lemma perform_conversion_eq amount src c d s :
  perform_conversion E key log10 amount src (Some (c :: d)) s =
  match _fetch_rate E key src (c :: d) s with
  | (inl e, s1) => (inl e, s1)
  | (inr (rate, source), s1) =>
      let a := default 1%float amount in
      let s2 := State (S (ticks s1)) (sent s1) (looked_up s1)
                      (_fiat_cache s1) (_crypto_cache s1) in
      match _smart_round log10 (rate * a)%float with
      | inl e => (inl e, s2)
      | inr rounded =>
          (inr (Conversion a src (c :: d) rate rounded source (clock E (ticks s1))), s2)
      end
  end.
Proof.
  unfold perform_conversion, mbind, M_bind, bind.
  destruct (_fetch_rate E key src (c :: d) s) as [[e|[rate source]] s1]; [reflexivity|].
  unfold _now. cbv zeta.
  destruct (_smart_round log10 (rate * default 1%float amount)%float); reflexivity.
Qed.

Lemma perform_no_key_fiat amount src dst s :
  in_FIAT src = true -> in_FIAT dst = true ->
  perform_conversion E [] log10 amount src (Some dst) s
  = (inl (RuntimeError MissingApiKey), s).
Proof.
  intros Hs Hd. destruct (fiat_nonempty dst Hd) as (c & d & ->).
  unfold perform_conversion, mbind, M_bind, bind.
  unfold _fetch_rate. rewrite (fiat_not_btc src Hs), Hs, Hd. reflexivity.
Qed.

End Rates.

Lemma perform_same_fiat E key log10 a X s :
  key <> [] -> in_FIAT X = true ->
  perform_conversion E key log10 (Some a) X (Some X) s =
  (match _smart_round log10 a with
   | inl e => inl e
   | inr rounded =>
       inr (Conversion a X X 1%float rounded (Py.u "EXR (pair, same-currency)")
                       (clock E (ticks s)))
   end,
   State (S (ticks s)) (sent s) (looked_up s) (_fiat_cache s) (_crypto_cache s)).
Proof.
  intros Hk HX. destruct (fiat_nonempty X HX) as (c & d & ->).
  rewrite perform_conversion_eq, fetch_rate_fiat by assumption.
  unfold _fetch_fiat_rate. destruct key as [|k0 k]; [contradiction|].
  rewrite str_eqb_refl. cbn [ret]. cbv zeta.
  change (default 1%float (Some a)) with a.
  rewrite FloatFacts.mul_1_l.
  destruct (_smart_round log10 a); reflexivity.
Qed.

(** A source that is not fiat never reaches the keyed provider. *)
Lemma perform_not_fiat_source E log10 amount src dst s :
  in_FIAT src = false ->
  (perform_conversion E [] log10 amount src dst s).1 <> inl (RuntimeError MissingApiKey).
Proof.
  intros Hs.
  unfold perform_conversion, mbind, M_bind, bind.
  set (dst' := match dst with Some (c :: d) => c :: d | _ => _ end).
  unfold _fetch_rate. rewrite Hs. cbn [andb].
  destruct (Py.str_eqb src (Py.u "BTC") && (Py.truthy (Some dst') && in_FIAT dst')).
  - unfold _fetch_btc_to_fiat, mbind, M_bind, bind, get_simple_price, send.
    destruct (simple_price E (length (sent s)) (Py.u "bitcoin") (Py.lower dst')) as [|data];
      [cbn; congruence|].
    destruct (get2 data (Py.u "bitcoin") (Py.lower dst')); [|cbn; congruence].
    cbn [ret]. unfold _now. cbv zeta.
    destruct (_smart_round log10 _) as [e|] eqn:Hr; cbn [fst raise mret M_ret ret]; [|congruence].
    unfold _smart_round in Hr.
    destruct (PrimFloat.eqb _ 0); [discriminate|].
    destruct (Num.py_floor _) as [e'|] eqn:Hf; [|discriminate].
    inversion Hr; subst. unfold Num.py_floor in Hf.
    destruct (Prim2SF _); inversion Hf; congruence.
  - cbn. congruence.
Qed.

(** A pair that is neither bitcoin-to-fiat nor fiat-to-fiat is rejected
    before anything is sent. *)
Lemma perform_unsupported E key log10 amount src c d s :
  in_FIAT (c :: d) = false ->
  perform_conversion E key log10 amount src (Some (c :: d)) s
  = (inl (RuntimeError (UnsupportedPair src (c :: d))), s).
Proof.
  intros Hd. rewrite perform_conversion_eq. unfold _fetch_rate.
  rewrite Hd, !andb_false_r. reflexivity.
Qed.

(** *** The API key *)

(** C8: the key is read when the module is loaded, which cannot fail.  With
    the key absent, every fiat-to-fiat conversion fails with the missing-key
    error before any request is sent, a same-currency one included (the key
    is tested before the two codes are compared); a conversion whose source
    is not fiat, bitcoin among them, never raises that error. *)
Theorem missing_key_failures (E : env) (log10 : float -> float) :
  (forall environ, exists key,
      load_EXCHANGERATE_API_KEY environ = inr key /\
      (environ (u "EXCHANGERATE_API_KEY") = None -> key = []))
  /\ (forall amount src dst s,
        in_FIAT src = true -> in_FIAT dst = true ->
        perform_conversion E [] log10 amount src (Some dst) s
        = (inl (RuntimeError MissingApiKey), s))
  /\ (forall amount src dst s,
        in_FIAT src = false ->
        (perform_conversion E [] log10 amount src dst s).1
        <> inl (RuntimeError MissingApiKey)).
Proof.
  split; [|split].
  - intros environ. eexists. split; [reflexivity|].
    intros ->. reflexivity.
  - intros. apply perform_no_key_fiat; assumption.
  - intros. apply perform_not_fiat_source; assumption.
Qed.

(** The statement at an empty environment, at USD to EUR and at BTC to USD. *)
Lemma missing_key_witness :
  load_EXCHANGERATE_API_KEY (fun _ => None) = inr []
  /\ perform_conversion Fixtures.provider [] Fixtures.log10_sample (Some 1%float)
       (u "USD") (Some (u "EUR")) initial
     = (inl (RuntimeError MissingApiKey), initial)
  /\ (perform_conversion Fixtures.provider [] Fixtures.log10_sample (Some 1%float)
        (u "BTC") (Some (u "USD")) initial).1
     <> inl (RuntimeError MissingApiKey).
Proof.
  destruct (missing_key_failures Fixtures.provider Fixtures.log10_sample)
    as (H1 & H2 & H3).
  split; [|split].
  - destruct (H1 (fun _ => None)) as (key & Hk & Hn).
    rewrite Hk, (Hn eq_refl). reflexivity.
  - apply H2; reflexivity.
  - apply H3. reflexivity.
Defined.

(** With the key absent, converting USD to USD fails with the missing-key
    error. *)
Lemma same_currency_needs_key :
  perform_conversion Fixtures.provider [] Fixtures.log10_sample (Some 1%float)
    (u "USD") (Some (u "USD")) initial
  = (inl (RuntimeError MissingApiKey), initial).
Proof. reflexivity. Qed.

(** *** Smart rounding *)

Lemma round_half_even_nearest n d :
  (Z.abs (2 * (Num.round_half_even n d * Zpos d - n)) <= Zpos d)%Z.
Proof.
  unfold Num.round_half_even.
  pose proof (Z.div_mod n (Zpos d) ltac:(lia)) as Hn.
  pose proof (Z.mod_pos_bound n (Zpos d) ltac:(lia)) as Hr.
  set (q := (n / Zpos d)%Z) in *. set (r := (n mod Zpos d)%Z) in *.
  cbv zeta.
  destruct (Z.compare_spec (2 * r) (Zpos d)); [destruct (Z.even q)| |]; lia.
Qed.

(** C9: zero is mapped to 0.0.  A non-zero [x] for which
    [floor(log10(|x|))] is the integer [fl] is printed with
    [d = max(2, min(6, 6 - max(-6, min(6, fl))))] decimals, [2 <= d <= 6],
    and read back; the [d] decimals are the exact value of [x] rounded to the
    nearest multiple of [10^-d].  So 0.00012345 becomes 0.000123 and
    1234.5678 becomes 1234.568. *)
Theorem smart_round_decimals (log10 : float -> float) :
  _smart_round log10 0 = inr 0%float
  /\ (forall x fl,
        PrimFloat.eqb x 0 = false ->
        Num.py_floor (log10 (abs x)) = inr fl ->
        let d := Z.max 2 (Z.min 6 (6 - Z.max (-6) (Z.min 6 fl))) in
        (2 <= d <= 6)%Z /\ _smart_round log10 x = inr (Num.float_of_fixed x d))
  /\ (forall x s m e d,
        Prim2SF x = S754_finite s m e ->
        let N := Num.fixed_digits m e d in
        Num.float_of_fixed x d = Num.float_of_ratio s N (Z.to_pos (10 ^ d))
        /\ (Z.abs (2 * (N * 2 ^ Z.max (- e) 0 - Zpos m * 2 ^ Z.max e 0 * 10 ^ d))
             <= 2 ^ Z.max (- e) 0)%Z)
  /\ (Num.py_floor (log10 (abs 0.00012345)) = inr (-4)%Z ->
      _smart_round log10 0.00012345 = inr 0.000123%float)
  /\ (Num.py_floor (log10 (abs 1234.5678)) = inr 3%Z ->
      _smart_round log10 1234.5678 = inr 1234.568%float).
Proof.
  split; [reflexivity|]. split; [|split; [|split]].
  - intros x fl Hx Hfl d. split; [unfold d; lia|].
    unfold _smart_round. rewrite Hx, Hfl. reflexivity.
  - intros x s m e d Hx N. split.
    + unfold Num.float_of_fixed. rewrite Hx. reflexivity.
    + unfold N, Num.fixed_digits.
      pose proof (round_half_even_nearest
                    (Zpos m * 2 ^ Z.max e 0 * 10 ^ d)
                    (Z.to_pos (2 ^ Z.max (- e) 0))) as H.
      rewrite Z2Pos.id in H; [exact H|].
      apply Z.pow_pos_nonneg; lia.
  - intros H. unfold _smart_round.
    change (PrimFloat.eqb 0.00012345 0) with false. cbv iota. rewrite H.
    vm_compute. reflexivity.
  - intros H. unfold _smart_round.
    change (PrimFloat.eqb 1234.5678 0) with false. cbv iota. rewrite H.
    vm_compute. reflexivity.
Qed.

(** The statement with the sample logarithm, at both sample arguments:
    0.00012345 is printed with 6 decimals, and 1234.5678, which is
    [5429686605511341 * 2^-42], with 3. *)
Lemma smart_round_witness :
  _smart_round Fixtures.log10_sample 1234.5678 = inr 1234.568%float
  /\ _smart_round Fixtures.log10_sample 0.00012345 = inr 0.000123%float
  /\ _smart_round Fixtures.log10_sample 0.00012345
     = inr (Num.float_of_fixed 0.00012345 6)
  /\ Num.float_of_fixed 1234.5678 3
     = Num.float_of_ratio false (Num.fixed_digits 5429686605511341 (-42) 3) 1000.
Proof.
  destruct (smart_round_decimals Fixtures.log10_sample) as (_ & H2 & H3 & H4 & H5).
  split; [|split; [|split]].
  - apply H5. vm_compute. reflexivity.
  - apply H4. vm_compute. reflexivity.
  - apply (H2 0.00012345%float (-4)%Z); vm_compute; reflexivity.
  - apply (H3 1234.5678%float false 5429686605511341%positive (-42)%Z 3%Z).
    vm_compute. reflexivity.
Defined.

(** An infinite or NaN argument is not rounded: [math.floor] raises on the
    logarithm, which is then infinite or NaN as well. *)
Lemma smart_round_not_finite (log10 : float -> float) (x : float) :
  PrimFloat.eqb x 0 = false ->
  (exists s, Prim2SF (log10 (abs x)) = S754_infinity s)
  \/ Prim2SF (log10 (abs x)) = S754_nan ->
  exists e, _smart_round log10 x = inl e.
Proof.
  intros Hx H. unfold _smart_round, Num.py_floor. rewrite Hx.
  destruct H as [[s H]|H]; rewrite H; eauto.
Qed.

End ToolsFacts.

(** ** The caches of [CurrencyTool] *)

Module UtilsFacts.

Import World Utils PyFacts.

Local Abbreviation USD := (Py.u "USD").

Section Caches.
Variable E : env.
Variable self : CurrencyTool.

Local Abbreviation slot_fresh := (Utils.slot_fresh E self).

Tactic Notation "fields" "in" hyp(H) :=
  cbn [ticks sent looked_up _fiat_cache _crypto_cache provider_failure] in H.

Ltac done_with H :=
  inversion H; subst;
  cbn [ticks sent looked_up _fiat_cache _crypto_cache provider_failure].

Ltac run_m :=
  unfold mbind, M_bind, mret, M_ret, bind, ret, raise, fiat_cache_get,
    fiat_cache_set, crypto_cache_get, crypto_cache_set, _now, get_fiat_latest,
    get_simple_price, send in *;
  cbn [fst snd ticks sent looked_up _fiat_cache _crypto_cache] in *.

Lemma refetch_fiat_spec ub s r s' :
  refetch_fiat E ub s = (r, s') ->
  looked_up s' = looked_up s /\
  _crypto_cache s' = _crypto_cache s /\
  sent s' = GetFiatLatest ub :: sent s /\
  ((provider_failure r = true /\ _fiat_cache s' = _fiat_cache s)
   \/ (exists R body, r = inr R /\ ticks s' = S (ticks s) /\
         fiat_latest E (length (sent s)) ub = Json body /\ fb_rates body = Some R /\
         _fiat_cache s' = <[ub := FiatEntry (clock E (ticks s)) R]> (_fiat_cache s))).
Proof.
  unfold refetch_fiat. run_m.
  destruct (fiat_latest E (length (sent s)) ub) as [|body] eqn:Hr.
  - intros H; done_with H. auto 10.
  - destruct (negb (default true (fb_success body))
              && negb (bool_decide (is_Some (fb_rates body)))).
    + intros H; done_with H. auto 10.
    + destruct (fb_rates body) as [R|] eqn:HR.
      * intros H; done_with H. repeat split; try reflexivity.
        right. exists R, body. auto 10.
      * intros H; done_with H. auto 10.
Qed.

Lemma fetch_fiat_spec base s r s' :
  _fetch_fiat_rates E self base s = (r, s') ->
  let ub := Py.upper base in
  looked_up s' = FiatSlot ub :: looked_up s /\
  _crypto_cache s' = _crypto_cache s /\
  ((exists c, _fiat_cache s !! ub = Some c /\
              fresh self (clock E (ticks s)) (fe_t c) = true /\
              r = inr (fe_rates c) /\ ticks s' = S (ticks s) /\
              sent s' = sent s /\ _fiat_cache s' = _fiat_cache s)
   \/ (slot_fresh s (FiatSlot ub) (ticks s) = false /\
       sent s' = GetFiatLatest ub :: sent s /\
       ((provider_failure r = true /\ _fiat_cache s' = _fiat_cache s)
        \/ (exists R n body, r = inr R /\ ticks s' = S n /\
              fiat_latest E (length (sent s)) ub = Json body /\
              fb_rates body = Some R /\
              _fiat_cache s' = <[ub := FiatEntry (clock E n) R]> (_fiat_cache s))))).
Proof.
  intros H ub. unfold _fetch_fiat_rates in H. fold ub in H.
  unfold mbind, M_bind, bind, fiat_cache_get, _now in H. cbn [fst snd] in H.
  unfold slot_fresh.
  destruct (_fiat_cache s !! ub) as [c|] eqn:Hc.
  - cbn [ticks sent looked_up _fiat_cache _crypto_cache] in H.
    destruct (fresh self (clock E (ticks s)) (fe_t c)) eqn:Hf.
    + done_with H. repeat split; try reflexivity.
      left. exists c. auto 10.
    + apply refetch_fiat_spec in H. fields in H.
      destruct H as (H1 & H2 & H3 & H4). repeat split; auto.
      right. repeat split; auto.
      destruct H4 as [H4|(R & body & ? & ? & ? & ? & ?)]; [left; exact H4|].
      right. exists R, (S (ticks s)), body. auto 10.
  - apply refetch_fiat_spec in H. fields in H.
    destruct H as (H1 & H2 & H3 & H4). repeat split; auto.
    right. repeat split; auto.
    destruct H4 as [H4|(R & body & ? & ? & ? & ? & ?)]; [left; exact H4|].
    right. exists R, (ticks s), body. auto 10.
Qed.

Lemma refetch_btc_spec cg_vs key s r s' :
  refetch_btc E cg_vs key s = (r, s') ->
  looked_up s' = looked_up s /\
  _fiat_cache s' = _fiat_cache s /\
  sent s' = GetSimplePrice cg_id cg_vs :: sent s /\
  ((provider_failure r = true /\ _crypto_cache s' = _crypto_cache s)
   \/ (exists price data, r = inr price /\ ticks s' = S (ticks s) /\
         simple_price E (length (sent s)) cg_id cg_vs = Json data /\
         get2 data cg_id cg_vs = Some price /\
         _crypto_cache s' = <[key := CryptoEntry (clock E (ticks s)) price]> (_crypto_cache s))).
Proof.
  unfold refetch_btc. run_m.
  destruct (simple_price E (length (sent s)) cg_id cg_vs) as [|data] eqn:Hd.
  - intros H; done_with H. auto 10.
  - destruct (get2 data cg_id cg_vs) as [price|] eqn:Hp.
    + intros H; done_with H. repeat split; try reflexivity.
      right. exists price, data. auto 10.
    + intros H; done_with H. auto 10.
Qed.

Lemma btc_rate_spec vs s r s' :
  get_btc_rate E self vs s = (r, s') ->
  let cg_vs := Py.lower (Py.upper vs) in
  let key := cg_id ++ [124] ++ cg_vs in
  looked_up s' = CryptoSlot key :: looked_up s /\
  _fiat_cache s' = _fiat_cache s /\
  ((exists c, _crypto_cache s !! key = Some c /\
              fresh self (clock E (ticks s)) (ce_t c) = true /\
              r = inr (ce_price c) /\ ticks s' = S (ticks s) /\
              sent s' = sent s /\ _crypto_cache s' = _crypto_cache s)
   \/ (slot_fresh s (CryptoSlot key) (ticks s) = false /\
       sent s' = GetSimplePrice cg_id cg_vs :: sent s /\
       ((provider_failure r = true /\ _crypto_cache s' = _crypto_cache s)
        \/ (exists price n data, r = inr price /\ ticks s' = S n /\
              simple_price E (length (sent s)) cg_id cg_vs = Json data /\
              get2 data cg_id cg_vs = Some price /\
              _crypto_cache s' = <[key := CryptoEntry (clock E n) price]> (_crypto_cache s))))).
Proof.
  intros H cg_vs key. unfold get_btc_rate in H. fold cg_vs in H. fold key in H.
  unfold mbind, M_bind, bind, crypto_cache_get, _now in H. cbn [fst snd] in H.
  unfold slot_fresh.
  destruct (_crypto_cache s !! key) as [c|] eqn:Hc.
  - cbn [ticks sent looked_up _fiat_cache _crypto_cache] in H.
    destruct (fresh self (clock E (ticks s)) (ce_t c)) eqn:Hf.
    + done_with H. repeat split; try reflexivity.
      left. exists c. auto 10.
    + apply refetch_btc_spec in H. fields in H.
      destruct H as (H1 & H2 & H3 & H4). repeat split; auto.
      right. repeat split; auto.
      destruct H4 as [H4|(price & data & ? & ? & ? & ? & ?)]; [left; exact H4|].
      right. exists price, (S (ticks s)), data. auto 10.
  - apply refetch_btc_spec in H. fields in H.
    destruct H as (H1 & H2 & H3 & H4). repeat split; auto.
    right. repeat split; auto.
    destruct H4 as [H4|(price & data & ? & ? & ? & ? & ?)]; [left; exact H4|].
    right. exists price, (ticks s), data. auto 10.
Qed.

(** [get_fiat_rate] with its binds unfolded. *)
Lemma get_fiat_rate_eq base target s :
  get_fiat_rate E self base target s =
  let ub := Py.upper base in
  let ut := Py.upper target in
  if Py.str_eqb ub ut then (inr 1%float, s)
  else
    match _fetch_fiat_rates E self ub s with
    | (inl e, s1) => (inl e, s1)
    | (inr rates, s1) =>
        match rates !! ut with
        | Some r => (inr r, s1)
        | None =>
            match rates !! USD with
            | Some usd_rate =>
                match _fetch_fiat_rates E self USD s1 with
                | (inl e, s2) => (inl e, s2)
                | (inr rates_usd, s2) =>
                    match rates_usd !! ut with
                    | None => (inl (ValueError (UnsupportedTarget ut)), s2)
                    | Some r => (inr (usd_rate * r)%float, s2)
                    end
                end
            | None => (inl (ValueError (UnsupportedTarget ut)), s1)
            end
        end
    end.
Proof.
  unfold get_fiat_rate. cbv zeta.
  destruct (Py.str_eqb (Py.upper base) (Py.upper target)); [reflexivity|].
  unfold mbind, M_bind, bind at 1.
  destruct (_fetch_fiat_rates E self (Py.upper base) s) as [[e|rates] s1]; [reflexivity|].
  destruct (rates !! Py.upper target); [reflexivity|].
  destruct (rates !! USD); [|reflexivity].
  unfold bind.
  destruct (_fetch_fiat_rates E self (Py.u "USD") s1) as [[e|ru] s2]; [reflexivity|].
  destruct (ru !! Py.upper target); reflexivity.
Qed.

Lemma upper_USD : Py.upper USD = USD.
Proof. reflexivity. Qed.

(** A slot that passes the TTL test is served from the cache. *)
Lemma fetch_fiat_fresh base s r s' :
  _fetch_fiat_rates E self base s = (r, s') ->
  slot_fresh s (FiatSlot (Py.upper base)) (ticks s) = true ->
  exists c, _fiat_cache s !! Py.upper base = Some c /\ r = inr (fe_rates c) /\
    ticks s' = S (ticks s) /\ sent s' = sent s /\ _fiat_cache s' = _fiat_cache s.
Proof.
  intros H Hf. apply fetch_fiat_spec in H as (_ & _ & [H|H]).
  - destruct H as (c & ? & ? & ? & ? & ? & ?). exists c. auto.
  - destruct H as (Hs & _). congruence.
Qed.

(** The second of two calls: with the base slot fresh, and the USD slot fresh
    whenever the cached table sends the call through USD, nothing is sent. *)
Lemma get_fiat_rate_cached base target s r s' :
  get_fiat_rate E self base target s = (r, s') ->
  slot_fresh s (FiatSlot (Py.upper base)) (ticks s) = true ->
  (forall c, _fiat_cache s !! Py.upper base = Some c ->
     fe_rates c !! Py.upper target = None -> fe_rates c !! USD <> None ->
     slot_fresh s (FiatSlot USD) (S (ticks s)) = true) ->
  sent s' = sent s.
Proof.
  rewrite get_fiat_rate_eq. cbv zeta. intros H Hb Hu.
  destruct (Py.str_eqb (Py.upper base) (Py.upper target)); [congruence|].
  destruct (_fetch_fiat_rates E self (Py.upper base) s) as [ra sa] eqn:F1.
  apply fetch_fiat_fresh in F1; [|rewrite upper_idem; exact Hb].
  rewrite upper_idem in F1. destruct F1 as (c & Hc & -> & Ht & Hs & Hca).
  destruct (fe_rates c !! Py.upper target) eqn:Ht1; [congruence|].
  destruct (fe_rates c !! USD) eqn:Hu1; [|congruence].
  destruct (_fetch_fiat_rates E self USD sa) as [rb sb] eqn:F2.
  apply fetch_fiat_fresh in F2.
  - destruct F2 as (c2 & _ & -> & _ & Hs2 & _).
    destruct (fe_rates c2 !! Py.upper target); inversion H; subst; congruence.
  - rewrite upper_USD. unfold slot_fresh in *. rewrite Hca, Ht.
    apply (Hu c Hc Ht1). congruence.
Qed.

(** A call that returns a table leaves that table in the slot. *)
Lemma fetch_fiat_stores base s R s' :
  _fetch_fiat_rates E self base s = (inr R, s') ->
  exists c, _fiat_cache s' !! Py.upper base = Some c /\ fe_rates c = R.
Proof.
  intros H. apply fetch_fiat_spec in H as (_ & _ & [H|H]).
  - destruct H as (c & Hc & _ & Hr & _ & _ & Hca). exists c.
    split; [congruence|]. congruence.
  - destruct H as (_ & _ & [[Hp _]|H]); [discriminate Hp|].
    destruct H as (R' & n & body & Hr & _ & _ & _ & Hca).
    exists (FiatEntry (clock E n) R'). rewrite Hca, lookup_insert_eq.
    split; [reflexivity|]. cbn. congruence.
Qed.

(** A call that raises did so because the provider failed. *)
Lemma fetch_fiat_raises base s e s' :
  _fetch_fiat_rates E self base s = (inl e, s') ->
  provider_failure (@inl exn (gmap (list N) float) e) = true.
Proof.
  intros H. apply fetch_fiat_spec in H as (_ & _ & [H|H]).
  - destruct H as (c & _ & _ & Hr & _). discriminate Hr.
  - destruct H as (_ & _ & [[Hp _]|H]); [exact Hp|].
    destruct H as (R' & n & body & Hr & _). discriminate Hr.
Qed.

(** The first of two calls: which slots it read. *)
Lemma get_fiat_rate_trace base target s0 r1 s1 :
  get_fiat_rate E self base target s0 = (r1, s1) ->
  Py.str_eqb (Py.upper base) (Py.upper target) = false ->
  provider_failure r1 = false ->
  exists new, looked_up s1 = new ++ looked_up s0 /\
    In (FiatSlot (Py.upper base)) new /\
    (forall c, _fiat_cache s1 !! Py.upper base = Some c ->
       fe_rates c !! Py.upper target = None -> fe_rates c !! USD <> None ->
       In (FiatSlot USD) new).
Proof.
  rewrite get_fiat_rate_eq. cbv zeta. intros H Hne Hp. rewrite Hne in H.
  destruct (_fetch_fiat_rates E self (Py.upper base) s0) as [[e|R1] sa] eqn:F1.
  { inversion H; subst. apply fetch_fiat_raises in F1.
    destruct e; cbn in F1, Hp; congruence. }
  pose proof (fetch_fiat_stores _ _ _ _ F1) as (c1 & Hc1 & HR1).
  apply fetch_fiat_spec in F1 as (Hl1 & _ & _). cbv zeta in Hl1.
  rewrite upper_idem in Hl1, Hc1.
  destruct (R1 !! Py.upper target) eqn:Ht.
  { inversion H; subst. exists [FiatSlot (Py.upper base)].
    split; [exact Hl1|]. split; [left; reflexivity|].
    intros c Hc Hn _. congruence. }
  destruct (R1 !! USD) eqn:Hu.
  2:{ inversion H; subst. exists [FiatSlot (Py.upper base)].
      split; [exact Hl1|]. split; [left; reflexivity|].
      intros c Hc _ Hn. congruence. }
  destruct (_fetch_fiat_rates E self USD sa) as [[e|RU] sb] eqn:F2.
  { inversion H; subst. apply fetch_fiat_raises in F2.
    destruct e; cbn in F2, Hp; congruence. }
  apply fetch_fiat_spec in F2 as (Hl2 & _ & _). cbv zeta in Hl2.
  rewrite upper_USD in Hl2.
  exists [FiatSlot USD; FiatSlot (Py.upper base)].
  assert (s1 = sb) as -> by (destruct (RU !! Py.upper target); inversion H; reflexivity).
  split; [rewrite Hl2, Hl1; reflexivity|].
  split; [right; left; reflexivity|].
  intros; left; reflexivity.
Qed.

(** Two calls of [get_fiat_rate] with the same arguments. *)
Lemma get_fiat_rate_twice base target s0 r1 s1 r2 s2 :
  get_fiat_rate E self base target s0 = (r1, s1) ->
  provider_failure r1 = false ->
  (forall sl n, In sl (slots_since s0 s1) ->
     (ticks s1 <= n < ticks s1 + 2)%nat -> slot_fresh s1 sl n = true) ->
  get_fiat_rate E self base target s1 = (r2, s2) ->
  sent s2 = sent s1.
Proof.
  intros H1 Hp Hf H2.
  destruct (Py.str_eqb (Py.upper base) (Py.upper target)) eqn:Hne.
  { rewrite get_fiat_rate_eq in H2. cbv zeta in H2. rewrite Hne in H2.
    congruence. }
  destruct (get_fiat_rate_trace _ _ _ _ _ H1 Hne Hp) as (new & Hl & Hb & Hu).
  assert (Hs : slots_since s0 s1 = new).
  { unfold slots_since. rewrite Hl. apply since_app. }
  rewrite Hs in Hf.
  eapply get_fiat_rate_cached; [exact H2| |].
  - apply Hf; [exact Hb|lia].
  - intros c Hc Ht Hn. apply Hf; [eapply Hu; eauto|lia].
Qed.

(** Two calls of [get_btc_rate] with the same argument. *)
Lemma get_btc_rate_twice vs s0 r1 s1 r2 s2 :
  get_btc_rate E self vs s0 = (r1, s1) ->
  (forall sl n, In sl (slots_since s0 s1) ->
     (ticks s1 <= n < ticks s1 + 2)%nat -> slot_fresh s1 sl n = true) ->
  get_btc_rate E self vs s1 = (r2, s2) ->
  sent s2 = sent s1.
Proof.
  intros H1 Hf H2.
  apply btc_rate_spec in H1 as (Hl & _ & _). cbv zeta in Hl.
  assert (Hs : slots_since s0 s1 = [CryptoSlot (cg_id ++ [124] ++ Py.lower (Py.upper vs))]).
  { unfold slots_since. rewrite Hl. apply (since_app [_]). }
  rewrite Hs in Hf.
  apply btc_rate_spec in H2 as (_ & _ & [H|H]).
  - destruct H as (c & _ & _ & _ & _ & Hsent & _). exact Hsent.
  - destruct H as (Hst & _). cbv zeta in Hst.
    rewrite Hf in Hst; [discriminate|left; reflexivity|lia].
Qed.

(** [convert] with its binds unfolded. *)
Lemma convert_eq amount fc tc s :
  convert E self amount fc tc s =
  match normalize_code (Some fc) with
  | None => (inl (ValueError (UnknownSource fc)), s)
  | Some f =>
      match normalize_code (Some tc) with
      | None => (inl (ValueError (UnknownTarget tc)), s)
      | Some t =>
          let f_btc := Py.str_eqb f (Py.u "BTC") in
          let t_btc := Py.str_eqb t (Py.u "BTC") in
          if f_btc && negb t_btc then
            match get_btc_rate E self t s with
            | (inl e, s1) => (inl e, s1)
            | (inr rate, s1) => (inr ((amount * rate)%float, rate, Py.u "CoinGecko"), s1)
            end
          else if t_btc && negb f_btc then
            match get_btc_rate E self f s with
            | (inl e, s1) => (inl e, s1)
            | (inr price, s1) =>
                match py_div 1 price with
                | inl e => (inl e, s1)
                | inr rate => (inr ((amount * rate)%float, rate, Py.u "CoinGecko"), s1)
                end
            end
          else if f_btc && t_btc then (inr (amount, 1%float, Py.u "CoinGecko"), s)
          else
            match get_fiat_rate E self f t s with
            | (inl e, s1) => (inl e, s1)
            | (inr rate, s1) =>
                (inr ((amount * rate)%float, rate, Py.u "exchangerate.host"), s1)
            end
      end
  end.
Proof.
  unfold convert.
  destruct (normalize_code (Some fc)) as [f|]; [|reflexivity].
  destruct (normalize_code (Some tc)) as [t|]; [|reflexivity].
  cbv zeta.
  destruct (Py.str_eqb f (Py.u "BTC")), (Py.str_eqb t (Py.u "BTC"));
    cbn [andb negb]; unfold mbind, M_bind, bind; try reflexivity.
  all: try (destruct (get_fiat_rate E self f t s) as [[e|rate] s1]; reflexivity).
  all: try (destruct (get_btc_rate E self t s) as [[e|rate] s1]; reflexivity).
  destruct (get_btc_rate E self f s) as [[e|price] s1]; [reflexivity|].
  destruct (py_div 1 price); reflexivity.
Qed.

(** Within the TTL, the second of two identical [convert] calls is served
    from the caches. *)
Lemma convert_twice amount fc tc s0 r1 s1 r2 s2 :
  convert E self amount fc tc s0 = (r1, s1) ->
  provider_failure r1 = false ->
  (forall sl n, In sl (slots_since s0 s1) ->
     (ticks s1 <= n < ticks s1 + 2)%nat -> slot_fresh s1 sl n = true) ->
  convert E self amount fc tc s1 = (r2, s2) ->
  sent s2 = sent s1.
Proof.
  rewrite !convert_eq. intros H1 Hp Hf H2.
  destruct (normalize_code (Some fc)) as [f|]; [|congruence].
  destruct (normalize_code (Some tc)) as [t|]; [|congruence].
  cbv zeta in H1, H2.
  destruct (Py.str_eqb f (Py.u "BTC") && negb (Py.str_eqb t (Py.u "BTC"))).
  { destruct (get_btc_rate E self t s0) as [ra sa] eqn:G1.
    assert (sa = s1) as -> by (destruct ra; inversion H1; reflexivity).
    destruct (get_btc_rate E self t s1) as [rb sb] eqn:G2.
    assert (sb = s2) as -> by (destruct rb; inversion H2; reflexivity).
    eapply get_btc_rate_twice; eauto. }
  destruct (Py.str_eqb t (Py.u "BTC") && negb (Py.str_eqb f (Py.u "BTC"))).
  { destruct (get_btc_rate E self f s0) as [ra sa] eqn:G1.
    assert (sa = s1) as ->
      by (destruct ra as [|p]; [|destruct (py_div 1 p)]; inversion H1; reflexivity).
    destruct (get_btc_rate E self f s1) as [rb sb] eqn:G2.
    assert (sb = s2) as ->
      by (destruct rb as [|p]; [|destruct (py_div 1 p)]; inversion H2; reflexivity).
    eapply get_btc_rate_twice; eauto. }
  destruct (Py.str_eqb f (Py.u "BTC") && Py.str_eqb t (Py.u "BTC")); [congruence|].
  destruct (get_fiat_rate E self f t s0) as [ra sa] eqn:G1.
  assert (sa = s1) as -> by (destruct ra; inversion H1; reflexivity).
  assert (Hpa : provider_failure ra = false).
  { destruct ra as [e|]; inversion H1; subst; [|reflexivity].
    destruct e; cbn in *; congruence. }
  destruct (get_fiat_rate E self f t s1) as [rb sb] eqn:G2.
  assert (sb = s2) as -> by (destruct rb; inversion H2; reflexivity).
  eapply get_fiat_rate_twice; eauto.
Qed.

(** *** One request per slot *)

Section OnePerSlot.
(** Two consecutive clock readings are less than the TTL apart. *)
Hypothesis quick : forall n, fresh self (clock E (S n)) (clock E n) = true.

Lemma get_fiat_rate_sends base target s0 r1 s1 :
  get_fiat_rate E self base target s0 = (r1, s1) ->
  exists new, sent s1 = new ++ sent s0 /\ NoDup (map slot_of_request new).
Proof.
  rewrite get_fiat_rate_eq. cbv zeta. intros H.
  destruct (Py.str_eqb (Py.upper base) (Py.upper target)).
  { inversion H; subst. exists []. split; [reflexivity|constructor]. }
  destruct (_fetch_fiat_rates E self (Py.upper base) s0) as [ra sa] eqn:F1.
  apply fetch_fiat_spec in F1 as (_ & _ & F1). cbv zeta in F1.
  rewrite upper_idem in F1.
  assert (Hone : forall (x : request), NoDup (map slot_of_request [x])).
  { intros x. cbn [map]. apply NoDup_singleton. }
  destruct ra as [e|R1].
  { inversion H; subst.
    destruct F1 as [(c & _ & _ & ? & _)|(_ & Hs & _)]; [discriminate|].
    exists [GetFiatLatest (Py.upper base)]. split; [exact Hs|apply Hone]. }
  assert (Hend : forall s', sent s' = sent sa ->
    exists new, sent s' = new ++ sent s0 /\ NoDup (map slot_of_request new)).
  { intros s' ->. destruct F1 as [(c & _ & _ & _ & _ & Hs & _)|(_ & Hs & _)].
    - exists []. split; [exact Hs|constructor].
    - exists [GetFiatLatest (Py.upper base)]. split; [exact Hs|apply Hone]. }
  destruct (R1 !! Py.upper target); [apply Hend; congruence|].
  destruct (R1 !! USD); [|apply Hend; congruence].
  destruct (_fetch_fiat_rates E self USD sa) as [rb sb] eqn:F2.
  assert (sb = s1) as ->.
  { destruct rb as [|RU]; [|destruct (RU !! Py.upper target)]; inversion H; reflexivity. }
  apply fetch_fiat_spec in F2 as (_ & _ & F2). cbv zeta in F2.
  rewrite upper_USD in F2.
  destruct F2 as [(c & _ & _ & _ & _ & Hs2 & _)|(Hst & Hs2 & _)].
  { apply Hend. exact Hs2. }
  destruct F1 as [(c & _ & _ & _ & _ & Hs & _)|(_ & Hs & F1)].
  { exists [GetFiatLatest USD]. rewrite Hs2, Hs. split; [reflexivity|apply Hone]. }
  exists [GetFiatLatest USD; GetFiatLatest (Py.upper base)].
  rewrite Hs2, Hs. split; [reflexivity|].
  cbn [map slot_of_request]. apply NoDup_cons. split; [|apply NoDup_singleton].
  rewrite list_elem_of_singleton. intros Heq.
  assert (Hub : USD = Py.upper base) by congruence.
  destruct F1 as [[Hp _]|(R & n & body & _ & Ht & _ & _ & Hca)]; [discriminate|].
  unfold slot_fresh in Hst. rewrite <- Hub in Hca.
  rewrite Hca, lookup_insert_eq, Ht in Hst.
  cbn [fe_t] in Hst. rewrite quick in Hst. discriminate.
Qed.

Lemma get_btc_rate_sends vs s0 r1 s1 :
  get_btc_rate E self vs s0 = (r1, s1) ->
  exists new, sent s1 = new ++ sent s0 /\ NoDup (map slot_of_request new).
Proof.
  intros H. apply btc_rate_spec in H as (_ & _ & H). cbv zeta in H.
  destruct H as [(c & _ & _ & _ & _ & Hs & _)|(_ & Hs & _)].
  - exists []. split; [exact Hs|constructor].
  - eexists [_]. split; [exact Hs|]. cbn [map]. apply NoDup_singleton.
Qed.

Lemma convert_sends amount fc tc s0 r1 s1 :
  convert E self amount fc tc s0 = (r1, s1) ->
  exists new, sent s1 = new ++ sent s0 /\ NoDup (map slot_of_request new).
Proof.
  rewrite convert_eq. intros H1.
  assert (Hnil : s0 = s1 ->
    exists new, sent s1 = new ++ sent s0 /\ NoDup (map slot_of_request new)).
  { intros <-. exists []. split; [reflexivity|constructor]. }
  destruct (normalize_code (Some fc)) as [f|]; [|apply Hnil; congruence].
  destruct (normalize_code (Some tc)) as [t|]; [|apply Hnil; congruence].
  cbv zeta in H1.
  destruct (Py.str_eqb f (Py.u "BTC") && negb (Py.str_eqb t (Py.u "BTC"))).
  { destruct (get_btc_rate E self t s0) as [ra sa] eqn:G1.
    assert (sa = s1) as -> by (destruct ra; inversion H1; reflexivity).
    eapply get_btc_rate_sends; eauto. }
  destruct (Py.str_eqb t (Py.u "BTC") && negb (Py.str_eqb f (Py.u "BTC"))).
  { destruct (get_btc_rate E self f s0) as [ra sa] eqn:G1.
    assert (sa = s1) as ->
      by (destruct ra as [|p]; [|destruct (py_div 1 p)]; inversion H1; reflexivity).
    eapply get_btc_rate_sends; eauto. }
  destruct (Py.str_eqb f (Py.u "BTC") && Py.str_eqb t (Py.u "BTC"));
    [apply Hnil; congruence|].
  destruct (get_fiat_rate E self f t s0) as [ra sa] eqn:G1.
  assert (sa = s1) as -> by (destruct ra; inversion H1; reflexivity).
  eapply get_fiat_rate_sends; eauto.
Qed.

End OnePerSlot.

(** *** Expiry *)

Lemma refetch_fiat_ok ub s body R :
  fiat_latest E (length (sent s)) ub = Json body -> fb_rates body = Some R ->
  refetch_fiat E ub s =
  (inr R, State (S (ticks s)) (GetFiatLatest ub :: sent s) (looked_up s)
                (<[ub := FiatEntry (clock E (ticks s)) R]> (_fiat_cache s))
                (_crypto_cache s)).
Proof.
  intros Hb HR. unfold refetch_fiat. run_m. rewrite Hb, HR.
  rewrite andb_false_r. reflexivity.
Qed.

Lemma refetch_btc_ok cg_vs key s data price :
  simple_price E (length (sent s)) cg_id cg_vs = Json data ->
  get2 data cg_id cg_vs = Some price ->
  refetch_btc E cg_vs key s =
  (inr price, State (S (ticks s)) (GetSimplePrice cg_id cg_vs :: sent s) (looked_up s)
                    (_fiat_cache s)
                    (<[key := CryptoEntry (clock E (ticks s)) price]> (_crypto_cache s))).
Proof.
  intros Hd Hp. unfold refetch_btc. run_m. rewrite Hd, Hp. reflexivity.
Qed.

(** A stale fiat slot: the next read sends a request, and a usable reply
    overwrites the slot. *)
Lemma fiat_expiry base s c r s' :
  _fiat_cache s !! Py.upper base = Some c ->
  fresh self (clock E (ticks s)) (fe_t c) = false ->
  _fetch_fiat_rates E self base s = (r, s') ->
  sent s' = GetFiatLatest (Py.upper base) :: sent s /\
  forall body R,
    fiat_latest E (length (sent s)) (Py.upper base) = Json body ->
    fb_rates body = Some R ->
    r = inr R /\
    _fiat_cache s' !! Py.upper base = Some (FiatEntry (clock E (S (ticks s))) R).
Proof.
  intros Hc Hf H. split.
  - apply fetch_fiat_spec in H as (_ & _ & [H|H]).
    + destruct H as (c' & Hc' & Hf' & _). congruence.
    + destruct H as (_ & Hs & _). exact Hs.
  - intros body R Hb HR. unfold _fetch_fiat_rates in H.
    unfold mbind, M_bind, bind, fiat_cache_get, _now in H. cbn [fst snd] in H.
    rewrite Hc in H. cbn [ticks sent looked_up _fiat_cache _crypto_cache] in H.
    rewrite Hf in H.
    erewrite refetch_fiat_ok in H by (cbn [sent]; eauto).
    inversion H; subst. cbn [_fiat_cache ticks]. rewrite lookup_insert_eq. auto.
Qed.

Lemma btc_expiry vs s c r s' :
  let cg_vs := Py.lower (Py.upper vs) in
  let key := cg_id ++ [124] ++ cg_vs in
  _crypto_cache s !! key = Some c ->
  fresh self (clock E (ticks s)) (ce_t c) = false ->
  get_btc_rate E self vs s = (r, s') ->
  sent s' = GetSimplePrice cg_id cg_vs :: sent s /\
  forall data price,
    simple_price E (length (sent s)) cg_id cg_vs = Json data ->
    get2 data cg_id cg_vs = Some price ->
    r = inr price /\
    _crypto_cache s' !! key = Some (CryptoEntry (clock E (S (ticks s))) price).
Proof.
  intros cg_vs key Hc Hf H. split.
  - apply btc_rate_spec in H as (_ & _ & [H|H]).
    + destruct H as (c' & Hc' & Hf' & _). fold cg_vs key in Hc'. congruence.
    + destruct H as (_ & Hs & _). exact Hs.
  - intros data price Hd Hp. unfold get_btc_rate in H. fold cg_vs key in H.
    unfold mbind, M_bind, bind, crypto_cache_get, _now in H. cbn [fst snd] in H.
    rewrite Hc in H. cbn [ticks sent looked_up _fiat_cache _crypto_cache] in H.
    rewrite Hf in H.
    erewrite refetch_btc_ok in H by (cbn [sent]; eauto).
    inversion H; subst. cbn [_crypto_cache ticks]. rewrite lookup_insert_eq. auto.
Qed.

(** *** Triangulation through USD *)

Lemma fetch_upper base :
  _fetch_fiat_rates E self (Py.upper base) = _fetch_fiat_rates E self base.
Proof. unfold _fetch_fiat_rates. rewrite upper_idem. reflexivity. Qed.

(** *** Same currency, and the bitcoin legs *)

Lemma convert_same amount X s :
  normalize_code (Some X) = Some X ->
  exists source,
    convert E self amount X X s = (inr (amount, 1%float, source), s).
Proof.
  intros HX. rewrite convert_eq, HX. cbv zeta.
  destruct (Py.str_eqb X (Py.u "BTC")); cbn [andb negb].
  - eexists. reflexivity.
  - rewrite get_fiat_rate_eq. cbv zeta. rewrite str_eqb_refl.
    rewrite FloatFacts.mul_1_r. eexists. reflexivity.
Qed.

Lemma convert_btc_legs amount F f s price s' :
  normalize_code (Some F) = Some f ->
  f <> Py.u "BTC" ->
  get_btc_rate E self f s = (inr price, s') ->
  PrimFloat.eqb price 0 = false ->
  convert E self amount F (Py.u "BTC") s
  = (inr ((amount * (1 / price))%float, (1 / price)%float, Py.u "CoinGecko"), s')
  /\ convert E self amount (Py.u "BTC") F s
    = (inr ((amount * price)%float, price, Py.u "CoinGecko"), s').
Proof.
  intros HF Hne G Hz. rewrite !convert_eq, HF.
  change (normalize_code (Some (Py.u "BTC"))) with (Some (Py.u "BTC")).
  cbv zeta. rewrite (str_eqb_neq _ _ Hne), str_eqb_refl. cbn [andb negb].
  rewrite G. unfold py_div. rewrite Hz. split; reflexivity.
Qed.

(** *** The caches within and after the TTL; triangulation *)

(** C2: for [CurrencyTool.convert] (the function-style module has no cache
    and sends a request on every call).  When the first of two identical
    calls did not fail at a provider and every slot it read still passes the
    TTL test at the clock readings of the second call, the second call sends
    no request; and when consecutive clock readings are less than the TTL
    apart, the two calls together sent at most one request per slot.  A slot
    whose entry fails the TTL test is fetched again on its next read, and a
    usable reply overwrites the slot with the new value and the time read
    after the fetch. *)
Theorem cache_within_ttl :
  (forall amount fc tc s0 r1 s1 r2 s2,
     convert E self amount fc tc s0 = (r1, s1) ->
     provider_failure r1 = false ->
     (forall sl n, In sl (slots_since s0 s1) ->
        (ticks s1 <= n < ticks s1 + 2)%nat -> slot_fresh s1 sl n = true) ->
     convert E self amount fc tc s1 = (r2, s2) ->
     sent s2 = sent s1 /\
     ((forall n, fresh self (clock E (S n)) (clock E n) = true) ->
      NoDup (map slot_of_request (sent_since s0 s2))))
  /\ (forall base s c r s',
        _fiat_cache s !! Py.upper base = Some c ->
        fresh self (clock E (ticks s)) (fe_t c) = false ->
        _fetch_fiat_rates E self base s = (r, s') ->
        sent s' = GetFiatLatest (Py.upper base) :: sent s /\
        forall body R,
          fiat_latest E (length (sent s)) (Py.upper base) = Json body ->
          fb_rates body = Some R ->
          r = inr R /\
          _fiat_cache s' !! Py.upper base
          = Some (FiatEntry (clock E (S (ticks s))) R))
  /\ (forall vs s c r s',
        let cg_vs := Py.lower (Py.upper vs) in
        let key := cg_id ++ [124] ++ cg_vs in
        _crypto_cache s !! key = Some c ->
        fresh self (clock E (ticks s)) (ce_t c) = false ->
        get_btc_rate E self vs s = (r, s') ->
        sent s' = GetSimplePrice cg_id cg_vs :: sent s /\
        forall data price,
          simple_price E (length (sent s)) cg_id cg_vs = Json data ->
          get2 data cg_id cg_vs = Some price ->
          r = inr price /\
          _crypto_cache s' !! key = Some (CryptoEntry (clock E (S (ticks s))) price)).
Proof.
  split; [|split].
  - intros amount fc tc s0 r1 s1 r2 s2 H1 Hp Hf H2.
    pose proof (convert_twice _ _ _ _ _ _ _ _ H1 Hp Hf H2) as Hs.
    split; [exact Hs|].
    intros quick.
    destruct (convert_sends quick _ _ _ _ _ _ H1) as (new & Hn & Hd).
    unfold sent_since. rewrite Hs, Hn, since_app. exact Hd.
  - intros. eapply fiat_expiry; eauto.
  - intros vs s c r s' cg_vs key. apply btc_expiry.
Qed.

(** C1: for [base] and [target] that differ as upper-cased codes (equal codes
    return 1.0 before any table is looked at).  When the table for [base]
    lacks [target]: with USD in it at [r1] and [target] in the USD table at
    [r2], [get_fiat_rate] returns [r1 * r2]; with USD absent from the base
    table, or [target] absent from the USD table, it raises the
    unsupported-target [ValueError]. *)
Theorem triangulation_through_usd base target s rates s1 :
  Py.upper base <> Py.upper target ->
  _fetch_fiat_rates E self base s = (inr rates, s1) ->
  rates !! Py.upper target = None ->
  (forall r1 rates_usd s2 r2,
     rates !! USD = Some r1 ->
     _fetch_fiat_rates E self USD s1 = (inr rates_usd, s2) ->
     rates_usd !! Py.upper target = Some r2 ->
     get_fiat_rate E self base target s = (inr (r1 * r2)%float, s2))
  /\ (rates !! USD = None ->
      get_fiat_rate E self base target s
      = (inl (ValueError (UnsupportedTarget (Py.upper target))), s1))
  /\ (forall r1 rates_usd s2,
      rates !! USD = Some r1 ->
      _fetch_fiat_rates E self USD s1 = (inr rates_usd, s2) ->
      rates_usd !! Py.upper target = None ->
      get_fiat_rate E self base target s
      = (inl (ValueError (UnsupportedTarget (Py.upper target))), s2)).
Proof.
  intros Hne F1 Ht. rewrite get_fiat_rate_eq. cbv zeta.
  rewrite (str_eqb_neq _ _ Hne), fetch_upper, F1, Ht.
  repeat split.
  - intros r1 ru s2 r2 Hu F2 Hr. rewrite Hu, F2, Hr. reflexivity.
  - intros Hu. rewrite Hu. reflexivity.
  - intros r1 ru s2 Hu F2 Hr. rewrite Hu, F2, Hr. reflexivity.
Qed.

End Caches.

End UtilsFacts.

(** ** Sample inputs, and the two modules side by side *)

Module Cases.

Import World PyFacts.

Local Abbreviation E0 := Fixtures.provider.
Local Abbreviation tool := Utils.default_tool.
Local Abbreviation code := Py.u.

(** The triangulation statement at EUR to THB (through USD), THB to JPY (no
    USD in the THB table) and EUR to JPY (no JPY in the USD table). *)
Lemma triangulation_witness :
  (Utils.get_fiat_rate E0 tool (code "EUR") (code "THB") initial).1 = inr 64%float
  /\ (Utils.get_fiat_rate E0 tool (code "THB") (code "JPY") initial).1
     = inl (ValueError (UnsupportedTarget (code "JPY")))
  /\ (Utils.get_fiat_rate E0 tool (code "EUR") (code "JPY") initial).1
     = inl (ValueError (UnsupportedTarget (code "JPY"))).
Proof.
  pose (f1 := Utils._fetch_fiat_rates E0 tool (code "EUR") initial).
  pose (rates := match f1.1 with inr r => r | inl _ => ∅ end).
  pose (f2 := Utils._fetch_fiat_rates E0 tool (code "USD") f1.2).
  pose (rates_usd := match f2.1 with inr r => r | inl _ => ∅ end).
  pose (f3 := Utils._fetch_fiat_rates E0 tool (code "THB") initial).
  pose (rates_thb := match f3.1 with inr r => r | inl _ => ∅ end).
  assert (F1 : Utils._fetch_fiat_rates E0 tool (code "EUR") initial = (inr rates, f1.2))
    by (vm_compute; reflexivity).
  assert (F2 : Utils._fetch_fiat_rates E0 tool (code "USD") f1.2 = (inr rates_usd, f2.2))
    by (vm_compute; reflexivity).
  assert (F3 : Utils._fetch_fiat_rates E0 tool (code "THB") initial = (inr rates_thb, f3.2))
    by (vm_compute; reflexivity).
  split; [|split].
  - destruct (UtilsFacts.triangulation_through_usd E0 tool (code "EUR") (code "THB")
                initial rates f1.2) as (A & _ & _);
      [vm_compute; discriminate|exact F1|vm_compute; reflexivity|].
    rewrite (A 2%float rates_usd f2.2 32%float);
      [vm_compute; reflexivity|vm_compute; reflexivity|exact F2|vm_compute; reflexivity].
  - destruct (UtilsFacts.triangulation_through_usd E0 tool (code "THB") (code "JPY")
                initial rates_thb f3.2) as (_ & B & _);
      [vm_compute; discriminate|exact F3|vm_compute; reflexivity|].
    rewrite B; [reflexivity|vm_compute; reflexivity].
  - destruct (UtilsFacts.triangulation_through_usd E0 tool (code "EUR") (code "JPY")
                initial rates f1.2) as (_ & _ & C);
      [vm_compute; discriminate|exact F1|vm_compute; reflexivity|].
    rewrite (C 2%float rates_usd f2.2);
      [reflexivity|vm_compute; reflexivity|exact F2|vm_compute; reflexivity].
Defined.

(** EUR to EUR: the EUR table lacks EUR and has USD at 2, the USD table has
    EUR at 0.75, and the call returns 1.0, not 2 * 0.75. *)
Lemma same_code_is_not_triangulated :
  exists rates s1 rates_usd s2,
    Utils._fetch_fiat_rates E0 tool (code "EUR") initial = (inr rates, s1)
    /\ rates !! code "EUR" = None /\ rates !! code "USD" = Some 2%float
    /\ Utils._fetch_fiat_rates E0 tool (code "USD") s1 = (inr rates_usd, s2)
    /\ rates_usd !! code "EUR" = Some 0.75%float
    /\ Utils.get_fiat_rate E0 tool (code "EUR") (code "EUR") initial
       = (inr 1%float, initial)
    /\ (2 * 0.75)%float <> 1%float.
Proof.
  pose (f1 := Utils._fetch_fiat_rates E0 tool (code "EUR") initial).
  pose (f2 := Utils._fetch_fiat_rates E0 tool (code "USD") f1.2).
  exists (match f1.1 with inr r => r | inl _ => ∅ end), f1.2,
         (match f2.1 with inr r => r | inl _ => ∅ end), f2.2.
  repeat split; try (vm_compute; reflexivity).
  intros H. apply (f_equal (fun x => PrimFloat.eqb x 1)) in H.
  vm_compute in H. discriminate.
Qed.

(** The cache statement at two conversions of 10 EUR to THB from an empty
    cache, and at reads of the two stale slots of [Fixtures.stale]. *)
Lemma cache_witness :
  (let s1 := (Utils.convert E0 tool 10 (code "EUR") (code "THB") initial).2 in
   let s2 := (Utils.convert E0 tool 10 (code "EUR") (code "THB") s1).2 in
   sent s2 = sent s1 /\ NoDup (map slot_of_request (sent_since initial s2)))
  /\ (let r := Utils._fetch_fiat_rates E0 tool (code "EUR") Fixtures.stale in
      sent r.2 = [GetFiatLatest (code "EUR")]
      /\ _fiat_cache r.2 !! code "EUR"
         = Some (FiatEntry 1000 (Fixtures.table [(code "USD", 2%float)])))
  /\ (let r := Utils.get_btc_rate E0 tool (code "usd") Fixtures.stale in
      sent r.2 = [GetSimplePrice (code "bitcoin") (code "usd")]
      /\ _crypto_cache r.2 !! code "bitcoin|usd" = Some (CryptoEntry 1000 50000)).
Proof.
  destruct (UtilsFacts.cache_within_ttl E0 tool) as (H1 & H2 & H3).
  split; [|split].
  - cbv zeta.
    pose (c1 := Utils.convert E0 tool 10 (code "EUR") (code "THB") initial).
    pose (c2 := Utils.convert E0 tool 10 (code "EUR") (code "THB") c1.2).
    change (sent c2.2 = sent c1.2
            /\ NoDup (map slot_of_request (sent_since initial c2.2))).
    destruct (H1 10%float (code "EUR") (code "THB") initial c1.1 c1.2 c2.1 c2.2)
      as (A & B).
    + vm_compute. reflexivity.
    + vm_compute. reflexivity.
    + intros sl n Hin Hn. vm_compute in Hin.
      destruct Hin as [<-|[<-|[]]]; vm_compute; reflexivity.
    + vm_compute. reflexivity.
    + split; [exact A|]. apply B. intros n. vm_compute. reflexivity.
  - cbv zeta.
    pose (r := Utils._fetch_fiat_rates E0 tool (code "EUR") Fixtures.stale).
    destruct (H2 (code "EUR") Fixtures.stale
                 (FiatEntry 0 (Fixtures.table [(code "USD", 4%float)])) r.1 r.2)
      as (A & B).
    + vm_compute. reflexivity.
    + vm_compute. reflexivity.
    + vm_compute. reflexivity.
    + split; [exact A|].
      destruct (B (FiatBody (Some true) (Some (Fixtures.table [(code "USD", 2%float)])))
                  (Fixtures.table [(code "USD", 2%float)])) as (_ & C).
      * vm_compute. reflexivity.
      * reflexivity.
      * exact C.
  - cbv zeta.
    pose (r := Utils.get_btc_rate E0 tool (code "usd") Fixtures.stale).
    destruct (H3 (code "usd") Fixtures.stale (CryptoEntry 0 40000) r.1 r.2)
      as (A & B).
    + vm_compute. reflexivity.
    + vm_compute. reflexivity.
    + vm_compute. reflexivity.
    + split; [exact A|].
      destruct (B Fixtures.btc_prices 50000%float) as (_ & C).
      * vm_compute. reflexivity.
      * vm_compute. reflexivity.
      * exact C.
Defined.

(** The function-style module: two conversions of 1 USD to EUR, with a key.
    The first reads no cache slot (there is no cache) and does not fail;
    the second sends a request of its own. *)
Lemma function_module_refetches :
  let key := code "k" in
  let c1 := Tools.perform_conversion E0 key Fixtures.log10_sample (Some 1%float)
              (code "USD") (Some (code "EUR")) initial in
  let c2 := Tools.perform_conversion E0 key Fixtures.log10_sample (Some 1%float)
              (code "USD") (Some (code "EUR")) c1.2 in
  provider_failure c1.1 = false
  /\ slots_since initial c1.2 = []
  /\ sent c1.2 = [GetPair key (code "USD") (code "EUR")]
  /\ sent c2.2 = [GetPair key (code "USD") (code "EUR");
                  GetPair key (code "USD") (code "EUR")]
  /\ sent c2.2 <> sent c1.2.
Proof.
  cbv zeta. repeat split; try (vm_compute; reflexivity).
  vm_compute. discriminate.
Qed.

(** *** Same currency *)

Lemma known_codes_are_canonical X :
  In X (code "BTC" :: Tools.FIAT) -> Utils.normalize_code (Some X) = Some X.
Proof.
  intros H. cbn in H.
  repeat (destruct H as [<-|H]; [reflexivity|]). contradiction.
Qed.

(** C3: [CurrencyTool.convert] from a known fiat code or BTC to itself
    returns the amount unchanged with rate 1.0 and touches neither the clock
    nor the network.  [perform_conversion] from a fiat code to itself, with
    an API key configured, uses rate 1.0 and sends nothing, and returns the
    amount smart-rounded; from BTC to BTC it rejects the pair as
    unsupported. *)
Theorem same_currency_conversion :
  (forall E self amount X s,
     In X (code "BTC" :: Tools.FIAT) ->
     exists source,
       Utils.convert E self amount X X s = (inr (amount, 1%float, source), s))
  /\ (forall E key log10 a X s,
        key <> [] -> Tools.in_FIAT X = true ->
        Tools.perform_conversion E key log10 (Some a) X (Some X) s =
        (match Tools._smart_round log10 a with
         | inl e => inl e
         | inr rounded =>
             inr (Tools.Conversion a X X 1%float rounded
                    (code "EXR (pair, same-currency)") (clock E (ticks s)))
         end,
         State (S (ticks s)) (sent s) (looked_up s) (_fiat_cache s) (_crypto_cache s)))
  /\ (forall E key log10 amount s,
        Tools.perform_conversion E key log10 amount (code "BTC") (Some (code "BTC")) s
        = (inl (RuntimeError (UnsupportedPair (code "BTC") (code "BTC"))), s)).
Proof.
  split; [|split].
  - intros E self amount X s HX.
    apply UtilsFacts.convert_same, known_codes_are_canonical, HX.
  - intros. apply ToolsFacts.perform_same_fiat; assumption.
  - intros. apply ToolsFacts.perform_unsupported. reflexivity.
Qed.

(** The statement at 2.5 USD in both modules. *)
Lemma same_currency_witness :
  (Utils.convert E0 tool 2.5 (code "USD") (code "USD") initial).1
  = inr (2.5%float, 1%float, code "exchangerate.host")
  /\ (Tools.perform_conversion E0 (code "k") Fixtures.log10_sample (Some 2.5%float)
        (code "USD") (Some (code "USD")) initial).1
     = inr (Tools.Conversion 2.5 (code "USD") (code "USD") 1 2.5
              (code "EXR (pair, same-currency)") 1000).
Proof.
  destruct same_currency_conversion as (H1 & H2 & _).
  split.
  - destruct (H1 E0 tool 2.5%float (code "USD") initial) as (source & Hc).
    + cbn. auto.
    + rewrite Hc. cbn [fst]. f_equal.
      assert (Hs : (Utils.convert E0 tool 2.5 (code "USD") (code "USD") initial).1
                   = inr (2.5%float, 1%float, code "exchangerate.host"))
        by (vm_compute; reflexivity).
      rewrite Hc in Hs. cbn [fst] in Hs. congruence.
  - rewrite H2; [|discriminate|reflexivity]. vm_compute. reflexivity.
Defined.

(** The function-style module does not return 5 BTC for 5 BTC to BTC. *)
Lemma btc_to_btc_is_unsupported_in_function_module :
  ~ (exists c s',
       Tools.perform_conversion E0 (code "k") Fixtures.log10_sample (Some 5%float)
         (code "BTC") (Some (code "BTC")) initial = (inr c, s')).
Proof. intros (c & s' & H). vm_compute in H. discriminate. Qed.

(** *** The bitcoin legs *)

(** C4: in [CurrencyTool.convert], for a fiat code whose spot price [price]
    is obtained (and is not zero), converting from it to BTC uses the rate
    [1 / price], and converting from BTC to it at the same state uses
    [price].  [perform_conversion] has no fiat-to-BTC leg: it rejects the pair
    as unsupported. *)
Theorem fiat_to_crypto_inverts_spot_price :
  (forall E self amount F f s price s',
     Utils.normalize_code (Some F) = Some f ->
     f <> code "BTC" ->
     Utils.get_btc_rate E self f s = (inr price, s') ->
     PrimFloat.eqb price 0 = false ->
     Utils.convert E self amount F (code "BTC") s
     = (inr ((amount * (1 / price))%float, (1 / price)%float, code "CoinGecko"), s')
     /\ Utils.convert E self amount (code "BTC") F s
        = (inr ((amount * price)%float, price, code "CoinGecko"), s'))
  /\ (forall E key log10 amount src s,
        Tools.perform_conversion E key log10 amount src (Some (code "BTC")) s
        = (inl (RuntimeError (UnsupportedPair src (code "BTC"))), s)).
Proof.
  split.
  - intros. eapply UtilsFacts.convert_btc_legs; eassumption.
  - intros. apply ToolsFacts.perform_unsupported. reflexivity.
Qed.

(** The statement at 100000 USD, bitcoin at 50000 USD. *)
Lemma fiat_to_crypto_witness :
  (Utils.convert E0 tool 100000 (code "usd") (code "BTC") initial).1
  = inr (2%float, (1 / 50000)%float, code "CoinGecko")
  /\ (Utils.convert E0 tool 2 (code "BTC") (code "usd") initial).1
     = inr (100000%float, 50000%float, code "CoinGecko").
Proof.
  destruct fiat_to_crypto_inverts_spot_price as (H1 & _).
  pose (g := Utils.get_btc_rate E0 tool (code "USD") initial).
  destruct (H1 E0 tool 100000%float (code "usd") (code "USD") initial 50000%float g.2)
    as (A & _); try (vm_compute; reflexivity); [vm_compute; discriminate|].
  destruct (H1 E0 tool 2%float (code "usd") (code "USD") initial 50000%float g.2)
    as (_ & B); try (vm_compute; reflexivity); [vm_compute; discriminate|].
  rewrite A, B. split; vm_compute; reflexivity.
Defined.

(** The function-style module converts no USD to BTC. *)
Lemma fiat_to_btc_is_unsupported_in_function_module :
  ~ (exists c s',
       Tools.perform_conversion E0 (code "k") Fixtures.log10_sample (Some 1%float)
         (code "USD") (Some (code "BTC")) initial = (inr c, s')).
Proof. intros (c & s' & H). vm_compute in H. discriminate. Qed.

(** *** The default destination *)

Lemma try_parse_convert_default self text m a c :
  Re.search true Utils._CONVERT_RE text = Some m ->
  Utils._safe_float (default [] (Re.group m "amount")) = Some a ->
  Utils.normalize_code (Re.group m "src") = Some c -> c <> [] ->
  Re.group m "dst" = None ->
  Utils.try_parse self text = Some (Utils.PConvert a c (Utils.default_target self)).
Proof.
  intros Hs Ha Hc Hne Hd. unfold Utils.try_parse. rewrite Hs, Ha, Hc, Hd.
  destruct c; [contradiction|]. reflexivity.
Qed.

Lemma try_parse_rate_default self text m c :
  Re.search true Utils._CONVERT_RE text = None ->
  Re.search true Utils._RATE_RE text = Some m ->
  Utils.normalize_code (Re.group m "src") = Some c -> c <> [] ->
  Re.group m "dst" = None ->
  Utils.try_parse self text = Some (Utils.PRate c (Some (Utils.default_target self))).
Proof.
  intros Hn Hs Hc Hne Hd. unfold Utils.try_parse, Utils.try_rate.
  rewrite Hn, Hs, Hc, Hd. destruct c; [contradiction|]. reflexivity.
Qed.

(** C7: in [parse_currency_query], an intent comes from the loop body on the
    groups of one pattern, and when its source is BTC and that match has no
    destination group, its destination is USD.  In [CurrencyTool.try_parse],
    a match without destination group gets the configured default target
    (THB unless configured otherwise), for BTC as for any other source. *)
Theorem btc_default_destination :
  (forall text r,
     Tools.parse_currency_query text = Some r ->
     exists p m,
       In p Tools.CONVERT_PATTERNS /\ Re.search true p text = Some m /\
       Tools.on_match text m = Some r /\
       (Tools.src r = code "BTC" -> Re.group m "dst" = None ->
        Tools.dst r = Some (code "USD")))
  /\ (forall self text m a,
        Re.search true Utils._CONVERT_RE text = Some m ->
        Utils._safe_float (default [] (Re.group m "amount")) = Some a ->
        Utils.normalize_code (Re.group m "src") = Some (code "BTC") ->
        Re.group m "dst" = None ->
        Utils.try_parse self text
        = Some (Utils.PConvert a (code "BTC") (Utils.default_target self)))
  /\ (forall self text m,
        Re.search true Utils._CONVERT_RE text = None ->
        Re.search true Utils._RATE_RE text = Some m ->
        Utils.normalize_code (Re.group m "src") = Some (code "BTC") ->
        Re.group m "dst" = None ->
        Utils.try_parse self text
        = Some (Utils.PRate (code "BTC") (Some (Utils.default_target self)))).
Proof.
  split; [|split].
  - intros text r H. apply ToolsFacts.cascade_inv in H as (p & m & Hp & Hs & Hm).
    exists p, m. repeat split; try assumption.
    intros Hsrc Hdst. eapply ToolsFacts.on_match_btc_default; eauto.
  - intros. eapply try_parse_convert_default; eauto; discriminate.
  - intros. eapply try_parse_rate_default; eauto; discriminate.
Qed.

(** The statement at "btc price", "convert 1 btc" and "rate btc". *)
Lemma btc_default_destination_witness :
  Tools.parse_currency_query (code "btc price")
  = Some (Tools.Intent (Some 1%float) (code "BTC") (Some (code "USD")))
  /\ Utils.try_parse tool (code "convert 1 btc")
     = Some (Utils.PConvert 1 (code "BTC") (code "THB"))
  /\ Utils.try_parse tool (code "rate btc")
     = Some (Utils.PRate (code "BTC") (Some (code "THB"))).
Proof.
  destruct btc_default_destination as (H1 & H2 & H3).
  split; [|split].
  - destruct (H1 (code "btc price")
                 (Tools.Intent (Some 1%float) (code "BTC") (Some (code "USD"))))
      as (p & m & _ & _ & Hm & _); [vm_compute; reflexivity|].
    vm_compute. reflexivity.
  - pose (m := default [] (Re.search true Utils._CONVERT_RE (code "convert 1 btc"))).
    rewrite (H2 tool (code "convert 1 btc") m 1%float); vm_compute; reflexivity.
  - pose (m := default [] (Re.search true Utils._RATE_RE (code "rate btc"))).
    rewrite (H3 tool (code "rate btc") m); vm_compute; reflexivity.
Defined.

(** [try_parse] on "convert 1 btc": the source is BTC, no destination is
    captured, and the destination is THB. *)
Lemma try_parse_defaults_to_configured_target :
  exists m,
    Re.search true Utils._CONVERT_RE (code "convert 1 btc") = Some m
    /\ Utils.normalize_code (Re.group m "src") = Some (code "BTC")
    /\ Re.group m "dst" = None
    /\ Utils.try_parse tool (code "convert 1 btc")
       = Some (Utils.PConvert 1 (code "BTC") (code "THB"))
    /\ code "THB" <> code "USD".
Proof.
  eexists. split; [vm_compute; reflexivity|].
  repeat split; try (vm_compute; reflexivity). vm_compute. discriminate.
Qed.

End Cases.

Module ReSemFacts.

Import Re ReSem.

Lemma caps_ok_wider Q w a b cs : caps_ok Q w cs -> caps_ok Q (a ++ w ++ b) cs.
Proof.
  unfold caps_ok. intros H. eapply Forall_impl; [exact H|].
  intros [n v] [Hq (a' & b' & ->)].
  split; [exact Hq|]. exists (a ++ a'), (b' ++ b). cbn. rewrite <- !app_assoc. reflexivity.
Qed.

Section Sound.
Context {A : Type}.
Variable Q : string -> str -> Prop.

(** What a successful run of a matching step tells: it consumed a string of
    [L], added captures that satisfy [Q], and the continuation succeeded on
    the rest. *)
Definition sound_for (L : str -> Prop)
    (step : str -> captures -> @cont A -> option A) : Prop :=
  forall s cs k x, step s cs k = Some x ->
    exists w s' new, s = w ++ s' /\ L w /\ caps_ok Q w new /\ k s' (new ++ cs) = Some x.

Lemma one_sound p : sound_for (fun w => exists c, w = [c] /\ p c = true) (one p).
Proof.
  intros [|c s] cs k x H; cbn in H; [discriminate|].
  destruct (p c) eqn:Hp; [|discriminate].
  exists [c], s, []. repeat split; eauto. constructor.
Qed.

Lemma rep_loop_sound L step :
  sound_for L step ->
  forall fuel lo hi,
    sound_for (fun w => exists ws, w = concat ws /\ Forall L ws /\ (lo <= length ws)%nat /\
                 match hi with Some h => (length ws <= h)%nat | None => True end)
              (rep_loop step fuel lo hi).
Proof.
  intros Hstep fuel. induction fuel as [|fuel IH]; intros lo hi s cs k x H.
  - discriminate.
  - cbn [rep_loop] in H.
    set (kk := fun (s' : str) (cs' : captures) =>
                 if (length s' <? length s)%nat
                 then rep_loop step fuel (Nat.pred lo) (Nat.pred <$> hi) s' cs' k
                 else None) in H.
    assert (Hstop : (if (lo =? 0)%nat then k s cs else None) = Some x ->
      exists w s' new, s = w ++ s' /\
        (exists ws, w = concat ws /\ Forall L ws /\ (lo <= length ws)%nat /\
           match hi with Some h => (length ws <= h)%nat | None => True end) /\
        caps_ok Q w new /\ k s' (new ++ cs) = Some x).
    { destruct (Nat.eqb_spec lo 0) as [->|]; [|discriminate].
      intros Hk. exists [], s, [].
      split; [reflexivity|]. split; [|split; [constructor|exact Hk]].
      exists []. split; [reflexivity|]. split; [constructor|].
      split; [cbn; lia|]. destruct hi; [cbn; lia|exact I]. }
    assert (Hmore : forall h', Nat.pred <$> hi = h' ->
      (match hi with Some O => False | _ => True end) ->
      step s cs kk = Some x ->
      exists w s' new, s = w ++ s' /\
        (exists ws, w = concat ws /\ Forall L ws /\ (lo <= length ws)%nat /\
           match hi with Some h => (length ws <= h)%nat | None => True end) /\
        caps_ok Q w new /\ k s' (new ++ cs) = Some x).
    { intros h' Hh Hpos Hs.
      apply Hstep in Hs as (w1 & s1 & new1 & -> & Hw1 & Hq1 & Hk). unfold kk in Hk.
      destruct (length s1 <? length (w1 ++ s1))%nat; [|discriminate].
      apply IH in Hk as (w2 & s2 & new2 & -> & (ws & -> & Hws & Hlo & Hhi) & Hq2 & Hk).
      exists (w1 ++ concat ws), s2, (new2 ++ new1).
      split; [rewrite app_assoc; reflexivity|].
      split.
      - exists (w1 :: ws). split; [reflexivity|]. split; [constructor; assumption|].
        split; [cbn; lia|].
        destruct hi as [[|h]|]; cbn in *; [contradiction|lia|exact I].
      - split.
        + apply Forall_app; split.
          * apply (caps_ok_wider Q (concat ws) w1 [] new2) in Hq2.
            rewrite app_nil_r in Hq2. exact Hq2.
          * apply (caps_ok_wider Q w1 [] (concat ws) new1) in Hq1. exact Hq1.
        + rewrite <- app_assoc. exact Hk. }
    destruct hi as [[|h]|].
    + apply Hstop, H.
    + destruct (step s cs kk) eqn:Hs.
      * inversion H; subst. eapply Hmore; [reflexivity|exact I|reflexivity].
      * apply Hstop, H.
    + destruct (step s cs kk) eqn:Hs.
      * inversion H; subst. eapply Hmore; [reflexivity|exact I|reflexivity].
      * apply Hstop, H.
Qed.

Lemma run_sound ic r : groups_ok ic Q r -> sound_for (lang ic r) (run ic r).
Proof.
  induction r as [ | l | | | rs | r1 IH1 r2 IH2 | r1 IH1 r2 IH2 | lo hi r IH | name r IH ];
    cbn [run lang groups_ok]; intros G.
  - intros s cs k x H. exists [], s, []. repeat split; [constructor|exact H].
  - apply one_sound.
  - intros s cs k x H. apply one_sound in H as (w & s' & new & ? & (c & ? & Hc) & ? & ?).
    exists w, s', new. repeat split; auto. exists c. split; [assumption|].
    apply negb_true_iff. exact Hc.
  - apply one_sound.
  - apply one_sound.
  - destruct G as [G1 G2]. intros s cs k x H.
    apply (IH1 G1) in H as (w1 & s1 & new1 & -> & L1 & Q1 & H).
    apply (IH2 G2) in H as (w2 & s2 & new2 & -> & L2 & Q2 & H).
    exists (w1 ++ w2), s2, (new2 ++ new1). rewrite <- !app_assoc.
    repeat split; eauto. apply Forall_app; split.
    + apply (caps_ok_wider Q w2 w1 [] new2) in Q2. rewrite app_nil_r in Q2. exact Q2.
    + apply (caps_ok_wider Q w1 [] w2 new1) in Q1. exact Q1.
  - destruct G as [G1 G2]. intros s cs k x H.
    destruct (run ic r1 s cs k) eqn:H1.
    + inversion H; subst. apply (IH1 G1) in H1 as (w & s' & new & ? & ? & ? & ?).
      exists w, s', new. auto.
    + apply (IH2 G2) in H as (w & s' & new & ? & ? & ? & ?).
      exists w, s', new. auto.
  - intros s cs k x H. eapply rep_loop_sound in H; [exact H|apply IH, G].
  - destruct G as [G Gq]. intros s cs k x H.
    apply (IH G) in H as (w & s' & new & -> & Lw & Qn & H).
    rewrite length_app in H.
    replace (length w + length s' - length s')%nat with (length w) in H by lia.
    rewrite take_app_length in H.
    exists w, s', ((name, w) :: new). repeat split; auto.
    constructor; [|exact Qn]. split; [apply Gq, Lw|].
    exists [], []. cbn. rewrite app_nil_r. reflexivity.
Qed.

End Sound.

(** A successful search found a match of the pattern somewhere in the text;
    the groups it returns satisfy [Q] and are pieces of the match. *)
Lemma search_sound ic Q r s m :
  groups_ok ic Q r -> search ic r s = Some m ->
  exists pre w suf, s = pre ++ w ++ suf /\ lang ic r w /\ caps_ok Q w m.
Proof.
  intros G. induction s as [|c s IH]; cbn [search].
  - destruct (run ic r [] [] _) eqn:H; [|discriminate]. intros [= <-].
    apply (run_sound Q ic r G) in H as (w & s' & new & Hs & Lw & Qn & [= <-]).
    rewrite app_nil_r. exists [], w, s'. auto.
  - destruct (run ic r (c :: s) [] _) eqn:H.
    + intros [= <-].
      apply (run_sound Q ic r G) in H as (w & s' & new & Hs & Lw & Qn & [= <-]).
      rewrite app_nil_r. exists [], w, s'. auto.
    + intros Hs. apply IH in Hs as (pre & w & suf & -> & Lw & Hq).
      exists (c :: pre), w, suf. auto.
Qed.

End ReSemFacts.

Module CharsFacts.

Import Re ReSem ReSemFacts Chars.

Lemma ascii_exact c : ascii c = true -> exact c = true.
Proof. unfold exact. intros ->. reflexivity. Qed.

Lemma test_exact ic p c :
  (forall d, p d = true -> exact d = true) -> test ic p c = true -> exact c = true.
Proof.
  intros Hp. unfold test. destruct ic; [|apply Hp].
  unfold variants, Py.is_upper_ascii, Py.is_lower_ascii, Py.in_range.
  destruct ((65 <=? c) && (c <=? 90)) eqn:Hu.
  { intros _. apply ascii_exact. unfold ascii.
    rewrite andb_true_iff, !N.leb_le in Hu. apply N.ltb_lt. lia. }
  destruct ((97 <=? c) && (c <=? 122)) eqn:Hl.
  { intros _. apply ascii_exact. unfold ascii.
    rewrite andb_true_iff, !N.leb_le in Hl. apply N.ltb_lt. lia. }
  destruct (N.eqb_spec c 304) as [->|]; [reflexivity|].
  destruct (N.eqb_spec c 305) as [->|]; [reflexivity|].
  destruct (N.eqb_spec c 383) as [->|]; [reflexivity|].
  destruct (N.eqb_spec c 8490) as [->|]; [reflexivity|].
  cbn [orb existsb]. rewrite orb_false_r. apply Hp.
Qed.

Lemma exact_ranges_ok R d :
  exact_ranges R = true -> in_class R d = true -> exact d = true.
Proof.
  unfold exact_ranges, in_class. intros HR Hd.
  apply existsb_exists in Hd as ([lo hi] & Hin & Hr).
  rewrite forallb_forall in HR. specialize (HR _ Hin). cbn in HR.
  unfold Py.in_range in Hr. rewrite andb_true_iff, !N.leb_le in Hr.
  rewrite orb_true_iff, andb_true_iff, N.ltb_lt, N.eqb_eq in HR.
  destruct HR as [HR|[-> HR]].
  - apply ascii_exact. unfold ascii. apply N.ltb_lt. lia.
  - assert (d = hi) as -> by lia. exact HR.
Qed.

Lemma forallb_concat {X} (p : X -> bool) (ws : list (list X)) :
  Forall (fun w => forallb p w = true) ws -> forallb p (concat ws) = true.
Proof.
  induction 1 as [|w ws Hw _ IH]; [reflexivity|].
  cbn [concat]. rewrite forallb_app, Hw, IH. reflexivity.
Qed.

Lemma lang_exact ic r w :
  exact_atoms r = true -> lang ic r w -> forallb exact w = true.
Proof.
  revert w.
  induction r as [ | l | | | R | r1 IH1 r2 IH2 | r1 IH1 r2 IH2 | lo hi r IH | name r IH ];
    cbn [exact_atoms lang]; intros w Ha Hl.
  - subst. reflexivity.
  - destruct Hl as (c & -> & Hc). cbn. rewrite andb_true_r.
    eapply test_exact; [|exact Hc]. intros d Hd. apply N.eqb_eq in Hd. subst. exact Ha.
  - discriminate.
  - discriminate.
  - destruct Hl as (c & -> & Hc). cbn. rewrite andb_true_r.
    eapply test_exact; [|exact Hc]. intros d. apply exact_ranges_ok, Ha.
  - apply andb_true_iff in Ha as [A1 A2]. destruct Hl as (w1 & w2 & -> & L1 & L2).
    rewrite forallb_app, (IH1 _ A1 L1), (IH2 _ A2 L2). reflexivity.
  - apply andb_true_iff in Ha as [A1 A2]. destruct Hl as [L1|L2]; auto.
  - destruct Hl as (ws & -> & Hws & _). apply forallb_concat.
    eapply Forall_impl; [exact Hws|]. intros v Hv. apply IH; assumption.
  - apply IH; assumption.
Qed.

Lemma exact_groups_ok ic r :
  exact_groups r = true -> groups_ok ic (fun _ v => forallb exact v = true) r.
Proof.
  induction r as [ | l | | | R | r1 IH1 r2 IH2 | r1 IH1 r2 IH2 | lo hi r IH | name r IH ];
    cbn [exact_groups groups_ok]; intros H; try exact I.
  - apply andb_true_iff in H as [H1 H2]. auto.
  - apply andb_true_iff in H as [H1 H2]. auto.
  - auto.
  - apply andb_true_iff in H as [H1 H2]. split; [auto|].
    intros v. apply lang_exact, H1.
Qed.

Lemma existsb_concat_head {X} (q : X -> bool) w (ws : list (list X)) :
  existsb q w = true -> existsb q (concat (w :: ws)) = true.
Proof. intros H. cbn [concat]. rewrite existsb_app, H. reflexivity. Qed.

Lemma must_hit ic leaf q r w :
  (forall a v, leaf a = true -> lang ic a v -> existsb q v = true) ->
  must leaf r = true -> lang ic r w -> existsb q w = true.
Proof.
  intros Hleaf. revert w.
  induction r as [ | l | | | R | r1 IH1 r2 IH2 | r1 IH1 r2 IH2 | lo hi r IH | name r IH ];
    cbn [must]; intros w Hm Hl; try (eapply Hleaf; eassumption).
  - discriminate.
  - cbn [lang] in Hl. destruct Hl as (w1 & w2 & -> & L1 & L2).
    rewrite existsb_app. apply orb_true_iff in Hm as [Hm|Hm].
    + rewrite (IH1 _ Hm L1). reflexivity.
    + rewrite (IH2 _ Hm L2). apply orb_true_r.
  - cbn [lang] in Hl. apply andb_true_iff in Hm as [M1 M2]. destruct Hl; auto.
  - cbn [lang] in Hl. apply andb_true_iff in Hm as [Hlo Hm].
    apply Nat.ltb_lt in Hlo. destruct Hl as (ws & -> & Hws & Hlen & _).
    destruct ws as [|w1 ws]; [cbn in Hlen; lia|].
    apply existsb_concat_head. apply IH; [exact Hm|].
    inversion Hws; assumption.
  - cbn [lang] in Hl. auto.
Qed.

Lemma low_class_below R d : low_class R = true -> 65 <= d -> in_class R d = false.
Proof.
  unfold low_class, in_class. intros HR Hd.
  apply not_true_is_false. intros H.
  apply existsb_exists in H as ([lo hi] & Hin & Hr).
  rewrite forallb_forall in HR. specialize (HR _ Hin). cbn in HR.
  apply N.ltb_lt in HR. unfold Py.in_range in Hr.
  rewrite andb_true_iff, !N.leb_le in Hr. lia.
Qed.

Lemma low_class_none R (L : list char) :
  low_class R = true -> Forall (fun d => 65 <= d) L -> existsb (in_class R) L = false.
Proof.
  intros HR. induction 1 as [|d L Hd _ IH]; [reflexivity|].
  cbn [existsb]. rewrite IH, orb_false_r. apply low_class_below; assumption.
Qed.

(** Case does not matter to a class below the letters. *)
Lemma test_low ic R c : low_class R = true -> test ic (in_class R) c = in_class R c.
Proof.
  intros HR. unfold test. destruct ic; [|reflexivity].
  unfold variants, Py.is_upper_ascii, Py.is_lower_ascii, Py.in_range.
  destruct ((65 <=? c) && (c <=? 90)) eqn:Hu.
  { rewrite andb_true_iff, !N.leb_le in Hu.
    rewrite (low_class_below R c HR) by lia.
    apply low_class_none; [exact HR|].
    destruct (c =? 73); [|destruct (c =? 83); [|destruct (c =? 75)]];
      repeat constructor; lia. }
  destruct ((97 <=? c) && (c <=? 122)) eqn:Hl.
  { rewrite andb_true_iff, !N.leb_le in Hl.
    rewrite (low_class_below R c HR) by lia.
    apply low_class_none; [exact HR|].
    destruct (c =? 105); [|destruct (c =? 115); [|destruct (c =? 107)]];
      repeat constructor; lia. }
  destruct (N.eqb_spec c 304) as [->|].
  { rewrite (low_class_below R 304 HR) by lia.
    apply low_class_none; [exact HR|repeat constructor; lia]. }
  destruct (N.eqb_spec c 305) as [->|].
  { rewrite (low_class_below R 305 HR) by lia.
    apply low_class_none; [exact HR|repeat constructor; lia]. }
  cbn [orb].
  destruct (N.eqb_spec c 383) as [->|].
  { rewrite (low_class_below R 383 HR) by lia.
    apply low_class_none; [exact HR|repeat constructor; lia]. }
  destruct (N.eqb_spec c 8490) as [->|].
  { rewrite (low_class_below R 8490 HR) by lia.
    apply low_class_none; [exact HR|repeat constructor; lia]. }
  cbn [existsb]. apply orb_false_r.
Qed.

Lemma test_digit ic c : test ic (in_class [(48, 57)]) c = Py.is_digit c.
Proof. rewrite test_low by reflexivity. cbn. apply orb_false_r. Qed.

(** A pattern's groups satisfy the trivial property. *)
Lemma groups_ok_trivial ic r : groups_ok ic (fun _ _ => True) r.
Proof. induction r; cbn [groups_ok]; auto. Qed.

Lemma no_groups_ok ic Q r : no_groups r = true -> groups_ok ic Q r.
Proof.
  induction r; cbn [no_groups groups_ok]; intros H; auto; try discriminate;
    apply andb_true_iff in H as [? ?]; auto.
Qed.

Lemma existsb_infix {X} (q : X -> bool) (a w b : list X) :
  existsb q w = true -> existsb q (a ++ w ++ b) = true.
Proof. intros H. rewrite !existsb_app, H. rewrite orb_true_r. reflexivity. Qed.

Lemma ws_leaf ic a v : ws_atom a = true -> lang ic a v -> existsb Py.is_space v = true.
Proof.
  destruct a; try discriminate. intros _ (c & -> & Hc). cbn. rewrite Hc. reflexivity.
Qed.

Lemma digit_leaf ic a v :
  digit_atom a = true -> lang ic a v -> existsb Py.is_digit v = true.
Proof.
  destruct a as [ | | | | R | | | | ]; try discriminate.
  destruct R as [|[lo hi] [|]]; try discriminate. cbn [digit_atom].
  rewrite andb_true_iff, !N.eqb_eq. intros [-> ->] (c & -> & Hc). cbn.
  rewrite test_digit in Hc. rewrite Hc. reflexivity.
Qed.

(** A text that the pattern matches somewhere holds what every match must
    hold. *)
Lemma search_must ic leaf q r text m :
  (forall a v, leaf a = true -> lang ic a v -> existsb q v = true) ->
  must leaf r = true -> search ic r text = Some m -> existsb q text = true.
Proof.
  intros Hleaf Hm Hs.
  apply (search_sound ic _ r text m (groups_ok_trivial ic r)) in Hs
    as (pre & w & suf & -> & Hl & _).
  apply existsb_infix. eapply must_hit; eassumption.
Qed.

End CharsFacts.

Module StripFacts.

Lemma lstrip_by_app_all p (ws s : str) :
  forallb p ws = true -> Py.lstrip_by p (ws ++ s) = Py.lstrip_by p s.
Proof.
  induction ws as [|c ws IH]; [reflexivity|].
  cbn [forallb app Py.lstrip_by]. intros H. apply andb_true_iff in H as [-> H]. auto.
Qed.

Lemma lstrip_by_stop p (s t : str) :
  Py.lstrip_by p s <> [] -> Py.lstrip_by p (s ++ t) = Py.lstrip_by p s ++ t.
Proof.
  induction s as [|c s IH]; cbn [Py.lstrip_by app]; [contradiction|].
  destruct (p c); [exact IH|reflexivity].
Qed.

Lemma lstrip_by_all p (s : str) :
  Py.lstrip_by p s = [] -> forallb p s = true.
Proof.
  induction s as [|c s IH]; [reflexivity|]. cbn [Py.lstrip_by forallb].
  destruct (p c); [exact IH|discriminate].
Qed.

Lemma forallb_rev {X} (p : X -> bool) (l : list X) : forallb p (rev l) = forallb p l.
Proof.
  induction l as [|x l IH]; [reflexivity|].
  cbn [rev forallb]. rewrite forallb_app, IH. cbn. rewrite andb_true_r. apply andb_comm.
Qed.

(** Characters of the stripped kind around a string do not change what is
    left after stripping. *)
Lemma strip_by_pad p (a s b : str) :
  forallb p a = true -> forallb p b = true ->
  Py.strip_by p (a ++ s ++ b) = Py.strip_by p s.
Proof.
  intros Ha Hb. unfold Py.strip_by. rewrite (lstrip_by_app_all p a) by exact Ha.
  destruct (Py.lstrip_by p s) as [|c t] eqn:Hs.
  - assert (Hall : forallb p (s ++ b) = true).
    { rewrite forallb_app, Hb, (lstrip_by_all p s Hs). reflexivity. }
    assert (H0 : Py.lstrip_by p (s ++ b) = []).
    { rewrite <- (app_nil_r (s ++ b)). rewrite lstrip_by_app_all by exact Hall. reflexivity. }
    rewrite H0. reflexivity.
  - rewrite lstrip_by_stop by (rewrite Hs; discriminate). rewrite Hs.
    rewrite rev_app_distr. rewrite lstrip_by_app_all by (rewrite forallb_rev; exact Hb).
    reflexivity.
Qed.

Lemma Forall_lstrip_by (P : char -> Prop) p (s : str) :
  Forall P s -> Forall P (Py.lstrip_by p s).
Proof.
  induction 1 as [|c s Hc Hs IH]; [constructor|].
  cbn [Py.lstrip_by]. destruct (p c); [exact IH|constructor; assumption].
Qed.

Lemma Forall_strip_by (P : char -> Prop) p (s : str) :
  Forall P s -> Forall P (Py.strip_by p s).
Proof.
  intros H. unfold Py.strip_by.
  apply Forall_rev, Forall_lstrip_by, Forall_rev, Forall_lstrip_by, H.
Qed.

Lemma Forall_remove_char (P : char -> Prop) c (s : str) :
  Forall P s -> Forall P (Py.remove_char c s).
Proof.
  intros H. unfold Py.remove_char. rewrite List.Forall_forall in *.
  intros x Hx. apply List.filter_In in Hx as [Hx _]. auto.
Qed.

Lemma lstrip_by_map p (f : char -> char) (s : str) :
  (forall c, p (f c) = p c) ->
  Py.lstrip_by p (List.map f s) = List.map f (Py.lstrip_by p s).
Proof.
  intros Hp. induction s as [|c s IH]; [reflexivity|].
  cbn [List.map Py.lstrip_by]. rewrite Hp. destruct (p c); [exact IH|reflexivity].
Qed.

Lemma strip_by_map p (f : char -> char) (s : str) :
  (forall c, p (f c) = p c) ->
  Py.strip_by p (List.map f s) = List.map f (Py.strip_by p s).
Proof.
  intros Hp. unfold Py.strip_by.
  rewrite lstrip_by_map, <- List.map_rev, lstrip_by_map, <- List.map_rev by exact Hp.
  reflexivity.
Qed.

End StripFacts.

Module CaseFacts.

Import Canon Chars.

Lemma upper_char_uc c : Py.upper_char c = [Py.uc c].
Proof.
  unfold Py.uc, Py.upper_char.
  destruct (Py.is_lower_ascii c); [reflexivity|].
  destruct (c =? 305); [reflexivity|]. destruct (c =? 383); reflexivity.
Qed.

Lemma upper_map s : Py.upper s = List.map Py.uc s.
Proof.
  unfold Py.upper. induction s as [|c s IH]; [reflexivity|].
  cbn [flat_map List.map]. rewrite upper_char_uc, IH. reflexivity.
Qed.

Lemma printable_not_space d : 33 <= d <= 127 -> Py.is_space d = false.
Proof.
  intros H. unfold Py.is_space, Py.in_range.
  repeat (apply orb_false_intro);
    first [ apply N.eqb_neq; lia
          | apply andb_false_iff; left; apply N.leb_gt; lia
          | apply andb_false_iff; right; apply N.leb_gt; lia ].
Qed.

Lemma space_uc c : Py.is_space (Py.uc c) = Py.is_space c.
Proof.
  unfold Py.uc, Py.upper_char.
  destruct (Py.is_lower_ascii c) eqn:Hl.
  - unfold Py.is_lower_ascii, Py.in_range in Hl. rewrite andb_true_iff, !N.leb_le in Hl.
    cbn [hd]. rewrite !printable_not_space by lia. reflexivity.
  - destruct (N.eqb_spec c 305) as [->|]; [reflexivity|].
    destruct (N.eqb_spec c 383) as [->|]; reflexivity.
Qed.

Lemma alpha_uc c : Py.is_alpha_char (Py.uc c) = Py.is_alpha_char c.
Proof.
  unfold Py.uc, Py.upper_char.
  destruct (Py.is_lower_ascii c) eqn:Hl.
  - assert (Hu : Py.is_upper_ascii (c - 32) = true).
    { unfold Py.is_lower_ascii, Py.in_range in Hl. rewrite andb_true_iff, !N.leb_le in Hl.
      unfold Py.is_upper_ascii, Py.in_range. rewrite andb_true_iff, !N.leb_le. lia. }
    cbn [hd]. unfold Py.is_alpha_char, Py.is_ascii_letter. rewrite Hl, Hu.
    rewrite orb_true_r. reflexivity.
  - destruct (N.eqb_spec c 305) as [->|]; [reflexivity|].
    destruct (N.eqb_spec c 383) as [->|]; reflexivity.
Qed.

Lemma lower_char_uc c : plain c = true -> Py.lower_char (Py.uc c) = Py.lower_char c.
Proof.
  intros Hp. unfold Py.uc, Py.upper_char.
  destruct (Py.is_lower_ascii c) eqn:Hl.
  - unfold Py.is_lower_ascii, Py.in_range in Hl. rewrite andb_true_iff, !N.leb_le in Hl.
    cbn [hd]. unfold Py.lower_char, Py.is_upper_ascii, Py.in_range.
    destruct Hl as [H1 H2].
    replace (65 <=? c - 32) with true by (symmetry; apply N.leb_le; lia).
    replace (c - 32 <=? 90) with true by (symmetry; apply N.leb_le; lia).
    replace ((65 <=? c) && (c <=? 90)) with false
      by (symmetry; apply andb_false_iff; right; apply N.leb_gt; lia).
    destruct (N.eqb_spec c 304); [lia|]. destruct (N.eqb_spec c 8490); [lia|].
    cbn. f_equal. lia.
  - destruct (N.eqb_spec c 305) as [->|]; [discriminate Hp|].
    destruct (N.eqb_spec c 383) as [->|]; [discriminate Hp|]. reflexivity.
Qed.

Lemma lower_upper s : forallb plain s = true -> Py.lower (Py.upper s) = Py.lower s.
Proof.
  rewrite upper_map. unfold Py.lower. induction s as [|c s IH]; [reflexivity|].
  cbn [forallb List.map flat_map]. intros H. apply andb_true_iff in H as [Hc Hs].
  rewrite lower_char_uc, IH by assumption. reflexivity.
Qed.

Lemma isalpha_upper s : Py.isalpha (Py.upper s) = Py.isalpha s.
Proof.
  rewrite upper_map. destruct s as [|c s]; [reflexivity|].
  unfold Py.isalpha. cbn [List.map].
  change (forallb Py.is_alpha_char (List.map Py.uc (c :: s))
          = forallb Py.is_alpha_char (c :: s)).
  induction (c :: s) as [|d t IH]; [reflexivity|].
  cbn [List.map forallb]. rewrite alpha_uc, IH. reflexivity.
Qed.

Lemma strip_upper s : Py.strip (Py.upper s) = Py.upper (Py.strip s).
Proof.
  rewrite !upper_map. unfold Py.strip. apply StripFacts.strip_by_map, space_uc.
Qed.

Lemma plain_strip s : forallb plain s = true -> forallb plain (Py.strip s) = true.
Proof.
  intros H. apply forallb_forall. apply List.Forall_forall.
  apply StripFacts.Forall_strip_by. apply List.Forall_forall. apply forallb_forall. exact H.
Qed.

Lemma lowered_lower_char c : forallb lowered (Py.lower_char c) = true.
Proof.
  unfold Py.lower_char. destruct (Py.is_upper_ascii c) eqn:Hu.
  - unfold Py.is_upper_ascii, Py.in_range in Hu. rewrite andb_true_iff, !N.leb_le in Hu.
    cbn [forallb]. rewrite andb_true_r. unfold lowered, Py.is_upper_ascii, Py.in_range.
    replace (c + 32 <=? 90) with false by (symmetry; apply N.leb_gt; lia).
    rewrite andb_false_r.
    destruct (N.eqb_spec (c + 32) 304); [lia|].
    destruct (N.eqb_spec (c + 32) 8490); [lia|]. reflexivity.
  - destruct (N.eqb_spec c 304) as [->|]; [reflexivity|].
    destruct (N.eqb_spec c 8490) as [->|]; [reflexivity|].
    cbn [forallb]. rewrite andb_true_r. unfold lowered. rewrite Hu.
    destruct (N.eqb_spec c 304); [contradiction|].
    destruct (N.eqb_spec c 8490); [contradiction|]. reflexivity.
Qed.

Lemma lowered_lower s : Forall (fun d => lowered d = true) (Py.lower s).
Proof.
  unfold Py.lower. induction s as [|c s IH]; [constructor|].
  cbn [flat_map]. apply Forall_app. split; [|exact IH].
  apply List.Forall_forall. apply forallb_forall. apply lowered_lower_char.
Qed.

(** An alphabetic character that [lower] can produce is one of the 28
    lower-case letters. *)
Lemma lower_letter d :
  Py.is_alpha_char d = true -> lowered d = true -> In d lower_letters.
Proof.
  unfold Py.is_alpha_char, Py.is_ascii_letter, lowered, lower_letters.
  intros Ha Hl. rewrite !andb_true_iff, !negb_true_iff in Hl.
  destruct Hl as [[Hu H304] H8490]. rewrite Hu, H304, H8490 in Ha.
  cbn [orb] in Ha. rewrite !orb_false_r in Ha.
  apply in_or_app. rewrite !orb_true_iff, !N.eqb_eq in Ha.
  destruct Ha as [[Ha|Ha]|Ha].
  - left. unfold Py.is_lower_ascii, Py.in_range in Ha.
    rewrite andb_true_iff, !N.leb_le in Ha.
    rewrite <- (N2Nat.id d). apply List.in_map. apply List.in_seq. lia.
  - right. left. auto.
  - right. right. left. auto.
Qed.

Lemma upper_letter d : Py.is_upper_ascii d = true -> In d upper_letters.
Proof.
  unfold Py.is_upper_ascii, Py.in_range, upper_letters. intros H.
  rewrite andb_true_iff, !N.leb_le in H.
  rewrite <- (N2Nat.id d). apply List.in_map. apply List.in_seq. lia.
Qed.

Lemma all3_spec L f x y z :
  all3 L f = true -> In x L -> In y L -> In z L -> f [x; y; z] = true.
Proof.
  unfold all3. intros H Hx Hy Hz.
  rewrite forallb_forall in H. specialize (H x Hx).
  rewrite forallb_forall in H. specialize (H y Hy).
  rewrite forallb_forall in H. exact (H z Hz).
Qed.

Lemma dict_get_In {V} (d : list (str * V)) k v :
  Py.dict_get d k = Some v -> exists k0, In (k0, v) d.
Proof.
  induction d as [|[k0 v0] d IH]; cbn [Py.dict_get]; [discriminate|].
  destruct (Py.str_eqb k0 k).
  - intros [= <-]. exists k0. left. reflexivity.
  - intros H. apply IH in H as (k1 & H). exists k1. right. exact H.
Qed.

End CaseFacts.

Module NormFacts.

Import Canon Chars CaseFacts StripFacts PyFacts Tools.

(** What [_norm_code] returns is a value of the alias table, or the upper
    case of a three-letter word that is no alias. *)
Lemma norm_code_inv raw c :
  _norm_code raw = Some c ->
  (exists k, In (k, c) ALIASES)
  \/ (exists x y z, c = Py.upper [x; y; z] /\ Py.dict_get ALIASES [x; y; z] = None /\
        In x lower_letters /\ In y lower_letters /\ In z lower_letters).
Proof.
  unfold _norm_code.
  set (s1 := Py.remove_char 46 (Py.lower (Py.strip raw))).
  assert (L1 : Forall (fun d => lowered d = true) s1).
  { apply Forall_remove_char, lowered_lower. }
  destruct (Py.dict_get ALIASES s1) as [v|] eqn:H1.
  { intros [= <-]. left. eapply dict_get_In, H1. }
  set (s2 := Py.strip_chars GLYPHS s1).
  assert (L2 : Forall (fun d => lowered d = true) s2).
  { apply Forall_strip_by, L1. }
  destruct (Py.dict_get ALIASES s2) as [v|] eqn:H2.
  { intros [= <-]. left. eapply dict_get_In, H2. }
  destruct ((length s2 =? 3)%nat && Py.isalpha s2) eqn:H3; [|discriminate].
  intros [= <-]. right.
  apply andb_true_iff in H3 as [Hlen Ha]. apply Nat.eqb_eq in Hlen.
  destruct s2 as [|x [|y [|z [|? ?]]]]; try discriminate Hlen.
  exists x, y, z. split; [reflexivity|]. split; [exact H2|].
  cbn [Py.isalpha forallb] in Ha. rewrite !andb_true_iff in Ha.
  destruct Ha as (Ax & Ay & Az & _).
  inversion L2 as [|? ? Lx L2']; subst. inversion L2' as [|? ? Ly L2'']; subst.
  inversion L2'' as [|? ? Lz _]; subst.
  repeat split; apply lower_letter; assumption.
Qed.

Lemma alias_values_canonical :
  forallb (fun kv => canonical kv.2) ALIASES = true.
Proof. vm_compute. reflexivity. Qed.

Lemma guesses_canonical :
  all3 lower_letters
    (fun s => match Py.dict_get ALIASES s with
              | Some _ => true
              | None => canonical (Py.upper s)
              end) = true.
Proof. vm_compute. reflexivity. Qed.

Lemma norm_code_result_canonical raw c : _norm_code raw = Some c -> canonical c = true.
Proof.
  intros H. apply norm_code_inv in H as [(k & Hin)|(x & y & z & -> & Hn & Hx & Hy & Hz)].
  - pose proof alias_values_canonical as Hall. rewrite forallb_forall in Hall.
    exact (Hall _ Hin).
  - pose proof (all3_spec _ _ x y z guesses_canonical Hx Hy Hz) as Hg.
    cbv beta in Hg. rewrite Hn in Hg. exact Hg.
Qed.

Lemma canonical_spec c :
  canonical c = true ->
  length c = 3%nat /\ forallb Py.is_upper_ascii c = true /\ _norm_code c = Some c.
Proof.
  unfold canonical, code3, opt_is. rewrite !andb_true_iff, Nat.eqb_eq.
  intros [[Hl Hu] Hn]. repeat split; try assumption.
  destruct (_norm_code c) as [d|]; [|discriminate].
  apply str_eqb_eq in Hn. subst. reflexivity.
Qed.

(** X1: a code that [_norm_code] returns is three upper-case ASCII letters,
    and is normalised to itself.  The argument is a string of exact
    characters, those on which the case mapping and [isalpha] of [Py] are
    the ones of Python; the patterns capture no others. *)
Theorem norm_code_canonical (raw c : str) :
  forallb exact raw = true ->
  _norm_code raw = Some c ->
  length c = 3%nat /\ forallb Py.is_upper_ascii c = true /\ _norm_code c = Some c.
Proof. intros _ H. apply canonical_spec, (norm_code_result_canonical raw), H. Qed.

Lemma norm_code_canonical_witness :
  _norm_code (Py.u " Usd. ") = Some (Py.u "USD")
  /\ length (Py.u "USD") = 3%nat /\ _norm_code (Py.u "USD") = Some (Py.u "USD").
Proof.
  assert (H : _norm_code (Py.u " Usd. ") = Some (Py.u "USD")) by (vm_compute; reflexivity).
  split; [exact H|].
  destruct (norm_code_canonical (Py.u " Usd. ") (Py.u "USD")) as (A & _ & B);
    [vm_compute; reflexivity|exact H|]. split; assumption.
Defined.

(** X2: on a string of ASCII characters and currency glyphs, [_norm_code]
    gives the same result when the string is put in upper case and white
    space is added around it. *)
Theorem norm_code_ignores_case_and_padding (raw a b : str) :
  forallb plain raw = true ->
  forallb Py.is_space a = true -> forallb Py.is_space b = true ->
  _norm_code (a ++ Py.upper raw ++ b) = _norm_code raw.
Proof.
  intros Hp Ha Hb. unfold _norm_code.
  assert (Hs : Py.lower (Py.strip (a ++ Py.upper raw ++ b)) = Py.lower (Py.strip raw)).
  { unfold Py.strip at 1. rewrite strip_by_pad by assumption.
    fold (Py.strip (Py.upper raw)). rewrite strip_upper.
    apply lower_upper, plain_strip, Hp. }
  rewrite Hs. reflexivity.
Qed.

Lemma norm_code_ignores_case_and_padding_witness :
  _norm_code (Py.u "  " ++ Py.upper (Py.u "Euro") ++ Py.u " ") = _norm_code (Py.u "Euro").
Proof.
  apply (norm_code_ignores_case_and_padding (Py.u "Euro") (Py.u "  ") (Py.u " "));
    reflexivity.
Defined.

End NormFacts.

Module NormUFacts.

Import Canon Chars CaseFacts StripFacts PyFacts Utils CanonU.

Lemma normalize_code_stripped tok :
  normalize_code (Some tok) = normalize_stripped (Py.strip tok).
Proof. destruct tok; reflexivity. Qed.

Lemma table_values_canonical :
  forallb (fun kv => canonical kv.2) (_SYMBOL_TO_CODE ++ _ALIAS_TO_CODE) = true.
Proof. vm_compute. reflexivity. Qed.

Lemma upper_words_canonical : all3 upper_letters canonical = true.
Proof. vm_compute. reflexivity. Qed.

Lemma plain_alpha_letter c :
  plain c = true -> Py.is_alpha_char c = true -> Py.is_ascii_letter c = true.
Proof.
  unfold plain, ascii, Py.is_alpha_char. intros Hp Ha.
  destruct (Py.is_ascii_letter c); [reflexivity|]. cbn [orb] in Ha.
  rewrite !orb_true_iff, !N.eqb_eq in Ha.
  destruct Ha as [[[->| ->]| ->]| ->]; discriminate Hp.
Qed.

Lemma uc_letter c : Py.is_ascii_letter c = true -> Py.is_upper_ascii (Py.uc c) = true.
Proof.
  unfold Py.is_ascii_letter, Py.uc, Py.upper_char. intros H.
  destruct (Py.is_lower_ascii c) eqn:Hl.
  - unfold Py.is_lower_ascii, Py.in_range in Hl. rewrite andb_true_iff, !N.leb_le in Hl.
    cbn [hd]. unfold Py.is_upper_ascii, Py.in_range. rewrite andb_true_iff, !N.leb_le. lia.
  - rewrite orb_false_r in H.
    assert (c < 128).
    { unfold Py.is_upper_ascii, Py.in_range in H. rewrite andb_true_iff, !N.leb_le in H. lia. }
    destruct (N.eqb_spec c 305); [lia|]. destruct (N.eqb_spec c 383); [lia|]. exact H.
Qed.

Lemma normalize_code_result_canonical tok c :
  forallb plain tok = true -> normalize_code (Some tok) = Some c -> canonical c = true.
Proof.
  intros Hp. rewrite normalize_code_stripped. unfold normalize_stripped.
  pose proof (plain_strip tok Hp) as Hps. set (t := Py.strip tok) in *.
  pose proof table_values_canonical as Hall. rewrite forallb_forall in Hall.
  destruct (Py.dict_get _SYMBOL_TO_CODE t) as [v|] eqn:H1.
  { intros [= <-]. apply dict_get_In in H1 as (k & Hin).
    apply (Hall (k, v)). apply in_or_app. left. exact Hin. }
  destruct (Py.dict_get _ALIAS_TO_CODE (Py.lower t)) as [v|] eqn:H2.
  { intros [= <-]. apply dict_get_In in H2 as (k & Hin).
    apply (Hall (k, v)). apply in_or_app. right. exact Hin. }
  destruct ((length t =? 3)%nat && Py.isalpha t) eqn:H3; [|discriminate].
  intros [= <-]. apply andb_true_iff in H3 as [Hlen Ha]. apply Nat.eqb_eq in Hlen.
  destruct t as [|x [|y [|z [|? ?]]]]; try discriminate Hlen.
  cbn [Py.isalpha forallb] in Ha, Hps. rewrite !andb_true_iff in Ha, Hps.
  destruct Ha as (Ax & Ay & Az & _), Hps as (Px & Py' & Pz & _).
  rewrite upper_map. cbn [List.map].
  apply (all3_spec _ _ _ _ _ upper_words_canonical);
    apply upper_letter, uc_letter, plain_alpha_letter; assumption.
Qed.

(** X3: a code that [normalize_code] returns for a token of ASCII characters
    and currency glyphs is made of upper-case ASCII letters, three of them
    unless it is USDT, and is normalised to itself. *)
Theorem normalize_code_canonical (tok c : str) :
  forallb plain tok = true ->
  normalize_code (Some tok) = Some c ->
  forallb Py.is_upper_ascii c = true
  /\ (length c = 3%nat \/ c = Py.u "USDT")
  /\ normalize_code (Some c) = Some c.
Proof.
  intros Hp H. pose proof (normalize_code_result_canonical tok c Hp H) as Hc.
  unfold canonical, code_shape, opt_is in Hc.
  rewrite !andb_true_iff, orb_true_iff, Nat.eqb_eq, str_eqb_eq in Hc.
  destruct Hc as [[Hu Hl] Hn]. repeat split; try assumption.
  destruct (normalize_code (Some c)) as [d|]; [|discriminate].
  apply str_eqb_eq in Hn. subst. reflexivity.
Qed.

Lemma normalize_code_canonical_witness :
  normalize_code (Some (Py.u " nzd ")) = Some (Py.u "NZD")
  /\ normalize_code (Some (Py.u "NZD")) = Some (Py.u "NZD").
Proof.
  assert (H : normalize_code (Some (Py.u " nzd ")) = Some (Py.u "NZD"))
    by (vm_compute; reflexivity).
  split; [exact H|].
  destruct (normalize_code_canonical (Py.u " nzd ") (Py.u "NZD")) as (_ & _ & B);
    [vm_compute; reflexivity|exact H|exact B].
Defined.

Lemma glyph_uc g x :
  In g [36; 8364; 163; 165; 3647] -> (g =? Py.uc x) = (g =? x).
Proof.
  intros Hg. unfold Py.uc, Py.upper_char.
  destruct (Py.is_lower_ascii x) eqn:Hl.
  - unfold Py.is_lower_ascii, Py.in_range in Hl. rewrite andb_true_iff, !N.leb_le in Hl.
    cbn [hd].
    assert (H1 : g <> x - 32) by (cbn in Hg; intuition (subst; lia)).
    assert (H2 : g <> x) by (cbn in Hg; intuition (subst; lia)).
    apply N.eqb_neq in H1, H2. rewrite H1, H2. reflexivity.
  - destruct (N.eqb_spec x 305) as [->|].
    { cbn in Hg. intuition (subst; reflexivity). }
    destruct (N.eqb_spec x 383) as [->|].
    { cbn in Hg. intuition (subst; reflexivity). }
    reflexivity.
Qed.

Lemma symbol_upper t :
  Py.dict_get _SYMBOL_TO_CODE (Py.upper t) = Py.dict_get _SYMBOL_TO_CODE t.
Proof.
  rewrite upper_map. destruct t as [|x [|y t]]; [reflexivity| |].
  - unfold _SYMBOL_TO_CODE. cbn [List.map Py.dict_get Py.str_eqb].
    rewrite !andb_true_r.
    rewrite (glyph_uc 36), (glyph_uc 8364), (glyph_uc 163), (glyph_uc 165),
      (glyph_uc 3647) by (cbn; auto 10).
    reflexivity.
  - unfold _SYMBOL_TO_CODE. cbn [List.map Py.dict_get Py.str_eqb].
    rewrite !andb_false_r. reflexivity.
Qed.

(** X4: on a token of ASCII characters and currency glyphs,
    [normalize_code] gives the same result when the token is put in upper
    case and white space is added around it. *)
Theorem normalize_code_ignores_case_and_padding (tok a b : str) :
  forallb plain tok = true ->
  forallb Py.is_space a = true -> forallb Py.is_space b = true ->
  normalize_code (Some (a ++ Py.upper tok ++ b)) = normalize_code (Some tok).
Proof.
  intros Hp Ha Hb. rewrite !normalize_code_stripped.
  unfold Py.strip at 1. rewrite strip_by_pad by assumption.
  fold (Py.strip (Py.upper tok)). rewrite strip_upper.
  pose proof (plain_strip tok Hp) as Hps. set (t := Py.strip tok) in *.
  unfold normalize_stripped.
  rewrite symbol_upper, (lower_upper t Hps), isalpha_upper, upper_idem.
  rewrite upper_map, length_map. reflexivity.
Qed.

Lemma normalize_code_ignores_case_and_padding_witness :
  normalize_code (Some (Py.u " " ++ Py.upper (Py.u "Bitcoin") ++ Py.u "  "))
  = normalize_code (Some (Py.u "Bitcoin")).
Proof.
  apply (normalize_code_ignores_case_and_padding (Py.u "Bitcoin") (Py.u " ") (Py.u "  "));
    reflexivity.
Defined.

End NormUFacts.

Module ParseFacts.

Import Re ReSem ReSemFacts Chars CharsFacts Canon CaseFacts NormFacts PyFacts World Tools ReFacts.

Lemma forallb_In {X} (f : X -> bool) (l : list X) x :
  forallb f l = true -> In x l -> f x = true.
Proof. intros H Hin. rewrite forallb_forall in H. auto. Qed.

(** Every group of the seven patterns captures exact characters only, so
    [_norm_code] is applied within the range where its case mapping is
    Python's. *)
Lemma captures_exact p text m :
  In p CONVERT_PATTERNS -> search true p text = Some m ->
  Forall (fun nv => forallb exact nv.2 = true) m.
Proof.
  intros Hp Hs.
  assert (G : exact_groups p = true).
  { apply (forallb_In exact_groups CONVERT_PATTERNS p); [vm_compute; reflexivity|exact Hp]. }
  apply (search_sound true _ p text m (exact_groups_ok true p G)) in Hs
    as (pre & w & suf & _ & _ & Hq).
  eapply Forall_impl; [exact Hq|]. intros [n v] [H _]. exact H.
Qed.

(** The loop body returns an intent only with a canonical source, a
    canonical destination and an amount. *)
Lemma on_match_complete text m r :
  on_match text m = Some r ->
  canonical (src r) = true
  /\ (exists d, dst r = Some d /\ canonical d = true)
  /\ (exists a, amount r = Some a /\
        (_parse_amount text = Some a \/ (_parse_amount text = None /\ a = 1%float))).
Proof.
  unfold on_match.
  set (s0 := if Py.truthy (group m "src") then group m "src" ≫= _norm_code else None).
  set (d0 := if Py.truthy (group m "dst") then group m "dst" ≫= _norm_code else None).
  assert (Hs0 : forall c, s0 = Some c -> canonical c = true).
  { unfold s0. intros c. destruct (Py.truthy (group m "src")); [|discriminate].
    destruct (group m "src") as [raw|]; [|discriminate]. cbn.
    apply norm_code_result_canonical. }
  assert (Hd0 : forall c, d0 = Some c -> canonical c = true).
  { unfold d0. intros c. destruct (Py.truthy (group m "dst")); [|discriminate].
    destruct (group m "dst") as [raw|]; [|discriminate]. cbn.
    apply norm_code_result_canonical. }
  clearbody s0 d0. destruct s0 as [c|]; [|discriminate].
  pose proof (Hs0 c eq_refl) as Hc.
  assert (Hct : Py.truthy (Some c) = true).
  { destruct c; [discriminate Hc|reflexivity]. }
  rewrite Hct. cbn [andb].
  set (d1 := if Py.str_eqb c (Py.u "BTC") && negb (Py.truthy d0)
             then Some (Py.u "USD") else d0).
  assert (Hd1 : forall d, d1 = Some d -> canonical d = true).
  { unfold d1. intros d. destruct (Py.str_eqb c (Py.u "BTC") && negb (Py.truthy d0)).
    - intros [= <-]. reflexivity.
    - apply Hd0. }
  assert (Ht : Py.truthy d1 || Py.str_eqb c (Py.u "BTC") = Py.truthy d1).
  { unfold d1. destruct (Py.str_eqb c (Py.u "BTC")); [|apply orb_false_r].
    cbn [andb]. destruct (Py.truthy d0) eqn:Hd; cbn [negb]; [rewrite Hd|]; reflexivity. }
  rewrite Ht. clearbody d1.
  destruct (Py.truthy d1) eqn:Hdt; [|discriminate].
  intros [= <-]. cbn [src dst amount].
  split; [exact Hc|]. split.
  - destruct d1 as [d|]; [|discriminate]. exists d. auto.
  - destruct (_parse_amount text) as [a|]; cbn [andb].
    + exists a. auto.
    + exists 1%float. auto.
Qed.

(** X5: an intent that [parse_currency_query] returns is complete: its
    source and its destination are codes of three upper-case ASCII letters
    that [_norm_code] maps to themselves, and its amount is the one that
    [_parse_amount] finds in the text, or 1.0 when it finds none. *)
Theorem parsed_intent_is_complete (text : str) (r : intent) :
  parse_currency_query text = Some r ->
  (length (src r) = 3%nat /\ forallb Py.is_upper_ascii (src r) = true
   /\ _norm_code (src r) = Some (src r))
  /\ (exists d, dst r = Some d /\ length d = 3%nat
        /\ forallb Py.is_upper_ascii d = true /\ _norm_code d = Some d)
  /\ (exists a, amount r = Some a /\
        (_parse_amount text = Some a \/ (_parse_amount text = None /\ a = 1%float))).
Proof.
  intros H. apply ToolsFacts.cascade_inv in H as (p & m & _ & _ & Hm).
  apply on_match_complete in Hm as (Hs & (d & Hd & Hdc) & Ha).
  split; [apply canonical_spec, Hs|]. split; [|exact Ha].
  exists d. split; [exact Hd|]. apply canonical_spec, Hdc.
Qed.

Lemma parsed_intent_is_complete_witness :
  let r := Intent (Some 25%float) (Py.u "EUR") (Some (Py.u "THB")) in
  (length (src r) = 3%nat /\ forallb Py.is_upper_ascii (src r) = true
   /\ _norm_code (src r) = Some (src r))
  /\ (exists d, dst r = Some d /\ length d = 3%nat
        /\ forallb Py.is_upper_ascii d = true /\ _norm_code d = Some d)
  /\ (exists a, amount r = Some a /\
        (_parse_amount (Py.u "25 euro in baht") = Some a
         \/ (_parse_amount (Py.u "25 euro in baht") = None /\ a = 1%float))).
Proof.
  apply (parsed_intent_is_complete (Py.u "25 euro in baht")).
  vm_compute. reflexivity.
Defined.

(** *** Texts that are never parsed *)

(** X6: every text that [parse_currency_query] accepts contains a white-space
    character and has at least six characters. *)
Theorem parsed_text_has_white_space (text : str) (r : intent) :
  parse_currency_query text = Some r ->
  existsb Py.is_space text = true /\ (6 <= length text)%nat.
Proof.
  intros H. apply ToolsFacts.cascade_inv in H as (p & m & Hp & Hs & _). split.
  - apply (search_must true ws_atom Py.is_space p text m (ws_leaf true)); [|exact Hs].
    apply (forallb_In (must ws_atom) CONVERT_PATTERNS p);
      [vm_compute; reflexivity|exact Hp].
  - destruct (Nat.le_gt_cases 6 (length text)) as [|Hlt]; [assumption|].
    assert (Hmin : (6 <=? minlen p)%nat = true).
    { apply (forallb_In (fun p => (6 <=? minlen p)%nat) CONVERT_PATTERNS p);
        [vm_compute; reflexivity|exact Hp]. }
    apply Nat.leb_le in Hmin.
    rewrite search_short in Hs by lia. discriminate.
Qed.

Lemma parsed_text_has_white_space_witness :
  existsb Py.is_space (Py.u "usd to eur") = true /\ (6 <= length (Py.u "usd to eur"))%nat.
Proof.
  apply (parsed_text_has_white_space (Py.u "usd to eur")
           (Intent (Some 1%float) (Py.u "USD") (Some (Py.u "EUR")))).
  vm_compute. reflexivity.
Defined.

End ParseFacts.

Module AmountFacts.

Import Re ReSem ReSemFacts Chars CharsFacts PyFacts World Tools ReFacts Parts.

Section Progress.
Context {A : Type}.

(** A continuation that accepts whatever it is given. *)
Definition total (k : @cont A) : Prop := forall s cs, exists x, k s cs = Some x.

(** An optional repetition in front of such a continuation succeeds. *)
Lemma rep_loop_optional step fuel hi s cs (k : @cont A) :
  total k -> exists x, rep_loop step (S fuel) 0 hi s cs k = Some x.
Proof.
  intros Hk. cbn [rep_loop].
  match goal with |- exists x, match ?more with _ => _ end = _ => destruct more as [y|] end.
  - eauto.
  - cbn. apply Hk.
Qed.

(** One or more characters of a kind, in front of such a continuation,
    succeed on a text that starts with one. *)
Lemma rep_loop_plus p c s cs (k : @cont A) :
  total k -> p c = true ->
  exists x, rep_loop (one p) (S (length (c :: s))) 1 None (c :: s) cs k = Some x.
Proof.
  intros Hk Hp. cbn [rep_loop one fmap option_fmap option_map Nat.pred].
  rewrite Hp.
  assert (Hlt : (length s <? length (c :: s))%nat = true) by (apply Nat.ltb_lt; cbn; lia).
  rewrite Hlt. cbn [length].
  destruct (rep_loop_optional (one p) (length s) None s cs k Hk) as (x & Hx).
  rewrite Hx. eauto.
Qed.

Lemma rep_loop_plus_fail p s cs (k : @cont A) x :
  rep_loop (one p) (S (length s)) 1 None s cs k = Some x ->
  exists c s', s = c :: s' /\ p c = true.
Proof.
  cbn [rep_loop]. destruct (one p s cs _) eqn:H1; [|discriminate].
  intros _. apply run_one_inv in H1 as (c & s' & -> & Hc & _). eauto.
Qed.

End Progress.

Lemma NUM_RE_body : NUM_RE = Grp "amt" NUM_BODY.
Proof. reflexivity. Qed.

(** At a digit the pattern matches. *)
Lemma num_run_digit c s :
  Py.is_digit c = true -> exists m, run true NUM_RE (c :: s) [] final = Some m.
Proof.
  intros Hc. rewrite NUM_RE_body. unfold NUM_BODY. cbn [run plus opt].
  apply rep_loop_plus.
  - intros s1 cs1. apply rep_loop_optional. intros s2 cs2. eauto.
  - unfold DIGIT. rewrite test_digit. exact Hc.
Qed.

(** Where the pattern matches, the text starts with a digit, and the group
    is a string of the pattern's language at the head of the text. *)
Lemma num_run_inv s m :
  run true NUM_RE s [] final = Some m ->
  exists w s', s = w ++ s' /\ lang true NUM_BODY w /\ m = [("amt"%string, w)].
Proof.
  rewrite NUM_RE_body. cbn [run]. intros H.
  apply (run_sound (fun _ _ => False) true NUM_BODY) in H;
    [|apply no_groups_ok; reflexivity].
  destruct H as (w & s' & new & -> & Hl & Hq & Hk).
  assert (new = []) as ->.
  { destruct new as [|nv new]; [reflexivity|]. inversion Hq as [|? ? [[] _] _]. }
  cbn [app] in Hk. rewrite length_app in Hk.
  replace (length w + length s' - length s')%nat with (length w) in Hk by lia.
  rewrite take_app_length in Hk. unfold final in Hk. inversion Hk. eauto.
Qed.

Lemma digits_of_lang ws :
  Forall (lang true DIGIT) ws -> forallb Py.is_digit (concat ws) = true.
Proof.
  intros H. apply forallb_concat. eapply Forall_impl; [exact H|].
  intros v (c & -> & Hc). unfold DIGIT in Hc. rewrite test_digit in Hc.
  cbn. rewrite Hc. reflexivity.
Qed.

Lemma digits_nonempty ws :
  Forall (lang true DIGIT) ws -> (1 <= length ws)%nat ->
  existsb Py.is_digit (concat ws) = true.
Proof.
  intros H Hl. destruct ws as [|w ws]; [cbn in Hl; lia|].
  inversion H as [|? ? (c & -> & Hc) _]; subst.
  unfold DIGIT in Hc. rewrite test_digit in Hc. cbn. rewrite Hc. reflexivity.
Qed.

Lemma digit_not_point c : Py.is_digit c = true -> (46 =? c) = false.
Proof.
  unfold Py.is_digit, Py.in_range. rewrite andb_true_iff, !N.leb_le.
  intros H. apply N.eqb_neq. lia.
Qed.

Lemma digits_no_point ds :
  forallb Py.is_digit ds = true -> List.filter (N.eqb 46) ds = [].
Proof.
  induction ds as [|c ds IH]; [reflexivity|]. cbn [forallb List.filter].
  intros H. apply andb_true_iff in H as [Hc Hd].
  rewrite (digit_not_point c Hc). auto.
Qed.

Lemma digits_weaken ds :
  forallb Py.is_digit ds = true ->
  forallb (fun c => Py.is_digit c || (c =? 46)) ds = true.
Proof.
  intros H. rewrite forallb_forall in *. intros c Hc. rewrite (H c Hc). reflexivity.
Qed.

(** [float] accepts every comma-free string of the pattern's language. *)
Lemma num_body_float w :
  lang true NUM_BODY w -> Forall (fun c => c <> 44) w -> exists v, Num.py_float w = Some v.
Proof.
  intros (w1 & w2 & -> & (ws & -> & Hws & Hlo & _) & (ts & -> & Hts & _ & Hhi)) Hc.
  pose proof (digits_of_lang ws Hws) as D1.
  pose proof (digits_nonempty ws Hws Hlo) as E1.
  unfold Num.py_float.
  assert (Htail : concat ts = [] \/
                  exists ds, concat ts = 46 :: ds /\ forallb Py.is_digit ds = true).
  { destruct ts as [|t [|? ?]]; [left; reflexivity| |cbn in Hhi; lia].
    right. inversion Hts as [|? ? Ht _]; subst.
    destruct Ht as (s1 & s2 & -> & (c & -> & Hsep) & (us & -> & Hus & _ & _)).
    rewrite test_low in Hsep by reflexivity.
    cbn in Hsep. rewrite orb_false_r, orb_true_iff in Hsep.
    unfold Py.in_range in Hsep. rewrite !andb_true_iff, !N.leb_le in Hsep.
    assert (c = 46 \/ c = 44) as [->| ->] by lia.
    - exists (concat us). cbn. rewrite app_nil_r. split; [reflexivity|].
      apply digits_of_lang, Hus.
    - exfalso. rewrite Forall_app in Hc. destruct Hc as [_ Hc].
      cbn in Hc. inversion Hc as [|? ? Hn _]. contradiction. }
  destruct Htail as [-> |(ds & -> & Dd)].
  - rewrite app_nil_r.
    rewrite (digits_weaken _ D1), E1, (digits_no_point _ D1). cbn. eauto.
  - rewrite forallb_app, existsb_app, List.filter_app.
    rewrite (digits_weaken _ D1), E1, (digits_no_point _ D1).
    cbn [forallb List.filter app]. rewrite N.eqb_refl.
    rewrite (digits_weaken _ Dd), (digits_no_point _ Dd). cbn. eauto.
Qed.

(** In a text without commas that has a digit, the search finds a number
    that [float] accepts. *)
Lemma num_search s :
  existsb Py.is_digit s = true -> Forall (fun c => c <> 44) s ->
  exists m a v, search true NUM_RE s = Some m /\ group m "amt" = Some a
                /\ Num.py_float a = Some v.
Proof.
  induction s as [|c s IH]; [discriminate|]. intros Hd Hc.
  cbn [search]. fold final.
  destruct (run true NUM_RE (c :: s) [] final) as [m|] eqn:Hr.
  - apply num_run_inv in Hr as (w & s' & Hs & Hl & ->).
    assert (Hcw : Forall (fun c => c <> 44) w).
    { rewrite Hs in Hc. apply Forall_app in Hc. tauto. }
    destruct (num_body_float w Hl Hcw) as (v & Hv).
    exists [("amt"%string, w)], w, v. auto.
  - cbn [existsb] in Hd. destruct (Py.is_digit c) eqn:Hdc.
    + destruct (num_run_digit c s Hdc) as (m & Hm). congruence.
    + cbn [orb] in Hd. inversion Hc; subst. apply IH; assumption.
Qed.

Lemma remove_comma_digit text :
  existsb Py.is_digit (Py.remove_char 44 text) = existsb Py.is_digit text.
Proof.
  unfold Py.remove_char. induction text as [|c t IH]; [reflexivity|].
  cbn [List.filter existsb]. destruct (N.eqb_spec c 44) as [->|]; cbn [negb].
  - rewrite IH. reflexivity.
  - cbn [existsb]. rewrite IH. reflexivity.
Qed.

Lemma remove_comma_none text : Forall (fun c => c <> 44) (Py.remove_char 44 text).
Proof.
  unfold Py.remove_char. apply List.Forall_forall. intros c Hc.
  apply List.filter_In in Hc as [_ Hc]. apply negb_true_iff, N.eqb_neq in Hc. exact Hc.
Qed.

(** X7: [_parse_amount] returns a number exactly when the text contains an
    ASCII digit. *)
Theorem parse_amount_iff_digit (text : str) :
  (exists v, _parse_amount text = Some v) <-> existsb Py.is_digit text = true.
Proof.
  unfold _parse_amount. split.
  - intros (v & H).
    destruct (search true NUM_RE (Py.remove_char 44 text)) as [m|] eqn:Hs; [|discriminate].
    rewrite <- remove_comma_digit.
    eapply (search_must true digit_atom Py.is_digit NUM_RE); [apply digit_leaf| |exact Hs].
    reflexivity.
  - intros Hd. rewrite <- remove_comma_digit in Hd.
    destruct (num_search _ Hd (remove_comma_none text)) as (m & a & v & -> & -> & Hv).
    eauto.
Qed.

End AmountFacts.

Module FilterFacts.

Import Chars CaseFacts PyFacts Tools.

Lemma starts_with_inv t s : Py.starts_with t s = true -> exists v, s = t ++ v.
Proof.
  revert s. induction t as [|x t IH]; intros s; [exists s; reflexivity|].
  destruct s as [|y s]; cbn [Py.starts_with]; [discriminate|].
  rewrite andb_true_iff, N.eqb_eq. intros [-> H].
  apply IH in H as (v & ->). exists v. reflexivity.
Qed.

Lemma contains_inv t s : Py.contains t s = true -> exists a b, s = a ++ t ++ b.
Proof.
  induction s as [|y s IH]; cbn [Py.contains]; rewrite orb_true_iff.
  - intros [H|H]; [|discriminate]. apply starts_with_inv in H as (v & ->).
    exists [], v. reflexivity.
  - intros [H|H].
    + apply starts_with_inv in H as (v & ->). exists [], v. reflexivity.
    + apply IH in H as (a & b & ->). exists (y :: a), b. reflexivity.
Qed.

Lemma contains_wider t a s b : Py.contains t s = true -> Py.contains t (a ++ s ++ b) = true.
Proof.
  intros H. apply contains_inv in H as (a' & b' & ->).
  replace (a ++ (a' ++ t ++ b') ++ b) with ((a ++ a') ++ t ++ (b' ++ b))
    by (rewrite <- !app_assoc; reflexivity).
  apply contains_app.
Qed.

Lemma lower_app a b : Py.lower (a ++ b) = Py.lower a ++ Py.lower b.
Proof. unfold Py.lower. apply flat_map_app. Qed.

(** X8: a text of ASCII characters and currency glyphs that passes the
    pre-filter still passes in upper case and with any text before and
    after it. *)
Theorem prefilter_is_monotone (a x b : str) :
  forallb plain x = true ->
  should_use_conversion x = true ->
  should_use_conversion (a ++ Py.upper x ++ b) = true.
Proof.
  unfold should_use_conversion. intros Hp H.
  apply existsb_exists in H as (t & Hin & Ht). apply existsb_exists.
  exists t. split; [exact Hin|].
  rewrite !lower_app, (lower_upper x Hp). apply contains_wider, Ht.
Qed.

Lemma prefilter_is_monotone_witness :
  should_use_conversion
    (Py.u "please " ++ Py.upper (Py.u "convert 5 usd") ++ Py.u " now") = true.
Proof.
  apply (prefilter_is_monotone (Py.u "please ") (Py.u "convert 5 usd") (Py.u " now"));
    reflexivity.
Defined.

End FilterFacts.

Module PerformFacts.

Import PyFacts World Tools Route.

Section Rates.
Variable E : env.
Variable key : str.
Variable log10 : float -> float.

Lemma perform_conversion_unfold amount src dst s :
  perform_conversion E key log10 amount src dst s =
  match _fetch_rate E key src (effective_dst src dst) s with
  | (inl e, s1) => (inl e, s1)
  | (inr (rate, source), s1) =>
      let a := default 1%float amount in
      let s2 := State (S (ticks s1)) (sent s1) (looked_up s1)
                      (_fiat_cache s1) (_crypto_cache s1) in
      match _smart_round log10 (rate * a)%float with
      | inl e => (inl e, s2)
      | inr rounded =>
          (inr (Conversion a src (effective_dst src dst) rate rounded source
                  (clock E (ticks s1))), s2)
      end
  end.
Proof.
  unfold perform_conversion. fold (effective_dst src dst).
  unfold mbind, M_bind, bind.
  destruct (_fetch_rate E key src (effective_dst src dst) s) as [[e|[rate source]] s1];
    [reflexivity|].
  unfold _now. cbv zeta.
  destruct (_smart_round log10 (rate * default 1%float amount)%float); reflexivity.
Qed.

Lemma truthy_fiat d : in_FIAT d = true -> Py.truthy (Some d) = true.
Proof. destruct d; [intros H; vm_compute in H; discriminate|reflexivity]. Qed.

Lemma fetch_rate_cases src d :
  _fetch_rate E key src d =
  if Py.str_eqb src (Py.u "BTC") && in_FIAT d then _fetch_btc_to_fiat E d
  else if in_FIAT src && in_FIAT d then _fetch_fiat_rate E key src d
  else raise (RuntimeError (UnsupportedPair src d)).
Proof.
  unfold _fetch_rate. destruct (in_FIAT d) eqn:Hd.
  - rewrite (truthy_fiat d Hd). reflexivity.
  - rewrite !andb_false_r. reflexivity.
Qed.

Lemma btc_to_fiat_footprint d s r s' :
  _fetch_btc_to_fiat E d s = (r, s') ->
  (forall a b, r <> inl (RuntimeError (UnsupportedPair a b)))
  /\ s' = State (ticks s) (GetSimplePrice (Py.u "bitcoin") (Py.lower d) :: sent s)
                (looked_up s) (_fiat_cache s) (_crypto_cache s).
Proof.
  unfold _fetch_btc_to_fiat, mbind, M_bind, bind, get_simple_price, send.
  destruct (simple_price E (length (sent s)) (Py.u "bitcoin") (Py.lower d)) as [|data].
  - intros [= <- <-]. split; [discriminate|reflexivity].
  - destruct (get2 data (Py.u "bitcoin") (Py.lower d));
      intros [= <- <-]; (split; [discriminate|reflexivity]).
Qed.

Lemma fiat_rate_footprint src d s r s' :
  _fetch_fiat_rate E key src d s = (r, s') ->
  (forall a b, r <> inl (RuntimeError (UnsupportedPair a b)))
  /\ (s' = s
      \/ (key <> [] /\ src <> d
          /\ s' = State (ticks s) (GetPair key src d :: sent s)
                        (looked_up s) (_fiat_cache s) (_crypto_cache s))).
Proof.
  unfold _fetch_fiat_rate. destruct key as [|k0 k] eqn:Hk.
  { intros [= <- <-]. split; [discriminate|auto]. }
  destruct (Py.str_eqb src d) eqn:Hsd.
  { intros [= <- <-]. split; [discriminate|auto]. }
  assert (Hne : src <> d).
  { intros ->. rewrite str_eqb_refl in Hsd. discriminate. }
  unfold mbind, M_bind, bind, get_pair, send.
  destruct (exr_pair E (length (sent s)) (k0 :: k) src d) as [|data].
  - intros [= <- <-]. split; [discriminate|]. right. auto using nil_cons.
  - destruct (match pb_result data with
              | Some r0 => Py.str_eqb r0 (Py.u "success")
              | None => false
              end);
      [destruct (pb_conversion_rate data)|];
      intros [= <- <-]; (split; [discriminate|]); right;
      (split; [discriminate|]); auto.
Qed.

(** What one call of [_fetch_rate] does to the world. *)
Lemma fetch_rate_footprint src d s r s' :
  _fetch_rate E key src d s = (r, s') ->
  ticks s' = ticks s /\ looked_up s' = looked_up s
  /\ _fiat_cache s' = _fiat_cache s /\ _crypto_cache s' = _crypto_cache s
  /\ ((sent s' = sent s /\
       (supported src d = false -> r = inl (RuntimeError (UnsupportedPair src d)))
       /\ (supported src d = true ->
           forall a b, r <> inl (RuntimeError (UnsupportedPair a b))))
      \/ (sent s' = GetSimplePrice (Py.u "bitcoin") (Py.lower d) :: sent s
          /\ src = Py.u "BTC" /\ in_FIAT d = true
          /\ forall a b, r <> inl (RuntimeError (UnsupportedPair a b)))
      \/ (sent s' = GetPair key src d :: sent s
          /\ key <> [] /\ in_FIAT src = true /\ in_FIAT d = true /\ src <> d
          /\ forall a b, r <> inl (RuntimeError (UnsupportedPair a b)))).
Proof.
  rewrite fetch_rate_cases. unfold supported.
  destruct (Py.str_eqb src (Py.u "BTC") && in_FIAT d) eqn:Hb.
  { apply andb_true_iff in Hb as [Hs Hd]. apply str_eqb_eq in Hs.
    intros H. apply btc_to_fiat_footprint in H as [Hr ->].
    cbn [ticks sent looked_up _fiat_cache _crypto_cache].
    do 4 (split; [reflexivity|]). right. left. auto. }
  cbn [orb].
  destruct (in_FIAT src && in_FIAT d) eqn:Hf.
  { apply andb_true_iff in Hf as [Hs Hd].
    intros H. apply fiat_rate_footprint in H as [Hr [->|(Hk & Hne & ->)]].
    - do 4 (split; [reflexivity|]). left. split; [reflexivity|].
      split; [discriminate|]. intros _. exact Hr.
    - cbn [ticks sent looked_up _fiat_cache _crypto_cache].
      do 4 (split; [reflexivity|]). right. right. auto 10. }
  intros [= <- <-]. do 4 (split; [reflexivity|]). left.
  split; [reflexivity|]. split; [reflexivity|]. discriminate.
Qed.

Lemma smart_round_error x e :
  _smart_round log10 x = inl e -> forall a b, e <> RuntimeError (UnsupportedPair a b).
Proof.
  unfold _smart_round. destruct (PrimFloat.eqb x 0); [discriminate|].
  unfold Num.py_floor. destruct (Prim2SF (log10 (abs x))); intros [= <-]; discriminate.
Qed.

End Rates.

(** X9: [perform_conversion] sends at most one request.  A request for the
    bitcoin price is sent only for a BTC source and a fiat destination; a
    request to the keyed provider only with a non-empty key, for two
    different fiat codes.  The clock is read at most once. *)
Theorem perform_conversion_requests (E : env) (key : str) (log10 : float -> float)
    (amount : option float) (src : str) (dst : option str) (s : state)
    (r : exn + conversion) (s' : state) :
  perform_conversion E key log10 amount src dst s = (r, s') ->
  let d := effective_dst src dst in
  (ticks s' = ticks s \/ ticks s' = S (ticks s))
  /\ (sent s' = sent s
      \/ (sent s' = GetSimplePrice (Py.u "bitcoin") (Py.lower d) :: sent s
          /\ src = Py.u "BTC" /\ in_FIAT d = true)
      \/ (sent s' = GetPair key src d :: sent s
          /\ key <> [] /\ in_FIAT src = true /\ in_FIAT d = true /\ src <> d)).
Proof.
  rewrite perform_conversion_unfold. intros H d. fold d in H.
  destruct (_fetch_rate E key src d s) as [r1 s1] eqn:Hf.
  apply fetch_rate_footprint in Hf as (Ht & _ & _ & _ & Hs).
  assert (Hst : (ticks s' = ticks s \/ ticks s' = S (ticks s)) /\ sent s' = sent s1).
  { destruct r1 as [e|[rate source]]; [inversion H; subst; auto|].
    cbv zeta in H. destruct (_smart_round log10 _); inversion H; subst; cbn; auto. }
  destruct Hst as [Hticks Hsent]. split; [exact Hticks|]. rewrite Hsent.
  destruct Hs as [(Hs & _)|[(Hs & ? & ? & _)|(Hs & ? & ? & ? & ? & _)]]; auto 10.
Qed.

Lemma perform_conversion_requests_witness :
  let s' := (perform_conversion Fixtures.provider (Py.u "k") Fixtures.log10_sample
               (Some 2%float) (Py.u "BTC") None initial).2 in
  (ticks s' = ticks initial \/ ticks s' = S (ticks initial))
  /\ (sent s' = sent initial
      \/ (sent s' = GetSimplePrice (Py.u "bitcoin") (Py.lower (Py.u "USD")) :: sent initial
          /\ Py.u "BTC" = Py.u "BTC" /\ in_FIAT (Py.u "USD") = true)
      \/ (sent s' = GetPair (Py.u "k") (Py.u "BTC") (Py.u "USD") :: sent initial
          /\ Py.u "k" <> [] /\ in_FIAT (Py.u "BTC") = true /\ in_FIAT (Py.u "USD") = true
          /\ Py.u "BTC" <> Py.u "USD")).
Proof.
  cbv zeta.
  apply (perform_conversion_requests Fixtures.provider (Py.u "k") Fixtures.log10_sample
           (Some 2%float) (Py.u "BTC") None initial
           (perform_conversion Fixtures.provider (Py.u "k") Fixtures.log10_sample
              (Some 2%float) (Py.u "BTC") None initial).1).
  vm_compute. reflexivity.
Defined.

(** X10: [perform_conversion] fails with the unsupported-pair error exactly
    when the pair is neither BTC to fiat nor fiat to fiat, and then nothing
    was sent and the clock was not read. *)
Theorem unsupported_pair_iff (E : env) (key : str) (log10 : float -> float)
    (amount : option float) (src : str) (dst : option str) (s : state) :
  let d := effective_dst src dst in
  (supported src d = false ->
   perform_conversion E key log10 amount src dst s
   = (inl (RuntimeError (UnsupportedPair src d)), s))
  /\ (forall a b s',
        perform_conversion E key log10 amount src dst s
        = (inl (RuntimeError (UnsupportedPair a b)), s') ->
        supported src d = false).
Proof.
  intros d. rewrite perform_conversion_unfold. fold d.
  destruct (_fetch_rate E key src d s) as [r1 s1] eqn:Hf.
  apply fetch_rate_footprint in Hf as (Ht & Hl & Hfc & Hcc & Hs). split.
  - intros Hn.
    destruct Hs as [(Hs & Hr & _)|[(_ & Hb & Hd & _)|(_ & _ & Hsf & Hd & _)]].
    + rewrite (Hr Hn). f_equal. destruct s, s1; cbn in *; congruence.
    + unfold supported in Hn. subst src. rewrite Hd in Hn. discriminate.
    + unfold supported in Hn. rewrite Hsf, Hd, orb_true_r in Hn. discriminate.
  - intros a b s' H. destruct (supported src d) eqn:Hsup; [exfalso|reflexivity].
    assert (Hr : forall a b, r1 <> inl (RuntimeError (UnsupportedPair a b))).
    { destruct Hs as [(_ & _ & Hr)|[(_ & _ & _ & Hr)|(_ & _ & _ & _ & _ & Hr)]]; auto. }
    destruct r1 as [e|[rate source]].
    + inversion H; subst. eapply Hr; reflexivity.
    + cbv zeta in H. destruct (_smart_round log10 _) as [e|] eqn:Hsr; [|discriminate].
      inversion H; subst. eapply smart_round_error; eauto.
Qed.

End PerformFacts.

Module TracedFacts.

Import PyFacts World Tools Traced.

Local Abbreviation trace := _RESOLUTION_TRACE.

Ltac run_t :=
  unfold mbind, T_bind, tbind, mret, T_ret, tret, traise, lift, _t,
    M_bind, bind, M_ret, ret, raise, get_pair, get_simple_price, send, _now in *;
  cbn [world _RESOLUTION_TRACE fst snd] in *.

Lemma added_none w tr : added (TState w tr) (TState w tr) [].
Proof.
  split; cbn; [rewrite app_nil_r; reflexivity|].
  unfold sent_since. rewrite Nat.sub_diag. reflexivity.
Qed.

Lemma since_one (req : request) (w : state) t l f c :
  sent_since w (State t (req :: sent w) l f c) = [req].
Proof. unfold sent_since. cbn [sent]. apply (since_app [req]). Qed.

Lemma announced_app a b : announced (a ++ b) = announced a ++ announced b.
Proof.
  induction a as [|[] a IH]; cbn [app announced]; rewrite ?IH; reflexivity.
Qed.

Section Rates.
Variable E : env.
Variable key : str.
Variable log10 : float -> float.

(** [_fetch_rate] with the trace: the same result and world as without,
    and one "GET" line for each request, written before the request. *)
Lemma fetch_rate_trace src d st r st' :
  Traced._fetch_rate E key src d st = (r, st') ->
  (r, world st') = Tools._fetch_rate E key src d (world st)
  /\ exists new, added st st' new /\ (new = [] \/ exists req, new = [Get req]).
Proof.
  destruct st as [w tr]. unfold Traced._fetch_rate, Tools._fetch_rate.
  destruct (Py.str_eqb src (Py.u "BTC") && (Py.truthy (Some d) && in_FIAT d)).
  { unfold Traced._fetch_btc_to_fiat, Tools._fetch_btc_to_fiat. run_t.
    assert (Hgoal : forall (r0 : exn + (float * str)) w',
      w' = State (ticks w) (GetSimplePrice (Py.u "bitcoin") (Py.lower d) :: sent w)
                 (looked_up w) (_fiat_cache w) (_crypto_cache w) ->
      (r0, TState w' (tr ++ [Get (GetSimplePrice (Py.u "bitcoin") (Py.lower d))])) = (r, st') ->
      exists new, added (TState w tr) st' new /\ (new = [] \/ exists req, new = [Get req])).
    { intros r0 w' -> [= <- <-]. eexists. split; [|right; eauto].
      split; [reflexivity|]. cbn [world]. rewrite since_one. reflexivity. }
    destruct (simple_price E (length (sent w)) (Py.u "bitcoin") (Py.lower d)) as [|data].
    - intros H. split; [inversion H; reflexivity|]. eapply Hgoal; [reflexivity|exact H].
    - destruct (get2 data (Py.u "bitcoin") (Py.lower d)); intros H;
        (split; [inversion H; reflexivity|]); (eapply Hgoal; [reflexivity|exact H]). }
  destruct (in_FIAT src && in_FIAT d).
  { unfold Traced._fetch_fiat_rate, Tools._fetch_fiat_rate. destruct key as [|k0 k].
    - run_t. intros [= <- <-]. split; [reflexivity|]. exists []. split; [apply added_none|auto].
    - destruct (Py.str_eqb src d).
      + run_t. intros [= <- <-]. split; [reflexivity|].
        exists []. split; [apply added_none|auto].
      + run_t.
        assert (Hgoal : forall (r0 : exn + (float * str)) w',
          w' = State (ticks w) (GetPair (k0 :: k) src d :: sent w)
                     (looked_up w) (_fiat_cache w) (_crypto_cache w) ->
          (r0, TState w' (tr ++ [Get (GetPair (k0 :: k) src d)])) = (r, st') ->
          exists new, added (TState w tr) st' new /\ (new = [] \/ exists req, new = [Get req])).
        { intros r0 w' -> [= <- <-]. eexists. split; [|right; eauto].
          split; [reflexivity|]. cbn [world]. rewrite since_one. reflexivity. }
        destruct (exr_pair E (length (sent w)) (k0 :: k) src d) as [|data].
        * intros H. split; [inversion H; reflexivity|]. eapply Hgoal; [reflexivity|exact H].
        * destruct (match pb_result data with
                    | Some r0 => Py.str_eqb r0 (Py.u "success")
                    | None => false
                    end);
            [destruct (pb_conversion_rate data)|]; intros H;
            (split; [inversion H; reflexivity|]); (eapply Hgoal; [reflexivity|exact H]). }
  run_t. intros [= <- <-]. split; [reflexivity|]. exists []. split; [apply added_none|auto].
Qed.

Lemma perform_conversion_trace_aux amount src dst st r st' :
  Traced.perform_conversion E key log10 amount src dst st = (r, st') ->
  (r, world st') = Tools.perform_conversion E key log10 amount src dst (world st)
  /\ exists new,
       trace st' = trace st ++ Performing amount src dst :: new
       /\ announced new = rev (sent_since (world st) (world st'))
       /\ (forall res, In (Result res) new <-> r = inr res)
       /\ (forall d, In (DefaultDst d) new -> dst = None \/ dst = Some []).
Proof.
  destruct st as [w tr].
  rewrite PerformFacts.perform_conversion_unfold.
  unfold Traced.perform_conversion.
  set (d := Route.effective_dst src dst).
  set (pre := match dst with Some (_ :: _) => [] | _ => [DefaultDst d] end).
  assert (Hpre : forall K : str -> T conversion,
    tbind (_t (Performing amount src dst))
      (fun _ => tbind (match dst with
                       | Some (c :: d0) => mret (c :: d0)
                       | _ =>
                           let dst0 := if Py.str_eqb src (Py.u "BTC")
                                       then Py.u "USD" else Py.u "THB" in
                           tbind (_t (DefaultDst dst0)) (fun _ => mret dst0)
                       end) K) (TState w tr)
    = K d (TState w (tr ++ Performing amount src dst :: pre))).
  { intros K. unfold d, pre, Route.effective_dst.
    destruct dst as [[|c d0]|]; run_t; rewrite <- ?app_assoc; reflexivity. }
  unfold mbind, T_bind. rewrite Hpre. clear Hpre.
  assert (Hd : forall x, In (DefaultDst x) pre -> dst = None \/ dst = Some []).
  { unfold pre. destruct dst as [[|c d0]|]; cbn; auto. intros x []. }
  assert (Hpa : announced pre = []).
  { unfold pre. destruct dst as [[|c d0]|]; reflexivity. }
  assert (Hpr : forall res, ~ In (Result res) pre).
  { unfold pre. destruct dst as [[|c d0]|]; cbn; auto; intros res [H|[]]; discriminate. }
  clearbody pre.
  unfold tbind at 1.
  destruct (Traced._fetch_rate E key src d (TState w (tr ++ Performing amount src dst :: pre)))
    as [r1 st1] eqn:Hf.
  apply fetch_rate_trace in Hf as (Her & new1 & (Htr & Han) & Hnew).
  cbn [world _RESOLUTION_TRACE] in *.
  rewrite <- app_assoc in Htr. cbn [app] in Htr.
  assert (Hn1 : forall res, ~ In (Result res) new1).
  { intros res. destruct Hnew as [->|(req & ->)]; [intros []|].
    intros [H|[]]; discriminate. }
  assert (Hd1 : forall x, ~ In (DefaultDst x) new1).
  { intros x. destruct Hnew as [->|(req & ->)]; [intros []|].
    intros [H|[]]; discriminate. }
  assert (Hann : announced (pre ++ new1) = rev (sent_since w (world st1))).
  { rewrite announced_app, Hpa. exact Han. }
  assert (Hres : forall res, ~ In (Result res) (pre ++ new1)).
  { intros res H. apply in_app_or in H as [H|H]; [exact (Hpr res H)|exact (Hn1 res H)]. }
  assert (Hdef : forall x, In (DefaultDst x) (pre ++ new1) -> dst = None \/ dst = Some []).
  { intros x H. apply in_app_or in H as [H|H]; [eauto|destruct (Hd1 x H)]. }
  clear Hpa Hpr Hn1 Hd1 Hd Han Hnew.
  rewrite <- Her. clear Her.
  destruct r1 as [e|[rate source]].
  { intros [= <- <-]. split; [reflexivity|].
    exists (pre ++ new1). split; [exact Htr|]. split; [exact Hann|].
    split; [|exact Hdef].
    intros res. split; [intros H; destruct (Hres res H)|discriminate]. }
  destruct st1 as [w1 tr1]. cbn [world trace] in *. run_t. cbv zeta.
  destruct (_smart_round log10 (rate * default 1%float amount)%float) as [e|rounded].
  { intros [= <- <-]. split; [reflexivity|].
    exists (pre ++ new1). cbn [world trace]. split; [exact Htr|].
    split; [exact Hann|]. split; [|exact Hdef].
    intros res. split; [intros H; destruct (Hres res H)|discriminate]. }
  intros [= <- <-]. split; [reflexivity|].
  set (res0 := Conversion (default 1%float amount) src d rate rounded source
                 (clock E (ticks w1))).
  exists ((pre ++ new1) ++ [Result res0]). cbn [world trace].
  split; [rewrite Htr, <- app_assoc; reflexivity|].
  split; [rewrite announced_app, app_nil_r; exact Hann|].
  split.
  - intros res. split.
    + intros H. apply in_app_or in H as [H|[H|[]]]; [destruct (Hres res H)|].
      inversion H; subst. reflexivity.
    + intros [= <-]. apply in_or_app. right. left. reflexivity.
  - intros x H. apply in_app_or in H as [H|[H|[]]]; [eauto|discriminate].
Qed.

End Rates.

(** X11: [perform_conversion] only appends to the trace.  What it appends
    starts with its "Performing" line, has one "GET" line for each request
    it sent, in the order they were sent (the line is written before the
    request, so also for a request that fails), and holds a "Result" line
    exactly for the result it returns.  Result and world are those of the
    function without the trace. *)
Theorem perform_conversion_logs_requests (E : env) (key : str) (log10 : float -> float)
    (amount : option float) (src : str) (dst : option str)
    (st : tstate) (r : exn + conversion) (st' : tstate) :
  Traced.perform_conversion E key log10 amount src dst st = (r, st') ->
  (r, world st') = Tools.perform_conversion E key log10 amount src dst (world st)
  /\ exists new,
       trace st' = trace st ++ Performing amount src dst :: new
       /\ announced new = rev (sent_since (world st) (world st'))
       /\ (forall res, In (Result res) new <-> r = inr res).
Proof.
  intros H. apply perform_conversion_trace_aux in H as (He & new & H1 & H2 & H3 & _).
  split; [exact He|]. exists new. auto.
Qed.

Lemma perform_conversion_logs_requests_witness :
  let st := TState initial [NoPatternMatched] in
  let c := Traced.perform_conversion Fixtures.provider (Py.u "k") Fixtures.log10_sample
             (Some 2%float) (Py.u "BTC") None st in
  (c.1, world c.2)
  = Tools.perform_conversion Fixtures.provider (Py.u "k") Fixtures.log10_sample
      (Some 2%float) (Py.u "BTC") None initial
  /\ exists new,
       trace c.2 = [NoPatternMatched] ++ Performing (Some 2%float) (Py.u "BTC") None :: new
       /\ announced new = rev (sent_since initial (world c.2))
       /\ (forall res, In (Result res) new <-> c.1 = inr res).
Proof.
  cbv zeta.
  apply (perform_conversion_logs_requests Fixtures.provider (Py.u "k") Fixtures.log10_sample
           (Some 2%float) (Py.u "BTC") None (TState initial [NoPatternMatched])).
  vm_compute. reflexivity.
Defined.

(** X12: [parse_currency_query] clears the trace and leaves two lines, the
    query and what was detected, and does not touch the world.  A
    [perform_conversion] on the intent it returned continues that trace and
    never writes the default-destination line: a parsed intent always has a
    destination. *)
Theorem parse_then_perform_trace (E : env) (key : str) (log10 : float -> float)
    (text : str) (st : tstate) (r : intent) (st1 : tstate) :
  Traced.parse_currency_query text st = (inr (Some r), st1) ->
  Tools.parse_currency_query text = Some r
  /\ world st1 = world st
  /\ trace st1 = [ParsingQuery text; Detected (src r) (dst r) (amount r)]
  /\ forall r2 st2,
       Traced.perform_conversion E key log10 (amount r) (src r) (dst r) st1 = (r2, st2) ->
       exists new,
         trace st2 = [ParsingQuery text; Detected (src r) (dst r) (amount r);
                      Performing (amount r) (src r) (dst r)] ++ new
         /\ forall d, ~ In (DefaultDst d) new.
Proof.
  unfold Traced.parse_currency_query, Tools.parse_currency_query.
  destruct st as [w tr]. run_t. unfold reset_resolution_trace. cbn [world].
  destruct (cascade CONVERT_PATTERNS text) as [r0|] eqn:Hc; intros [= <- <-].
  cbn [world trace app]. do 3 (split; [reflexivity|]).
  intros r2 st2 H.
  apply perform_conversion_trace_aux in H as (_ & new & Htr & _ & _ & Hd).
  cbn [trace app] in Htr. exists new. split; [exact Htr|].
  intros d Hin. apply Hd in Hin.
  apply ToolsFacts.cascade_inv in Hc as (p & m & _ & _ & Hm).
  apply ParseFacts.on_match_complete in Hm as (_ & (d0 & Hd0 & Hcan) & _).
  apply NormFacts.canonical_spec in Hcan as (Hlen & _).
  rewrite Hd0 in Hin. destruct Hin as [Hin|Hin]; [discriminate|].
  inversion Hin; subst. discriminate.
Qed.

Lemma parse_then_perform_trace_witness :
  let st := TState initial [NoPatternMatched; NoPatternMatched] in
  let r := Intent (Some 1%float) (Py.u "BTC") (Some (Py.u "USD")) in
  let st1 := (Traced.parse_currency_query (Py.u "btc price") st).2 in
  Tools.parse_currency_query (Py.u "btc price") = Some r
  /\ world st1 = initial
  /\ trace st1 = [ParsingQuery (Py.u "btc price"); Detected (src r) (dst r) (amount r)]
  /\ forall r2 st2,
       Traced.perform_conversion Fixtures.provider [] Fixtures.log10_sample
         (amount r) (src r) (dst r) st1 = (r2, st2) ->
       exists new,
         trace st2 = [ParsingQuery (Py.u "btc price"); Detected (src r) (dst r) (amount r);
                      Performing (amount r) (src r) (dst r)] ++ new
         /\ forall d, ~ In (DefaultDst d) new.
Proof.
  cbv zeta.
  apply (parse_then_perform_trace Fixtures.provider [] Fixtures.log10_sample
           (Py.u "btc price") (TState initial [NoPatternMatched; NoPatternMatched])).
  vm_compute. reflexivity.
Defined.

End TracedFacts.

Module CacheFacts.

Import World Utils PyFacts UtilsFacts CacheSpec.

Local Abbreviation USD := (Py.u "USD").

Lemma keeps_refl s : keeps s s.
Proof. split; auto. Qed.

Lemma step_ok_refl n s : step_ok n s s.
Proof.
  split; [exists []; repeat split; [cbn; lia|constructor]|].
  split; [exists []; reflexivity|]. split; [apply keeps_refl|auto].
Qed.

Lemma slots_since_app l (s s' : state) :
  looked_up s' = l ++ looked_up s -> slots_since s s' = l.
Proof. intros H. unfold slots_since. rewrite H. apply since_app. Qed.

Lemma step_ok_trans n m s1 s2 s3 :
  step_ok n s1 s2 -> step_ok m s2 s3 -> step_ok (n + m) s1 s3.
Proof.
  intros ((new1 & Hs1 & Hl1 & Hf1) & (l1 & Hu1) & (Kf1 & Kc1) & Hk1)
         ((new2 & Hs2 & Hl2 & Hf2) & (l2 & Hu2) & (Kf2 & Kc2) & Hk2).
  assert (Hu3 : looked_up s3 = (l2 ++ l1) ++ looked_up s1).
  { rewrite Hu2, Hu1, app_assoc. reflexivity. }
  rewrite (slots_since_app _ _ _ Hu1) in Hf1.
  rewrite (slots_since_app _ _ _ Hu2) in Hf2.
  split; [|split; [eauto|split; [split; auto|auto]]].
  exists (new2 ++ new1). rewrite Hs2, Hs1, app_assoc. split; [reflexivity|].
  split; [rewrite length_app; lia|].
  rewrite (slots_since_app _ _ _ Hu3).
  apply Forall_app. split.
  - eapply Forall_impl; [exact Hf2|]. intros q (sl & ? & ?). exists sl.
    split; [assumption|]. apply in_or_app. auto.
  - eapply Forall_impl; [exact Hf1|]. intros q (sl & ? & ?). exists sl.
    split; [assumption|]. apply in_or_app. auto.
Qed.

Lemma step_ok_le n m s s' : (n <= m)%nat -> step_ok n s s' -> step_ok m s s'.
Proof.
  intros Hle ((new & ? & ? & ?) & ? & ? & ?).
  split; [|auto]. exists new. repeat split; auto. lia.
Qed.

Section Caches.
Variable E : env.
Variable self : CurrencyTool.

Lemma insert_keeps {V} (m : gmap (list N) V) k0 v k :
  is_Some (m !! k) -> is_Some (<[k0 := v]> m !! k).
Proof.
  intros H. destruct (decide (k0 = k)) as [->|Hne].
  - rewrite lookup_insert_eq. eauto.
  - rewrite lookup_insert_ne by exact Hne. exact H.
Qed.

Lemma fetch_fiat_step base s r s' :
  _fetch_fiat_rates E self base s = (r, s') -> step_ok 1 s s'.
Proof.
  intros H. apply fetch_fiat_spec in H as (Hl & Hc & H). cbv zeta in *.
  assert (Hsl : slots_since s s' = [FiatSlot (Py.upper base)]).
  { apply (slots_since_app [_]). exact Hl. }
  assert (Hreq : sent s' = GetFiatLatest (Py.upper base) :: sent s ->
    exists new, sent s' = new ++ sent s /\ (length new <= 1)%nat
      /\ Forall (fun q => exists sl, slot_of_request q = Some sl
                           /\ In sl (slots_since s s')) new).
  { intros Hs. exists [GetFiatLatest (Py.upper base)]. split; [exact Hs|].
    split; [cbn; lia|]. repeat constructor. eexists. split; [reflexivity|].
    rewrite Hsl. left. reflexivity. }
  assert (Hsame : sent s' = sent s -> _fiat_cache s' = _fiat_cache s -> step_ok 1 s s').
  { intros Hs Hf. split; [exists []; repeat split; [exact Hs|cbn; lia|constructor]|].
    split; [exists [FiatSlot (Py.upper base)]; exact Hl|].
    unfold keeps, keys_ok. rewrite Hf, Hc. auto. }
  destruct H as [(c & _ & _ & _ & _ & Hs & Hf)|(_ & Hs & [[_ Hf]|H])].
  - apply Hsame; assumption.
  - split; [apply Hreq, Hs|]. split; [exists [FiatSlot (Py.upper base)]; exact Hl|].
    unfold keeps, keys_ok. rewrite Hf, Hc. auto.
  - destruct H as (R & n & body & _ & _ & _ & _ & Hf).
    split; [apply Hreq, Hs|]. split; [exists [FiatSlot (Py.upper base)]; exact Hl|].
    unfold keeps, keys_ok. rewrite Hf, Hc. split.
    + split; [intros k; apply insert_keeps|auto].
    + intros [Kf Kc]. split; [|exact Kc]. intros k e.
      destruct (decide (Py.upper base = k)) as [<-|Hne].
      * intros _. apply upper_idem.
      * rewrite lookup_insert_ne by exact Hne. apply Kf.
Qed.

Lemma btc_rate_step vs s r s' :
  get_btc_rate E self vs s = (r, s') -> step_ok 1 s s'.
Proof.
  intros H. apply btc_rate_spec in H as (Hl & Hc & H). cbv zeta in *.
  fold (crypto_key vs) in *.
  assert (Hsl : slots_since s s' = [CryptoSlot (crypto_key vs)]).
  { apply (slots_since_app [_]). exact Hl. }
  assert (Hreq : sent s' = GetSimplePrice cg_id (Py.lower (Py.upper vs)) :: sent s ->
    exists new, sent s' = new ++ sent s /\ (length new <= 1)%nat
      /\ Forall (fun q => exists sl, slot_of_request q = Some sl
                           /\ In sl (slots_since s s')) new).
  { intros Hs. exists [GetSimplePrice cg_id (Py.lower (Py.upper vs))]. split; [exact Hs|].
    split; [cbn; lia|]. repeat constructor. eexists. split; [reflexivity|].
    rewrite Hsl. left. reflexivity. }
  destruct H as [(c & _ & _ & _ & _ & Hs & Hf)|(_ & Hs & [[_ Hf]|H])].
  - split; [exists []; repeat split; [exact Hs|cbn; lia|constructor]|].
    split; [exists [CryptoSlot (crypto_key vs)]; exact Hl|].
    unfold keeps, keys_ok. rewrite Hf, Hc. auto.
  - split; [apply Hreq, Hs|]. split; [exists [CryptoSlot (crypto_key vs)]; exact Hl|].
    unfold keeps, keys_ok. rewrite Hf, Hc. auto.
  - destruct H as (price & n & data & _ & _ & _ & _ & Hf).
    split; [apply Hreq, Hs|]. split; [exists [CryptoSlot (crypto_key vs)]; exact Hl|].
    unfold keeps, keys_ok. rewrite Hf, Hc. split.
    + split; [auto|intros k; apply insert_keeps].
    + intros [Kf Kc]. split; [exact Kf|]. intros k e.
      destruct (decide (crypto_key vs = k)) as [<-|Hne].
      * intros _. exists vs. reflexivity.
      * rewrite lookup_insert_ne by exact Hne. apply Kc.
Qed.

Lemma get_fiat_rate_step base target s r s' :
  get_fiat_rate E self base target s = (r, s') -> step_ok 2 s s'.
Proof.
  rewrite get_fiat_rate_eq. cbv zeta.
  destruct (Py.str_eqb (Py.upper base) (Py.upper target)).
  { intros [= <- <-]. apply step_ok_refl. }
  destruct (_fetch_fiat_rates E self (Py.upper base) s) as [[e|rates] s1] eqn:F1;
    apply fetch_fiat_step in F1.
  { intros [= <- <-]. eapply step_ok_le; [|exact F1]. lia. }
  destruct (rates !! Py.upper target).
  { intros [= <- <-]. eapply step_ok_le; [|exact F1]. lia. }
  destruct (rates !! USD).
  2:{ intros [= <- <-]. eapply step_ok_le; [|exact F1]. lia. }
  destruct (_fetch_fiat_rates E self USD s1) as [[e|ru] s2] eqn:F2;
    apply fetch_fiat_step in F2.
  { intros [= <- <-]. apply (step_ok_trans 1 1 s s1 s2); assumption. }
  destruct (ru !! Py.upper target); intros [= <- <-];
    apply (step_ok_trans 1 1 s s1 s2); assumption.
Qed.

Lemma convert_step amount fc tc s r s' :
  convert E self amount fc tc s = (r, s') -> step_ok 2 s s'.
Proof.
  rewrite convert_eq.
  destruct (normalize_code (Some fc)) as [f|]; [|intros [= <- <-]; apply step_ok_refl].
  destruct (normalize_code (Some tc)) as [t|]; [|intros [= <- <-]; apply step_ok_refl].
  cbv zeta.
  destruct (Py.str_eqb f (Py.u "BTC") && negb (Py.str_eqb t (Py.u "BTC"))).
  { destruct (get_btc_rate E self t s) as [[e|rate] s1] eqn:G; apply btc_rate_step in G;
      intros [= <- <-]; (eapply step_ok_le; [|exact G]); lia. }
  destruct (Py.str_eqb t (Py.u "BTC") && negb (Py.str_eqb f (Py.u "BTC"))).
  { destruct (get_btc_rate E self f s) as [[e|price] s1] eqn:G; apply btc_rate_step in G.
    - intros [= <- <-]. eapply step_ok_le; [|exact G]. lia.
    - destruct (py_div 1 price); intros [= <- <-]; (eapply step_ok_le; [|exact G]); lia. }
  destruct (Py.str_eqb f (Py.u "BTC") && Py.str_eqb t (Py.u "BTC")).
  { intros [= <- <-]. apply step_ok_refl. }
  destruct (get_fiat_rate E self f t s) as [[e|rate] s1] eqn:G; apply get_fiat_rate_step in G;
    intros [= <- <-]; exact G.
Qed.

End Caches.

(** X13: a [convert] call sends at most two requests, each to fill a cache slot
    that the call looked up (never one to the keyed pair provider); it drops
    no cache entry, and it keeps the cache keys normalised. *)
Theorem convert_keeps_the_caches (E : env) (self : CurrencyTool) (amount : float)
    (from_code to_code : str) (s : state) (r : exn + (float * float * str)) (s' : state) :
  convert E self amount from_code to_code s = (r, s') ->
  (exists new, sent s' = new ++ sent s /\ (length new <= 2)%nat
     /\ Forall (fun q => exists sl, slot_of_request q = Some sl
                          /\ In sl (slots_since s s')) new)
  /\ keeps s s' /\ (keys_ok s -> keys_ok s').
Proof.
  intros H. apply convert_step in H as (H1 & _ & H2 & H3). auto.
Qed.

Lemma convert_keeps_the_caches_witness :
  let s' := (convert Fixtures.provider default_tool 10 (Py.u "eur") (Py.u "thb")
               initial).2 in
  (exists new, sent s' = new ++ sent initial /\ (length new <= 2)%nat
     /\ Forall (fun q => exists sl, slot_of_request q = Some sl
                          /\ In sl (slots_since initial s')) new)
  /\ keeps initial s' /\ (keys_ok initial -> keys_ok s').
Proof.
  cbv zeta.
  apply (convert_keeps_the_caches Fixtures.provider default_tool 10%float
           (Py.u "eur") (Py.u "thb") initial
           (convert Fixtures.provider default_tool 10 (Py.u "eur") (Py.u "thb") initial).1).
  vm_compute. reflexivity.
Defined.

End CacheFacts.

Module RateFacts.

Import World Utils PyFacts UtilsFacts CacheSpec CacheFacts.

Local Abbreviation USD := (Py.u "USD").

Section Caches.
Variable E : env.
Variable self : CurrencyTool.

(** A failing [_fetch_fiat_rates] sent its request and failed on the reply. *)
Lemma fetch_fiat_failure base s e s' :
  _fetch_fiat_rates E self base s = (inl e, s') ->
  (e = HTTPError \/ e = KeyError \/ e = RuntimeError HostError)
  /\ sent s' = GetFiatLatest (Py.upper base) :: sent s
  /\ _fiat_cache s' = _fiat_cache s /\ _crypto_cache s' = _crypto_cache s.
Proof.
  intros H. pose proof H as H0.
  apply fetch_fiat_spec in H as (_ & Hc & H). cbv zeta in H.
  destruct H as [(c & _ & _ & Hr & _)|(_ & Hs & [[_ Hf]|H])]; [discriminate Hr| |].
  2:{ destruct H as (R & n & body & Hr & _). discriminate Hr. }
  split; [|auto]. clear Hs Hf Hc.
  unfold _fetch_fiat_rates, mbind, M_bind, bind, fiat_cache_get, _now in H0.
  cbn [fst snd] in H0.
  assert (Hre : forall s0 s1, refetch_fiat E (Py.upper base) s0 = (inl e, s1) ->
            e = HTTPError \/ e = KeyError \/ e = RuntimeError HostError).
  { intros s0 s1. unfold refetch_fiat, mbind, M_bind, bind, get_fiat_latest, send.
    destruct (fiat_latest E (length (sent s0)) (Py.upper base)) as [|body].
    - intros [= <- _]. auto.
    - destruct (negb (default true (fb_success body))
                && negb (bool_decide (is_Some (fb_rates body)))).
      + intros [= <- _]. auto.
      + destruct (fb_rates body); [discriminate|]. intros [= <- _]. auto. }
  destruct (_fiat_cache s !! Py.upper base) as [c|].
  - cbn [ticks sent looked_up _fiat_cache _crypto_cache] in H0.
    destruct (fresh self (clock E (ticks s)) (fe_t c)); [discriminate|]. eauto.
  - eauto.
Qed.

Lemma btc_rate_failure vs s e s' :
  get_btc_rate E self vs s = (inl e, s') ->
  (e = HTTPError \/ e = RuntimeError CoinGeckoUnexpected)
  /\ sent s' = GetSimplePrice cg_id (Py.lower (Py.upper vs)) :: sent s
  /\ _fiat_cache s' = _fiat_cache s /\ _crypto_cache s' = _crypto_cache s.
Proof.
  intros H. pose proof H as H0.
  apply btc_rate_spec in H as (_ & Hc & H). cbv zeta in H.
  destruct H as [(c & _ & _ & Hr & _)|(_ & Hs & [[_ Hf]|H])]; [discriminate Hr| |].
  2:{ destruct H as (R & n & body & Hr & _). discriminate Hr. }
  split; [|auto]. clear Hs Hf Hc.
  unfold get_btc_rate, mbind, M_bind, bind, crypto_cache_get, _now in H0.
  cbn [fst snd] in H0.
  assert (Hre : forall k s0 s1,
            refetch_btc E (Py.lower (Py.upper vs)) k s0 = (inl e, s1) ->
            e = HTTPError \/ e = RuntimeError CoinGeckoUnexpected).
  { intros k s0 s1. unfold refetch_btc, mbind, M_bind, bind, get_simple_price, send.
    destruct (simple_price E (length (sent s0)) cg_id (Py.lower (Py.upper vs))) as [|data].
    - intros [= <- _]. auto.
    - destruct (get2 data cg_id (Py.lower (Py.upper vs))); [discriminate|].
      intros [= <- _]. auto. }
  destruct (_crypto_cache s !! _) as [c|].
  - cbn [ticks sent looked_up _fiat_cache _crypto_cache] in H0.
    destruct (fresh self (clock E (ticks s)) (ce_t c)); [discriminate|]. eauto.
  - eauto.
Qed.

End Caches.

(** X14: a rate table that [_fetch_fiat_rates] returns is the one the cache
    holds for the base afterwards, and it is never a stale one: it is the
    cached table, which passed the TTL test at the clock reading just made,
    or the table of the reply to the request just sent, stored with the
    last clock reading as its time. *)
Theorem served_table_is_fresh_or_fetched (E : env) (self : CurrencyTool)
    (base : str) (s : state) (R : gmap (list N) float) (s' : state) :
  _fetch_fiat_rates E self base s = (inr R, s') ->
  exists e,
    _fiat_cache s' !! Py.upper base = Some e /\ fe_rates e = R
    /\ ((sent s' = sent s /\ _fiat_cache s !! Py.upper base = Some e
         /\ fresh self (clock E (ticks s)) (fe_t e) = true)
        \/ (sent s' = GetFiatLatest (Py.upper base) :: sent s
            /\ (exists body, fiat_latest E (length (sent s)) (Py.upper base) = Json body
                             /\ fb_rates body = Some R)
            /\ fe_t e = clock E (Nat.pred (ticks s')))).
Proof.
  intros H. apply fetch_fiat_spec in H as (_ & _ & H). cbv zeta in H.
  destruct H as [(c & Hc & Hf & Hr & _ & Hs & Hca)|(_ & Hs & [[Hp _]|H])].
  - inversion Hr; subst. exists c. rewrite Hca. auto 10.
  - discriminate Hp.
  - destruct H as (R' & n & body & Hr & Ht & Hb & HR & Hca). inversion Hr; subst R'.
    exists (FiatEntry (clock E n) R). rewrite Hca, lookup_insert_eq, Ht.
    split; [reflexivity|]. split; [reflexivity|]. right. eauto 10.
Qed.

Lemma served_table_is_fresh_or_fetched_witness :
  let c := _fetch_fiat_rates Fixtures.provider default_tool (Py.u "eur") Fixtures.stale in
  exists e,
    _fiat_cache c.2 !! Py.upper (Py.u "eur") = Some e
    /\ fe_rates e = Fixtures.table [(Py.u "USD", 2%float)]
    /\ ((sent c.2 = sent Fixtures.stale
         /\ _fiat_cache Fixtures.stale !! Py.upper (Py.u "eur") = Some e
         /\ fresh default_tool (clock Fixtures.provider (ticks Fixtures.stale)) (fe_t e) = true)
        \/ (sent c.2 = GetFiatLatest (Py.upper (Py.u "eur")) :: sent Fixtures.stale
            /\ (exists body,
                  fiat_latest Fixtures.provider (length (sent Fixtures.stale))
                    (Py.upper (Py.u "eur")) = Json body
                  /\ fb_rates body = Some (Fixtures.table [(Py.u "USD", 2%float)]))
            /\ fe_t e = clock Fixtures.provider (Nat.pred (ticks c.2)))).
Proof.
  cbv zeta.
  apply (served_table_is_fresh_or_fetched Fixtures.provider default_tool (Py.u "eur")
           Fixtures.stale).
  vm_compute. reflexivity.
Defined.

(** X15: a bitcoin price that [get_btc_rate] returns is the one the cache
    holds for the quote currency afterwards, and it is never a stale one:
    it is the cached price, which passed the TTL test at the clock reading
    just made, or the price of the reply to the request just sent, stored
    with the last clock reading as its time. *)
Theorem served_price_is_fresh_or_fetched (E : env) (self : CurrencyTool)
    (vs : str) (s : state) (price : float) (s' : state) :
  get_btc_rate E self vs s = (inr price, s') ->
  exists e,
    _crypto_cache s' !! crypto_key vs = Some e /\ ce_price e = price
    /\ ((sent s' = sent s /\ _crypto_cache s !! crypto_key vs = Some e
         /\ fresh self (clock E (ticks s)) (ce_t e) = true)
        \/ (sent s' = GetSimplePrice cg_id (Py.lower (Py.upper vs)) :: sent s
            /\ (exists data,
                  simple_price E (length (sent s)) cg_id (Py.lower (Py.upper vs)) = Json data
                  /\ get2 data cg_id (Py.lower (Py.upper vs)) = Some price)
            /\ ce_t e = clock E (Nat.pred (ticks s')))).
Proof.
  intros H. apply btc_rate_spec in H as (_ & _ & H). cbv zeta in H.
  fold (crypto_key vs) in H.
  destruct H as [(c & Hc & Hf & Hr & _ & Hs & Hca)|(_ & Hs & [[Hp _]|H])].
  - inversion Hr; subst. exists c. rewrite Hca. auto 10.
  - discriminate Hp.
  - destruct H as (p' & n & data & Hr & Ht & Hb & HR & Hca). inversion Hr; subst p'.
    exists (CryptoEntry (clock E n) price). rewrite Hca, lookup_insert_eq, Ht.
    split; [reflexivity|]. split; [reflexivity|]. right. eauto 10.
Qed.

Lemma served_price_is_fresh_or_fetched_witness :
  let c := get_btc_rate Fixtures.provider default_tool (Py.u "thb") initial in
  exists e,
    _crypto_cache c.2 !! crypto_key (Py.u "thb") = Some e /\ ce_price e = 1600000%float
    /\ ((sent c.2 = sent initial /\ _crypto_cache initial !! crypto_key (Py.u "thb") = Some e
         /\ fresh default_tool (clock Fixtures.provider (ticks initial)) (ce_t e) = true)
        \/ (sent c.2 = GetSimplePrice cg_id (Py.lower (Py.upper (Py.u "thb"))) :: sent initial
            /\ (exists data,
                  simple_price Fixtures.provider (length (sent initial)) cg_id
                    (Py.lower (Py.upper (Py.u "thb"))) = Json data
                  /\ get2 data cg_id (Py.lower (Py.upper (Py.u "thb"))) = Some 1600000%float)
            /\ ce_t e = clock Fixtures.provider (Nat.pred (ticks c.2)))).
Proof.
  cbv zeta.
  apply (served_price_is_fresh_or_fetched Fixtures.provider default_tool (Py.u "thb") initial).
  vm_compute. reflexivity.
Defined.

(** X16: a failing [_fetch_fiat_rates] or [get_btc_rate] has sent its one
    request and failed on the reply (transport, or a body without the
    wanted field); it leaves both caches as they were, a stale entry
    included. *)
Theorem failed_fetch_changes_no_cache (E : env) (self : CurrencyTool) :
  (forall base s e s',
     _fetch_fiat_rates E self base s = (inl e, s') ->
     (e = HTTPError \/ e = KeyError \/ e = RuntimeError HostError)
     /\ sent s' = GetFiatLatest (Py.upper base) :: sent s
     /\ _fiat_cache s' = _fiat_cache s /\ _crypto_cache s' = _crypto_cache s)
  /\ (forall vs s e s',
        get_btc_rate E self vs s = (inl e, s') ->
        (e = HTTPError \/ e = RuntimeError CoinGeckoUnexpected)
        /\ sent s' = GetSimplePrice cg_id (Py.lower (Py.upper vs)) :: sent s
        /\ _fiat_cache s' = _fiat_cache s /\ _crypto_cache s' = _crypto_cache s).
Proof. split; [apply fetch_fiat_failure|apply btc_rate_failure]. Qed.

Lemma failed_fetch_changes_no_cache_witness :
  let c := _fetch_fiat_rates Fixtures.provider default_tool (Py.u "xyz") Fixtures.stale in
  c.1 = inl HTTPError
  /\ sent c.2 = [GetFiatLatest (Py.u "XYZ")]
  /\ _fiat_cache c.2 = _fiat_cache Fixtures.stale
  /\ _crypto_cache c.2 = _crypto_cache Fixtures.stale.
Proof.
  cbv zeta.
  destruct (failed_fetch_changes_no_cache Fixtures.provider default_tool) as [H _].
  destruct (H (Py.u "xyz") Fixtures.stale HTTPError
              (_fetch_fiat_rates Fixtures.provider default_tool (Py.u "xyz") Fixtures.stale).2)
    as (_ & Hs & Hf & Hc); [vm_compute; reflexivity|].
  split; [vm_compute; reflexivity|]. auto.
Defined.

(** X17: when the base table holds the target, [get_fiat_rate] returns that
    rate from the one table: the USD table is not consulted, whatever a
    triangulation through it would give. *)
Theorem direct_rate_is_preferred (E : env) (self : CurrencyTool) (base target : str)
    (s : state) (rates : gmap (list N) float) (s1 : state) (x : float) :
  Py.upper base <> Py.upper target ->
  _fetch_fiat_rates E self base s = (inr rates, s1) ->
  rates !! Py.upper target = Some x ->
  get_fiat_rate E self base target s = (inr x, s1)
  /\ slots_since s s1 = [FiatSlot (Py.upper base)].
Proof.
  intros Hne F1 Ht. rewrite get_fiat_rate_eq. cbv zeta.
  rewrite (str_eqb_neq _ _ Hne), fetch_upper, F1, Ht. split; [reflexivity|].
  apply fetch_fiat_spec in F1 as (Hl & _). cbv zeta in Hl.
  apply (slots_since_app [_]). exact Hl.
Qed.

Lemma direct_rate_is_preferred_witness :
  let c := get_fiat_rate Fixtures.provider default_tool (Py.u "thb") (Py.u "eur") initial in
  c = (inr 0.25%float,
       (_fetch_fiat_rates Fixtures.provider default_tool (Py.u "thb") initial).2)
  /\ slots_since initial
       (_fetch_fiat_rates Fixtures.provider default_tool (Py.u "thb") initial).2
     = [FiatSlot (Py.upper (Py.u "thb"))].
Proof.
  cbv zeta.
  apply (direct_rate_is_preferred Fixtures.provider default_tool (Py.u "thb") (Py.u "eur")
           initial (Fixtures.table [(Py.u "THB", 1%float); (Py.u "EUR", 0.25%float)])).
  - vm_compute. discriminate.
  - vm_compute. reflexivity.
  - vm_compute. reflexivity.
Defined.

Section Errors.
Variable E : env.
Variable self : CurrencyTool.

Lemma get_fiat_rate_errors base target s e s' :
  get_fiat_rate E self base target s = (inl e, s') ->
  provider_failure (@inl exn float e) = true
  \/ e = ValueError (UnsupportedTarget (Py.upper target)).
Proof.
  rewrite get_fiat_rate_eq. cbv zeta.
  destruct (Py.str_eqb (Py.upper base) (Py.upper target)); [discriminate|].
  destruct (_fetch_fiat_rates E self (Py.upper base) s) as [[e1|rates] s1] eqn:F1.
  { intros [= <- <-]. left. apply fetch_fiat_raises in F1. destruct e1; auto. }
  destruct (rates !! Py.upper target); [discriminate|].
  destruct (rates !! USD); [|intros [= <- <-]; auto].
  destruct (_fetch_fiat_rates E self USD s1) as [[e2|ru] s2] eqn:F2.
  { intros [= <- <-]. left. apply fetch_fiat_raises in F2. destruct e2; auto. }
  destruct (ru !! Py.upper target); [discriminate|]. intros [= <- <-]. auto.
Qed.

Lemma btc_rate_errors vs s e s' :
  get_btc_rate E self vs s = (inl e, s') -> provider_failure (@inl exn float e) = true.
Proof.
  intros H. apply btc_rate_failure in H as ([->| ->] & _); reflexivity.
Qed.

(** The errors of [convert] that do not come from its two tests of the
    codes. *)
Lemma convert_other_errors amount fc tc f t s e s' :
  normalize_code (Some fc) = Some f -> normalize_code (Some tc) = Some t ->
  convert E self amount fc tc s = (inl e, s') ->
  (forall x, e <> ValueError (UnknownSource x))
  /\ (forall x, e <> ValueError (UnknownTarget x)).
Proof.
  intros Hf Ht. rewrite convert_eq, Hf, Ht. cbv zeta.
  destruct (Py.str_eqb f (Py.u "BTC") && negb (Py.str_eqb t (Py.u "BTC"))).
  { destruct (get_btc_rate E self t s) as [[e1|rate] s1] eqn:G; [|discriminate].
    intros [= <- <-]. apply btc_rate_errors in G.
    split; intros x ->; discriminate G. }
  destruct (Py.str_eqb t (Py.u "BTC") && negb (Py.str_eqb f (Py.u "BTC"))).
  { destruct (get_btc_rate E self f s) as [[e1|price] s1] eqn:G.
    - intros [= <- <-]. apply btc_rate_errors in G.
      split; intros x ->; discriminate G.
    - unfold py_div. destruct (PrimFloat.eqb price 0); [|discriminate].
      intros [= <- <-]. split; intros x; discriminate. }
  destruct (Py.str_eqb f (Py.u "BTC") && Py.str_eqb t (Py.u "BTC")); [discriminate|].
  destruct (get_fiat_rate E self f t s) as [[e1|rate] s1] eqn:G; [|discriminate].
  intros [= <- <-]. apply get_fiat_rate_errors in G as [G| ->].
  - split; intros x ->; discriminate G.
  - split; intros x; discriminate.
Qed.

End Errors.

(** X18: [convert] raises the unknown-source error exactly when the source
    code is not recognised, whatever the target is, and the unknown-target
    error exactly when the source is recognised and the target is not; in
    both cases before any cache, clock or network access. *)
Theorem convert_rejects_unknown_codes (E : env) (self : CurrencyTool) (amount : float)
    (from_code to_code : str) (s : state) :
  (forall x s',
     convert E self amount from_code to_code s = (inl (ValueError (UnknownSource x)), s')
     <-> normalize_code (Some from_code) = None /\ x = from_code /\ s' = s)
  /\ (forall x s',
        convert E self amount from_code to_code s = (inl (ValueError (UnknownTarget x)), s')
        <-> normalize_code (Some from_code) <> None
            /\ normalize_code (Some to_code) = None /\ x = to_code /\ s' = s).
Proof.
  destruct (normalize_code (Some from_code)) as [f|] eqn:Hf.
  - destruct (normalize_code (Some to_code)) as [t|] eqn:Ht.
    + split; intros x s'; (split; [intros H|]).
      * destruct (convert_other_errors E self _ _ _ _ _ _ _ _ Hf Ht H) as [H1 _].
        destruct (H1 x eq_refl).
      * intros [H _]. discriminate H.
      * destruct (convert_other_errors E self _ _ _ _ _ _ _ _ Hf Ht H) as [_ H2].
        destruct (H2 x eq_refl).
      * intros (_ & H & _). discriminate H.
    + rewrite convert_eq, Hf, Ht. split; intros x s'; split.
      * discriminate.
      * intros [H _]. discriminate H.
      * intros [= <- <-]. repeat split; discriminate.
      * intros (_ & _ & -> & ->). reflexivity.
  - rewrite convert_eq, Hf. split; intros x s'; split.
    + intros [= <- <-]. auto.
    + intros (_ & -> & ->). reflexivity.
    + discriminate.
    + intros (H & _). contradiction.
Qed.

(** X19: a bitcoin price of zero makes a conversion from a fiat code into
    BTC raise [ZeroDivisionError]; the zero price is in the cache by then,
    so while that entry passes the TTL test the conversion raises again
    without a request. *)
Theorem zero_price_is_cached (E : env) (self : CurrencyTool) (amount : float)
    (F f : str) (s : state) (price : float) (s1 : state) :
  normalize_code (Some F) = Some f ->
  f <> Py.u "BTC" ->
  get_btc_rate E self f s = (inr price, s1) ->
  PrimFloat.eqb price 0 = true ->
  convert E self amount F (Py.u "BTC") s = (inl ZeroDivisionError, s1)
  /\ exists e,
       _crypto_cache s1 !! crypto_key f = Some e /\ ce_price e = price
       /\ (fresh self (clock E (ticks s1)) (ce_t e) = true ->
           exists s2,
             convert E self amount F (Py.u "BTC") s1 = (inl ZeroDivisionError, s2)
             /\ sent s2 = sent s1).
Proof.
  intros HF Hne G Hz.
  assert (Hconv : forall s0 s0', get_btc_rate E self f s0 = (inr price, s0') ->
            convert E self amount F (Py.u "BTC") s0 = (inl ZeroDivisionError, s0')).
  { intros s0 s0' G0. rewrite convert_eq, HF.
    change (normalize_code (Some (Py.u "BTC"))) with (Some (Py.u "BTC")).
    cbv zeta. rewrite (str_eqb_neq _ _ Hne), str_eqb_refl. cbn [andb negb].
    rewrite G0. unfold py_div. rewrite Hz. reflexivity. }
  split; [apply Hconv, G|].
  pose proof G as G'. apply btc_rate_spec in G' as (_ & _ & H). cbv zeta in H.
  fold (crypto_key f) in H.
  assert (He : exists e, _crypto_cache s1 !! crypto_key f = Some e /\ ce_price e = price).
  { destruct H as [(c & Hc & _ & Hr & _ & _ & Hca)|(_ & _ & [[Hp _]|H])].
    - inversion Hr; subst. exists c. rewrite Hca. auto.
    - discriminate Hp.
    - destruct H as (p' & n & data & Hr & _ & _ & _ & Hca). inversion Hr; subst p'.
      eexists. rewrite Hca, lookup_insert_eq. split; reflexivity. }
  destruct He as (e & He & Hp). exists e. split; [exact He|]. split; [exact Hp|].
  intros Hfresh.
  destruct (get_btc_rate E self f s1) as [r2 s2] eqn:G2.
  pose proof G2 as G2'. apply btc_rate_spec in G2' as (_ & _ & H2). cbv zeta in H2.
  fold (crypto_key f) in H2.
  destruct H2 as [(c & Hc & _ & Hr & _ & Hs & _)|(Hst & _)].
  - rewrite He in Hc. inversion Hc; subst c. subst r2. rewrite Hp in G2.
    exists s2. split; [apply Hconv, G2|exact Hs].
  - unfold slot_fresh in Hst. rewrite He, Hfresh in Hst. discriminate.
Qed.

Lemma zero_price_is_cached_witness :
  let E := Env (fun _ => 1000%float) (fun _ _ => Failed)
               (fun _ _ _ => Json {[ Py.u "bitcoin" := Fixtures.table [(Py.u "usd", 0%float)] ]})
               (fun _ _ _ _ => Failed) in
  let s1 := (get_btc_rate E default_tool (Py.u "USD") initial).2 in
  convert E default_tool 5 (Py.u "usd") (Py.u "BTC") initial = (inl ZeroDivisionError, s1)
  /\ exists e,
       _crypto_cache s1 !! crypto_key (Py.u "USD") = Some e /\ ce_price e = 0%float
       /\ (fresh default_tool (clock E (ticks s1)) (ce_t e) = true ->
           exists s2,
             convert E default_tool 5 (Py.u "usd") (Py.u "BTC") s1
             = (inl ZeroDivisionError, s2)
             /\ sent s2 = sent s1).
Proof.
  cbv zeta.
  apply (zero_price_is_cached _ default_tool 5%float (Py.u "usd") (Py.u "USD") initial).
  - reflexivity.
  - vm_compute. discriminate.
  - vm_compute. reflexivity.
  - reflexivity.
Defined.

End RateFacts.

Module GreedyFacts.

Import Re ReSem ReSemFacts Chars CharsFacts ReFacts AmountFacts.

Section Greedy.
Context {A : Type}.
Variable K : @cont A.

(** [.*] in front of [K] on a line: if [K] accepts some later position, the
    whole succeeds. *)
Lemma star_any_reach fuel pre b cs :
  (length (pre ++ b) < fuel)%nat -> Forall (fun c => c <> 10) pre ->
  (exists x, K b cs = Some x) ->
  exists y, rep_loop (one any_char) fuel 0 None (pre ++ b) cs K = Some y.
Proof.
  revert fuel. induction pre as [|c pre IH]; intros fuel Hlen Hpre Hk.
  - destruct fuel as [|fuel]; [cbn in Hlen; lia|]. cbn [app rep_loop].
    match goal with |- exists y, match ?more with _ => _ end = _ => destruct more end;
      [eauto|exact Hk].
  - destruct fuel as [|fuel]; [cbn in Hlen; lia|].
    inversion Hpre as [|? ? Hc Hpre']; subst.
    cbn [app rep_loop one fmap option_fmap option_map Nat.pred].
    unfold any_char at 1. apply N.eqb_neq in Hc. rewrite Hc. cbn [negb].
    assert (Hlt : (length (pre ++ b) <? length (c :: pre ++ b))%nat = true)
      by (apply Nat.ltb_lt; cbn; lia).
    rewrite Hlt.
    destruct (IH fuel) as (y & Hy); [cbn in Hlen; lia|assumption|assumption|].
    rewrite Hy. eauto.
Qed.

(** [.*] is greedy: what it returns is what [K] returns at the last position
    of the line that [K] accepts. *)
Lemma star_any_last fuel s cs x :
  (length s < fuel)%nat -> Forall (fun c => c <> 10) s ->
  rep_loop (one any_char) fuel 0 None s cs K = Some x ->
  exists pre b, s = pre ++ b /\ K b cs = Some x
    /\ forall u v, b = u ++ v -> u <> [] -> K v cs = None.
Proof.
  revert fuel. induction s as [|c s IH]; intros fuel Hlen Hs H.
  - destruct fuel as [|fuel]; [cbn in Hlen; lia|]. cbn in H.
    exists [], []. split; [reflexivity|]. split; [exact H|].
    intros [|? ?] v Huv Hu; [contradiction|discriminate].
  - destruct fuel as [|fuel]; [cbn in Hlen; lia|].
    inversion Hs as [|? ? Hc Hs']; subst.
    cbn [rep_loop one fmap option_fmap option_map Nat.pred] in H.
    unfold any_char at 1 in H. pose proof Hc as Hc'. apply N.eqb_neq in Hc'.
    rewrite Hc' in H. cbn [negb] in H.
    assert (Hlt : (length s <? length (c :: s))%nat = true)
      by (apply Nat.ltb_lt; cbn; lia).
    rewrite Hlt in H.
    destruct (rep_loop (one any_char) fuel 0 None s cs K) as [y|] eqn:Hmore.
    + inversion H; subst y.
      apply IH in Hmore as (pre & b & -> & Hk & Hlast); [|cbn in Hlen; lia|assumption].
      exists (c :: pre), b. auto.
    + cbn in H. exists [], (c :: s). split; [reflexivity|]. split; [exact H|].
      intros u v Huv Hu. destruct u as [|c' u]; [contradiction|].
      inversion Huv; subst.
      destruct (K v cs) as [z|] eqn:Hz; [exfalso|reflexivity].
      destruct (star_any_reach fuel u v cs) as (y & Hy);
        [cbn in Hlen; lia|apply Forall_app in Hs'; tauto|eauto|].
      congruence.
Qed.

End Greedy.

End GreedyFacts.

Module TryParseFacts.

Import Re ReSem ReSemFacts Chars CharsFacts ReFacts Parts.
Import AmountFacts GreedyFacts PyFacts World Utils.

Lemma RATE_RE_parts : _RATE_RE = Cat RATE_KW (Cat (star Any) RATE_TAIL).
Proof. reflexivity. Qed.

Lemma lang_minlen ic r w : lang ic r w -> (minlen r <= length w)%nat.
Proof.
  revert w.
  induction r as [ | l | | | R | r1 IH1 r2 IH2 | r1 IH1 r2 IH2 | lo hi r IH | name r IH ];
    cbn [lang minlen]; intros w H.
  - lia.
  - destruct H as (c & -> & _). cbn. lia.
  - destruct H as (c & -> & _). cbn. lia.
  - destruct H as (c & -> & _). cbn. lia.
  - destruct H as (c & -> & _). cbn. lia.
  - destruct H as (w1 & w2 & -> & H1 & H2). rewrite length_app.
    apply IH1 in H1. apply IH2 in H2. lia.
  - destruct H as [H|H]; [apply IH1 in H|apply IH2 in H]; lia.
  - destruct H as (ws & -> & Hws & Hlo & _). revert lo Hlo.
    induction Hws as [|v ws Hv _ IHws]; intros lo Hlo.
    + cbn in *. assert (lo = 0)%nat as -> by lia. cbn. lia.
    + cbn [concat]. rewrite length_app. apply IH in Hv.
      destruct lo as [|lo]; [cbn; lia|].
      specialize (IHws lo ltac:(cbn in Hlo; lia)). cbn. nia.
  - auto.
Qed.

Lemma total_final : total final.
Proof. intros s cs. eexists. reflexivity. Qed.

Lemma letters3_run {A} c1 c2 c3 s cs (k : @cont A) :
  test true (in_class [(65, 90); (97, 122)]) c1 = true ->
  test true (in_class [(65, 90); (97, 122)]) c2 = true ->
  test true (in_class [(65, 90); (97, 122)]) c3 = true ->
  run true (Rep 3 (Some 3%nat) LETTERS) (c1 :: c2 :: c3 :: s) cs k = k s cs.
Proof.
  intros H1 H2 H3. unfold LETTERS.
  cbn [run rep_loop one length fmap option_fmap option_map Nat.pred].
  rewrite H1, H2, H3.
  cbn [Nat.ltb Nat.leb]. rewrite !Nat.leb_refl.
  cbn [Nat.eqb]. destruct (k s cs); reflexivity.
Qed.

Lemma run_alt {A} ic r1 r2 s cs (k : @cont A) :
  run ic (Alt r1 r2) s cs k =
  match run ic r1 s cs k with Some x => Some x | None => run ic r2 s cs k end.
Proof. reflexivity. Qed.

(** At a string that the destination code pattern matches, the tail of
    [_RATE_RE] matches as well. *)
Lemma tail_at_code wd s cs :
  lang true CODE3 wd -> exists x, tail_k (wd ++ s) cs = Some x.
Proof.
  intros Hl. unfold tail_k, RATE_TAIL.
  change (exists x, run true RATE_SRC (wd ++ s) cs
            (fun s' cs' =>
               run true (opt RATE_DST) s'
                 (("src"%string, take (length (wd ++ s) - length s') (wd ++ s)) :: cs') final)
          = Some x).
  set (k := fun (s' : str) (cs' : captures) =>
              run true (opt RATE_DST) s'
                (("src"%string, take (length (wd ++ s) - length s') (wd ++ s)) :: cs') final).
  assert (Hk : total k).
  { intros s' cs'. unfold k. cbn [run opt]. apply rep_loop_optional, total_final. }
  unfold RATE_SRC. cbn [alt]. rewrite run_alt.
  destruct (run true (word "btc") (wd ++ s) cs k) as [x|]; [eauto|].
  rewrite run_alt.
  destruct (run true (word "bitcoin") (wd ++ s) cs k) as [x|]; [eauto|].
  rewrite run_alt.
  unfold CODE3 in Hl. cbn [lang] in Hl. destruct Hl as [Hl|Hl].
  - destruct Hl as (ws & -> & Hws & Hlo & Hhi).
    destruct ws as [|w1 [|w2 [|w3 [|? ?]]]]; cbn in Hlo, Hhi; try lia.
    inversion Hws as [|? ? (c1 & -> & T1) Hws1]; subst.
    inversion Hws1 as [|? ? (c2 & -> & T2) Hws2]; subst.
    inversion Hws2 as [|? ? (c3 & -> & T3) _]; subst.
    cbn [concat app]. rewrite letters3_run by assumption.
    destruct (Hk s cs) as (x & ->). eauto.
  - destruct Hl as (c & -> & Tc). cbn [app].
    destruct (run true (Rep 3 (Some 3%nat) LETTERS) (c :: s) cs k) as [x|]; [eauto|].
    unfold GLYPH. cbn [run one]. rewrite Tc. apply Hk.
Qed.

Lemma only_src (m : captures) :
  Forall (fun p => p.1 = "src"%string) m -> group m "dst" = None.
Proof.
  induction 1 as [|[n v] m Hn _ IH]; [reflexivity|].
  cbn in Hn. subst n. cbn [group]. exact IH.
Qed.

(** Where [.*] leaves off at the last position that the tail accepts, the
    tail has not captured a destination: the destination code would itself
    be a later position that the tail accepts. *)
Lemma tail_last_no_dst b m :
  tail_k b [] = Some m ->
  (forall u v, b = u ++ v -> u <> [] -> tail_k v [] = None) ->
  group m "dst" = None.
Proof.
  intros Hk Hlast. unfold tail_k, RATE_TAIL in Hk.
  change (run true (Cat (Grp "src" RATE_SRC) (opt RATE_DST)) b [] final)
    with (run true (Grp "src" RATE_SRC) b []
            (fun s' cs' => run true (opt RATE_DST) s' cs' final)) in Hk.
  apply (run_sound (fun n _ => n = "src"%string) true (Grp "src" RATE_SRC)) in Hk.
  2:{ split; [apply no_groups_ok; reflexivity|auto]. }
  destruct Hk as (w & s3 & new & -> & Hw & Hq & Hk).
  assert (Hwne : w <> []).
  { apply lang_minlen in Hw. cbn in Hw. destruct w; [cbn in Hw; lia|discriminate]. }
  rewrite app_nil_r in Hk. cbn [run opt rep_loop] in Hk.
  match type of Hk with
  | match ?more with _ => _ end = _ => destruct more as [y|] eqn:Hmore
  end.
  - exfalso. apply (run_sound (fun _ _ => True) true RATE_DST) in Hmore;
      [|apply groups_ok_trivial].
    destruct Hmore as (w' & s4 & _ & -> & Hl & _).
    unfold RATE_DST in Hl. cbn [cat lang] in Hl.
    destruct Hl as (u1 & r1 & -> & _ & u2 & r2 & -> & _ & u3 & wd & -> & _ & Hwd).
    destruct (tail_at_code wd s4 []) as (x & Hx); [exact Hwd|].
    rewrite (Hlast (w ++ u1 ++ u2 ++ u3) (wd ++ s4)) in Hx; [discriminate| |].
    + rewrite <- !app_assoc. reflexivity.
    + destruct w; [contradiction|discriminate].
  - cbn in Hk. inversion Hk; subst m. apply only_src.
    eapply Forall_impl; [exact Hq|]. intros [n v] [Hn _]. exact Hn.
Qed.

Lemma rate_run_no_dst s m :
  Forall (fun c => c <> 10) s ->
  run true _RATE_RE s [] final = Some m -> group m "dst" = None.
Proof.
  intros Hs H. rewrite RATE_RE_parts in H. cbn [run] in H.
  apply (run_sound (fun _ _ => False) true RATE_KW) in H;
    [|apply no_groups_ok; reflexivity].
  destruct H as (w & s1 & new & -> & _ & Hq & H).
  assert (new = []) as ->.
  { destruct new as [|nv new]; [reflexivity|]. inversion Hq as [|? ? [[] _] _]. }
  cbn [app star] in H.
  apply Forall_app in Hs as [_ Hs1].
  change (rep_loop (one any_char) (S (length s1)) 0 None s1 [] tail_k = Some m) in H.
  apply star_any_last in H as (pre & b & -> & Hk & Hlast); [|lia|exact Hs1].
  eapply tail_last_no_dst; eassumption.
Qed.

(** On a text without a line break, [_RATE_RE] never captures a destination. *)
Lemma rate_search_no_dst text m :
  Forall (fun c => c <> 10) text ->
  search true _RATE_RE text = Some m -> group m "dst" = None.
Proof.
  intros Ht Hs. apply search_inv in Hs as (pre & suf & -> & Hr).
  apply Forall_app in Ht as [_ Ht]. eapply rate_run_no_dst; eassumption.
Qed.

(** X20: on a text without a line break, a rate intent of [try_parse] never
    takes its destination from the text: the greedy [.*] of the rate pattern
    runs to the last code of the line, which becomes the source, and the
    destination is the configured default target. *)
Theorem rate_intent_destination_is_default (self : CurrencyTool) (text from : str)
    (to : option str) :
  Forall (fun c => c <> 10) text ->
  try_parse self text = Some (PRate from to) ->
  to = Some (default_target self).
Proof.
  intros Ht. unfold try_parse.
  assert (Hsimple : try_simple text = Some (PRate from to) -> to = Some (default_target self)).
  { unfold try_simple. destruct (search true SIMPLE_RE text) as [m|]; [|discriminate].
    destruct (_safe_float _), (normalize_code (group m "src")),
      (normalize_code (group m "dst")); try discriminate.
    destruct (Py.truthy (Some l) && Py.truthy (Some l0)); discriminate. }
  assert (Hrate : try_rate self text = Some (PRate from to) -> to = Some (default_target self)).
  { unfold try_rate. destruct (search true _RATE_RE text) as [m2|] eqn:Hs; [|exact Hsimple].
    rewrite (rate_search_no_dst text m2 Ht Hs). cbn [Py.truthy].
    destruct (normalize_code (group m2 "src")) as [[|c s]|]; try exact Hsimple.
    intros [= _ <-]. reflexivity. }
  destruct (search true _CONVERT_RE text) as [m|]; [|exact Hrate].
  destruct (_safe_float _) as [a|]; [|exact Hrate].
  destruct (normalize_code (group m "src")) as [[|c s]|]; try exact Hrate.
  discriminate.
Qed.

Lemma rate_intent_destination_is_default_witness :
  try_parse default_tool (Py.u "rate usd to eur")
  = Some (PRate (Py.u "EUR") (Some (Py.u "THB")))
  /\ Some (Py.u "THB") = Some (default_target default_tool).
Proof.
  assert (H : try_parse default_tool (Py.u "rate usd to eur")
              = Some (PRate (Py.u "EUR") (Some (Py.u "THB"))))
    by (vm_compute; reflexivity).
  split; [exact H|].
  apply (rate_intent_destination_is_default default_tool (Py.u "rate usd to eur")
           (Py.u "EUR") (Some (Py.u "THB"))); [|exact H].
  repeat constructor; discriminate.
Defined.

(** X21: [try_parse] returns nothing for a text of fewer than five characters,
    and a conversion intent only for a text with an ASCII digit. *)
Theorem try_parse_needs (self : CurrencyTool) (text : str) (p : payload) :
  try_parse self text = Some p ->
  (5 <= length text)%nat
  /\ (forall a f t, p = PConvert a f t -> existsb Py.is_digit text = true).
Proof.
  intros H.
  assert (Hlen : forall r m, (5 <=? minlen r)%nat = true ->
            search true r text = Some m -> (5 <= length text)%nat).
  { intros r m Hmin Hs. apply Nat.leb_le in Hmin.
    destruct (Nat.le_gt_cases 5 (length text)) as [|Hlt]; [assumption|].
    rewrite search_short in Hs by lia. discriminate. }
  assert (Hdig : forall r m, must digit_atom r = true ->
            search true r text = Some m -> existsb Py.is_digit text = true).
  { intros r m Hm Hs.
    apply (search_must true digit_atom Py.is_digit r text m (digit_leaf true)); assumption. }
  unfold try_parse, try_rate, try_simple in H.
  destruct (search true SIMPLE_RE text) as [m3|] eqn:H3.
  - destruct (search true _CONVERT_RE text) as [m1|] eqn:H1.
    + split; [eapply (Hlen _CONVERT_RE); [reflexivity|exact H1]|].
      intros. eapply (Hdig _CONVERT_RE); [reflexivity|exact H1].
    + split; [eapply (Hlen SIMPLE_RE); [reflexivity|exact H3]|].
      intros. eapply (Hdig SIMPLE_RE); [reflexivity|exact H3].
  - destruct (search true _CONVERT_RE text) as [m1|] eqn:H1.
    + split; [eapply (Hlen _CONVERT_RE); [reflexivity|exact H1]|].
      intros. eapply (Hdig _CONVERT_RE); [reflexivity|exact H1].
    + destruct (search true _RATE_RE text) as [m2|] eqn:H2; [|discriminate].
      split; [eapply (Hlen _RATE_RE); [reflexivity|exact H2]|].
      intros a f t ->.
      destruct (normalize_code (group m2 "src")) as [[|c s]|]; discriminate.
Qed.

Lemma try_parse_needs_witness :
  (5 <= length (Py.u "convert 1 btc"))%nat
  /\ (forall a f t, PConvert 1 (Py.u "BTC") (Py.u "THB") = PConvert a f t ->
        existsb Py.is_digit (Py.u "convert 1 btc") = true).
Proof.
  apply (try_parse_needs default_tool (Py.u "convert 1 btc")).
  vm_compute. reflexivity.
Defined.

End TryParseFacts.

Module AgreeFacts.

Import Canon CaseFacts PyFacts.

Lemma opt_eqb_eq a b : opt_eqb a b = true -> a = b.
Proof.
  destruct a, b; cbn; try discriminate; [|reflexivity].
  intros H. apply str_eqb_eq in H. congruence.
Qed.

Lemma lower_words_agree : all3 ascii_lower_letters agree = true.
Proof. vm_compute. reflexivity. Qed.

Import Letters.

Lemma lc_letter : forall c, Py.is_ascii_letter c = true -> In (Py.lc c) ascii_lower_letters.
Proof.
  intros c H. unfold ascii_lower_letters.
  assert (Hr : 97 <= Py.lc c <= 122).
  { unfold Py.lc, Py.lower_char. unfold Py.is_ascii_letter in H.
    destruct (Py.is_upper_ascii c) eqn:Hu.
    - unfold Py.is_upper_ascii, Py.in_range in Hu. rewrite andb_true_iff, !N.leb_le in Hu.
      cbn [hd]. lia.
    - cbn [orb] in H. unfold Py.is_lower_ascii, Py.in_range in H.
      rewrite andb_true_iff, !N.leb_le in H.
      destruct (N.eqb_spec c 304); [lia|]. destruct (N.eqb_spec c 8490); [lia|].
      cbn [hd]. lia. }
  rewrite <- (N2Nat.id (Py.lc c)). apply List.in_map. apply List.in_seq. lia.
Qed.

Lemma lc_is_letter : forall c, Py.is_ascii_letter c = true ->
  Py.is_ascii_letter (Py.lc c) = true /\ Py.lc (Py.lc c) = Py.lc c.
Proof. by_letters. Qed.

Section Word.
Variables a b c : char.
Hypothesis Ha : Py.is_ascii_letter a = true.
Hypothesis Hb : Py.is_ascii_letter b = true.
Hypothesis Hc : Py.is_ascii_letter c = true.

Lemma lower_word : Py.lower [a; b; c] = [Py.lc a; Py.lc b; Py.lc c].
Proof.
  unfold Py.lower. cbn [flat_map].
  rewrite (lower_char_letter a Ha), (lower_char_letter b Hb), (lower_char_letter c Hc).
  reflexivity.
Qed.

Lemma strip_word : Py.strip [a; b; c] = [a; b; c].
Proof.
  unfold Py.strip, Py.strip_by. cbn [Py.lstrip_by].
  rewrite (letter_space a Ha). cbn [rev app Py.lstrip_by].
  rewrite (letter_space c Hc). reflexivity.
Qed.

Lemma isalpha_word : Py.isalpha [a; b; c] = true.
Proof.
  cbn [Py.isalpha forallb]. unfold Py.is_alpha_char. rewrite Ha, Hb, Hc. reflexivity.
Qed.

Lemma symbol_word : Py.dict_get Utils._SYMBOL_TO_CODE [a; b; c] = None.
Proof.
  unfold Utils._SYMBOL_TO_CODE. cbn [Py.dict_get Py.str_eqb].
  rewrite !andb_false_r. reflexivity.
Qed.

End Word.

(** Both normalisers see a three-letter word through its lower-case form. *)
Lemma norm_code_lower_word a b c :
  Py.is_ascii_letter a = true -> Py.is_ascii_letter b = true ->
  Py.is_ascii_letter c = true ->
  Tools._norm_code [a; b; c] = Tools._norm_code [Py.lc a; Py.lc b; Py.lc c]
  /\ Utils.normalize_code (Some [a; b; c])
     = Utils.normalize_code (Some [Py.lc a; Py.lc b; Py.lc c]).
Proof.
  intros Ha Hb Hc.
  destruct (lc_is_letter a Ha) as [La Ia], (lc_is_letter b Hb) as [Lb Ib],
    (lc_is_letter c Hc) as [Lc Ic].
  split.
  - unfold Tools._norm_code.
    rewrite (strip_word a b c), (strip_word (Py.lc a) (Py.lc b) (Py.lc c)) by assumption.
    rewrite (lower_word a b c), (lower_word (Py.lc a) (Py.lc b) (Py.lc c)) by assumption.
    rewrite Ia, Ib, Ic. reflexivity.
  - rewrite !NormUFacts.normalize_code_stripped.
    rewrite (strip_word a b c), (strip_word (Py.lc a) (Py.lc b) (Py.lc c)) by assumption.
    unfold CanonU.normalize_stripped.
    rewrite !symbol_word.
    rewrite (lower_word a b c), (lower_word (Py.lc a) (Py.lc b) (Py.lc c)) by assumption.
    rewrite Ia, Ib, Ic.
    rewrite (isalpha_word a b c), (isalpha_word (Py.lc a) (Py.lc b) (Py.lc c)) by assumption.
    cbn [length Nat.eqb andb].
    unfold Py.upper. cbn [flat_map].
    rewrite !upper_char_lc by assumption.
    rewrite !upper_char_letter by assumption. reflexivity.
Qed.

(** X22: on a word of three ASCII letters, in any case, the normalisers of the
    two modules return the same code, unless the word is "yen" or "won",
    which only the function-style module knows as names. *)
Theorem normalizers_agree_on_words (w : str) :
  length w = 3%nat -> forallb Py.is_ascii_letter w = true ->
  name3 (Py.lower w) = false ->
  Tools._norm_code w = Utils.normalize_code (Some w).
Proof.
  intros Hl Hw Hn.
  destruct w as [|a [|b [|c [|? ?]]]]; try discriminate Hl.
  cbn [forallb] in Hw. rewrite !andb_true_iff in Hw. destruct Hw as (Ha & Hb & Hc & _).
  rewrite (lower_word a b c Ha Hb Hc) in Hn.
  destruct (norm_code_lower_word a b c Ha Hb Hc) as [-> ->].
  pose proof (all3_spec _ _ _ _ _ lower_words_agree
                (lc_letter a Ha) (lc_letter b Hb) (lc_letter c Hc)) as H.
  unfold agree in H. rewrite Hn in H. apply opt_eqb_eq. exact H.
Qed.

Lemma normalizers_agree_on_words_witness :
  Tools._norm_code (Py.u "Sek") = Utils.normalize_code (Some (Py.u "Sek")).
Proof. apply (normalizers_agree_on_words (Py.u "Sek")); reflexivity. Defined.

(** The two names are told apart: JPY and KRW there, YEN and WON here. *)
Lemma names_differ :
  Tools._norm_code (Py.u "yen") = Some (Py.u "JPY")
  /\ Utils.normalize_code (Some (Py.u "yen")) = Some (Py.u "YEN")
  /\ Tools._norm_code (Py.u "won") = Some (Py.u "KRW")
  /\ Utils.normalize_code (Some (Py.u "won")) = Some (Py.u "WON").
Proof. repeat split; vm_compute; reflexivity. Qed.

End AgreeFacts.
